(** * Video Text Extractor: a shallow embedding of App.tsx and
      services/videoAnalyzer.ts, and the properties of its specification.

    Conventions of the embedding.
    - A JavaScript string is a list of code units, [list ascii]; string
      literals are written [str "..."].
    - A JavaScript number is [NaN] or a finite rational [Num q]: every finite
      double is a rational.  The rounding of floating-point arithmetic is
      not represented; on integers below 2^53, where the properties below
      apply the formatters and the sampling cursor, the program's
      arithmetic is exact.  The infinities are not represented.
    - String indices are [Z], as [indexOf] and [lastIndexOf] answer -1.
    - Asynchronous handlers are cut at their [await]s: the synchronous
      prefix runs on the click, and every awaited result arrives as an event
      of its own carrying what the environment (browser, AI service)
      answered. *)

From Stdlib Require Import ZArith QArith Qround Qpower String Ascii List Lia Lqa.
From Stdlib Require Import Bool.
From Stdlib Require Import DecimalString DecimalPos Sorted Qminmax.
Import ListNotations.

Set Implicit Arguments.
Open Scope Z_scope.

(* ================================================================== *)
(** * JavaScript primitives used by the program *)
(* ================================================================== *)

Module Js.

Definition jsstring := list ascii.

Definition str (s : string) : jsstring := list_ascii_of_string s.

Definition newline : ascii := ascii_of_nat 10.

Definition len (s : jsstring) : Z := Z.of_nat (List.length s).

(** A string is truthy when it is not empty. *)
Definition truthy (s : jsstring) : bool :=
  match s with [] => false | _ :: _ => true end.

(** [a || b] on strings. *)
Definition or_else (a b : jsstring) : jsstring :=
  if truthy a then a else b.

Inductive number := NaN | Num (q : Q).

Definition isNaN (x : number) : bool :=
  match x with NaN => true | Num _ => false end.

(** [Math.floor], [Math.round] (halves go up) and truncation on finite
    numbers. *)
Definition Math_floor (q : Q) : Z := Qfloor q.

Definition Math_round (q : Q) : Z := Qfloor (q + (1 # 2)).

Definition trunc (q : Q) : Z :=
  if Qle_bool 0 q then Qfloor q else Qceiling q.

(** [x % y]: the remainder has the sign of the dividend. *)
Definition rem (x y : Q) : Q := (x - y * inject_Z (trunc (x / y)))%Q.

(** The rounding of IEEE 754 binary64 arithmetic: the result of [+], [-],
    [*] and [/] on numbers is the exact result rounded to the nearest
    double, ties to the even mantissa.  A positive number [q] with
    [2^l <= q < 2^(l+1)] is rounded on the grid of step [2^(l-52)] (53-bit
    mantissa), and on the grid of step [2^-1074] in the subnormal range.
    Overflow to [Infinity] (from [2^1024] on) is not represented. *)
Definition pow2 (e : Z) : Q := (2 ^ e)%Q.

Definition floor_log2 (q : Q) : Z :=
  let l := Z.log2 (Qnum q) - Z.log2 (Zpos (Qden q)) in
  if Qle_bool (pow2 l) q then l else l - 1.

Definition round_half_even (x : Q) : Z :=
  let f := Qfloor x in
  match (x - inject_Z f ?= 1 # 2)%Q with
  | Lt => f
  | Gt => f + 1
  | Eq => if Z.even f then f else f + 1
  end.

Definition binary64_pos (q : Q) : Q :=
  let e := Z.max (floor_log2 q - 52) (-1074) in
  (inject_Z (round_half_even (q * pow2 (- e))) * pow2 e)%Q.

Definition binary64 (q : Q) : Q :=
  match Qnum q with
  | Z0 => 0%Q
  | Zpos _ => binary64_pos q
  | Zneg _ => (- binary64_pos (- q))%Q
  end.

(** [String(n)] for an integer [n]: decimal digits, a leading minus sign
    for negative values (the exponent form JavaScript switches to from
    10^21 on is not represented). *)
Definition String_ (n : Z) : jsstring :=
  str (NilZero.string_of_int (Z.to_int n)).

Fixpoint repeat_to (n : nat) (fill cur : jsstring) : jsstring :=
  match n with
  | O => []
  | S k =>
      match cur with
      | [] => match fill with
              | [] => []
              | c :: rest => c :: repeat_to k fill rest
              end
      | c :: rest => c :: repeat_to k fill rest
      end
  end.

(** [s.padStart(targetLength, padString)]: the filler is repeated and cut
    to the missing length; nothing is added to a string already long
    enough. *)
Definition padStart (targetLength : nat) (padString s : jsstring)
  : jsstring :=
  repeat_to (targetLength - List.length s) padString padString ++ s.

(** First and last position of a code unit in a string. *)
Fixpoint index_in (c : ascii) (s : jsstring) : option nat :=
  match s with
  | [] => None
  | x :: rest =>
      if Ascii.eqb x c then Some O
      else match index_in c rest with
           | Some i => Some (S i)
           | None => None
           end
  end.

Fixpoint last_index_in (c : ascii) (s : jsstring) : option nat :=
  match s with
  | [] => None
  | x :: rest =>
      match last_index_in c rest with
      | Some i => Some (S i)
      | None => if Ascii.eqb x c then Some O else None
      end
  end.

Definition clamp (lo hi x : Z) : Z := Z.min (Z.max x lo) hi.

(** [s.indexOf(c, position)] for a one-unit search string: the search
    starts at [position] clamped to [0, length]. *)
Definition indexOf (c : ascii) (position : Z) (s : jsstring) : Z :=
  let start := clamp 0 (len s) position in
  match index_in c (skipn (Z.to_nat start) s) with
  | Some i => start + Z.of_nat i
  | None => -1
  end.

(** [s.lastIndexOf(c, position)] for a one-unit search string: the search
    runs downwards from [position] clamped to [0, length - 1]; a negative
    [position] therefore still inspects index 0. *)
Definition lastIndexOf (c : ascii) (position : Z) (s : jsstring) : Z :=
  let start := clamp 0 (len s - 1) position in
  if start <? 0 then -1
  else match last_index_in c (firstn (Z.to_nat start + 1) s) with
       | Some i => Z.of_nat i
       | None => -1
       end.

(** [s.substring(a, b)]: both ends are clamped to [0, length] and swapped
    when out of order; [s.substring(a)] runs to the end. *)
Definition substring (a b : Z) (s : jsstring) : jsstring :=
  let a' := clamp 0 (len s) a in
  let b' := clamp 0 (len s) b in
  let lo := Z.min a' b' in
  let hi := Z.max a' b' in
  firstn (Z.to_nat (hi - lo)) (skipn (Z.to_nat lo) s).

Definition substring_from (a : Z) (s : jsstring) : jsstring :=
  substring a (len s) s.

(** [parts.join(sep)]. *)
Fixpoint join (sep : jsstring) (parts : list jsstring) : jsstring :=
  match parts with
  | [] => []
  | [p] => p
  | p :: rest => p ++ sep ++ join sep rest
  end.

(** [\d] in a regular expression without the unicode flag. *)
Definition is_digit (c : ascii) : bool :=
  let n := nat_of_ascii c in (48 <=? n)%nat && (n <=? 57)%nat.

(** [s.startsWith(p)]. *)
Fixpoint startsWith (p s : jsstring) : bool :=
  match p, s with
  | [], _ => true
  | _ :: _, [] => false
  | x :: p', y :: s' => Ascii.eqb x y && startsWith p' s'
  end.

End Js.

Import Js.

(* ================================================================== *)
(** * types.ts *)
(* ================================================================== *)

Record VideoFrame := mkVideoFrame {
  vf_timestamp : Z;
  vf_imageData : jsstring
}.

Record Transcription := mkTranscription {
  tr_timestamp : jsstring;
  tr_text : jsstring
}.

(** The string literals 'idle', 'processing', 'success' and 'error'. *)
Inductive AppStatus := Idle | Processing | Success | Error.

Definition AppStatus_eqb (a b : AppStatus) : bool :=
  match a, b with
  | Idle, Idle | Processing, Processing
  | Success, Success | Error, Error => true
  | _, _ => false
  end.

(* ================================================================== *)
(** * Time formatting *)
(* ================================================================== *)

(** [String(n).padStart(2, '0')]. *)
Definition pad2 (n : Z) : jsstring := padStart 2 (str "0") (String_ n).

(** services/videoAnalyzer.ts, [formatTimestamp]. *)
Definition formatTimestamp (totalSeconds : number) : jsstring :=
  match totalSeconds with
  | NaN => str "NaN:NaN"
  | Num q =>
      let flooredSeconds := Math_floor q in
      let minutes := flooredSeconds / 60 in
      let seconds := Z.rem flooredSeconds 60 in
      pad2 minutes ++ str ":" ++ pad2 seconds
  end.

(** App.tsx, [formatDuration]; [None] is [null]. *)
Definition formatDuration (totalSeconds : option number) : jsstring :=
  match totalSeconds with
  | None => str "00:00"                 (* totalSeconds === null *)
  | Some NaN => str "00:00"             (* isNaN(totalSeconds) *)
  | Some (Num q) =>
      let minutes := Math_floor (q / 60) in
      let seconds := Math_floor (rem q 60) in
      pad2 minutes ++ str ":" ++ pad2 seconds
  end.

(** App.tsx, [formatForFilename]. *)
Definition formatForFilename (totalSeconds : option number) : jsstring :=
  match totalSeconds with
  | None => str "00_00"                 (* totalSeconds === null *)
  | Some NaN => str "00_00"             (* isNaN(totalSeconds) *)
  | Some (Num q) =>
      let minutes := Math_floor (q / 60) in
      let seconds := Math_floor (rem q 60) in
      pad2 minutes ++ str "_" ++ pad2 seconds
  end.

(** The reading of a ["mm:ss"] string that the specification's round trip
    refers to: two decimal fields around a colon, valued [60 * mm + ss].
    This parser is not part of the program. *)
Definition digit_value (c : ascii) : option Z :=
  if is_digit c then Some (Z.of_nat (nat_of_ascii c) - 48) else None.

Definition parse_mmss (s : jsstring) : option Z :=
  match s with
  | [m1; m0; colon; s1; s0] =>
      match digit_value m1, digit_value m0, digit_value s1, digit_value s0 with
      | Some a, Some b, Some c, Some d =>
          if Ascii.eqb colon ":"%char
          then Some (60 * (10 * a + b) + (10 * c + d))
          else None
      | _, _, _, _ => None
      end
  | _ => None
  end.

(** The digit character of a value below ten. *)
Definition digit_char (d : Z) : ascii := ascii_of_nat (48 + Z.to_nat d).

Definition two_digits (n : Z) : jsstring :=
  [digit_char (n / 10); digit_char (n mod 10)].

(* ================================================================== *)
(** * services/videoAnalyzer.ts *)
(* ================================================================== *)

(** How a promise ends. *)
Inductive Settled (A : Type) : Type :=
| Resolved (value : A)
| Rejected (message : jsstring).

Arguments Resolved {A} value.
Arguments Rejected {A} message.

Definition FRAME_EXTRACTION_INTERVAL : Z := 2.

(** [video.duration] once the metadata have loaded: a finite number of
    seconds, [Infinity] (a stream, or a recording whose header carries no
    length, as MediaRecorder writes them) or NaN. *)
Inductive Duration :=
| Finite (seconds : Q)
| Infinite
| Unknown.

(** The off-screen video element once its metadata has loaded: its
    duration, what a seek to a cursor position leads to ([None]: the
    element fires [error]; [Some p]: it fires [seeked] with
    [video.currentTime = p]), and the JPEG payload the canvas yields for the
    picture shown at a position. *)
Record VideoElement := mkVideoElement {
  ve_duration : Duration;
  ve_seek : Z -> option Q;
  ve_picture : Q -> jsstring
}.

(** What one run of the sampler did: how its promise ended, the progress
    values handed to [onProgress], and the positions assigned to
    [video.currentTime], in order. *)
Record SamplerRun := mkSamplerRun {
  sr_outcome : Settled (list VideoFrame);
  sr_progress : list number;
  sr_seeks : list Z
}.

(** [currentTime > duration]: false against [Infinity] and against NaN. *)
Definition exceeds (currentTime : Z) (duration : Duration) : bool :=
  match duration with
  | Finite d => negb (Qle_bool (inject_Z currentTime) d)
  | Infinite | Unknown => false
  end.

(** [Math.min(100, Math.round((currentTime / duration) * 100))], the
    quotient and the product rounded as doubles.  The quotient is NaN for
    0/0 and for a NaN duration, infinite for a positive cursor over 0, and
    0 over an infinite duration. *)
Definition progress_of (currentTime : Z) (duration : Duration) : number :=
  match duration with
  | Unknown => NaN
  | Infinite => Num 0
  | Finite d =>
      if Qeq_bool d 0 then
        if currentTime =? 0 then NaN else Num 100
      else
        let quotient := binary64 (inject_Z currentTime / d) in
        Num (inject_Z
               (Z.min 100 (Math_round (binary64 (quotient * 100)))))
  end.

(** The loop formed by [captureFrame] and the [onseeked] handler.  The
    cursor [currentTime] only takes the integer values 0, 2, 4, ..., sums
    that doubles hold exactly below 2^53.  Each unit of fuel pays for one
    call of [captureFrame]; a run whose promise never settles is one that
    no amount of fuel brings to an end. *)
Fixpoint captureFrame (fuel : nat) (video : VideoElement) (currentTime : Z)
    (frames : list VideoFrame) (reported : list number) (seeks : list Z)
  : option SamplerRun :=
  match fuel with
  | O => None
  | S fuel' =>
      if exceeds currentTime (ve_duration video)
      then (* currentTime > duration: resolve(frames) *)
        Some (mkSamplerRun (Resolved frames) reported seeks)
      else (* video.currentTime = currentTime *)
        match ve_seek video currentTime with
        | None =>
            Some (mkSamplerRun
                    (Rejected (str "Error processing video file."))
                    reported (seeks ++ [currentTime]))
        | Some position =>
            (* onseeked *)
            let frame := mkVideoFrame (Math_round position)
                                      (ve_picture video position) in
            captureFrame fuel' video
              (currentTime + FRAME_EXTRACTION_INTERVAL)
              (frames ++ [frame])
              (reported ++ [progress_of currentTime (ve_duration video)])
              (seeks ++ [currentTime])
        end
  end.

(** [extractFramesFromVideo]; [context] tells whether
    [canvas.getContext('2d')] answered a context. *)
Definition extractFramesFromVideo (fuel : nat) (context : bool)
    (video : VideoElement) : option SamplerRun :=
  if negb context
  then Some (mkSamplerRun
               (Rejected (str "Canvas context is not available.")) [] [])
  else captureFrame fuel video 0 [] [] [].

(** ** The AI service *)

(** The keys of [QUICK_EDIT_PROMPTS] (App.tsx). *)
Inductive QuickKey := BG1 | BG2 | BG3 | LOGO | TEXT_COLOR | OUTLINE | DEL_PIC.

(** The instruction texts are fixed constants of the source; they are kept
    symbolic here, with their parameters. *)
Inductive Prompt :=
| TranscriptionPrompt
| IsolateTextPrompt
| ReWritePrompt
| ReWriteSizePrompt (size : Z)
| QuickEditPrompt (key : QuickKey)
| UserPrompt (text : jsstring).

Record InlineData := mkInlineData {
  mimeType : jsstring;
  data : jsstring
}.

Record Part := mkPart {
  inlineData : option InlineData;
  text : option jsstring
}.

Record Content := mkContent { parts : option (list Part) }.

Record Candidate := mkCandidate { content : option Content }.

Record GenerateContentResponse := mkResponse {
  candidates : option (list Candidate)
}.

(** A request to [ai.models.generateContent]: the model, the instruction and
    the inline images sent along. *)
Record AiRequest := mkAiRequest {
  rq_model : jsstring;
  rq_prompt : Prompt;
  rq_images : list InlineData
}.

Record RawResult := mkRawResult {
  raw_timestamp : number;
  raw_text : jsstring
}.

(** What [analyzeVideoForText] did: how its promise ended, the requests it
    sent to the AI service and the progress it reported. *)
Record AnalysisRun := mkAnalysisRun {
  ar_outcome : Settled (list Transcription);
  ar_requests : list AiRequest;
  ar_progress : list (jsstring * option number)
}.

Definition extraction_progress (reported : list number)
  : list (jsstring * option number) :=
  map (fun p => (str "Extracting frames from video...", Some p)) reported.

(** What the batch call leads to: the call itself fails, or it answers a
    text on which [JSON.parse(response.text.trim())] throws, or a text that
    parses to an array of raw results. *)
Inductive BatchAnswer :=
| CallFailed (message : jsstring)
| Malformed (message : jsstring)
| Parsed (rawResults : list RawResult).

(** [analyzeVideoForText].  [reply] is the answer of the AI service to the
    request sent. *)
Definition analyzeVideoForText (fuel : nat) (context : bool)
    (video : VideoElement) (reply : AiRequest -> BatchAnswer)
  : option AnalysisRun :=
  let started := [(str "Extracting frames from video...", Some (Num 0))] in
  match extractFramesFromVideo fuel context video with
  | None => None
  | Some run =>
      let progress1 := started ++ extraction_progress (sr_progress run) in
      match sr_outcome run with
      | Rejected message =>
          Some (mkAnalysisRun (Rejected message) [] progress1)
      | Resolved frames =>
          if (List.length frames =? 0)%nat then
            Some (mkAnalysisRun
                    (Rejected
                       (str "Could not extract any frames from the video."))
                    [] progress1)
          else
            let progress2 :=
              progress1 ++ [(str "Analyzing frames with Gemini...", None)] in
            let imageParts :=
              map (fun frame =>
                     mkInlineData (str "image/jpeg") (vf_imageData frame))
                  frames in
            let request :=
              mkAiRequest (str "gemini-2.5-pro") TranscriptionPrompt
                          imageParts in
            let progress3 :=
              progress2 ++ [(str "Processing results...", None)] in
            match reply request with
            | CallFailed message =>
                Some (mkAnalysisRun (Rejected message) [request] progress2)
            | Malformed message =>
                Some (mkAnalysisRun (Rejected message) [request] progress3)
            | Parsed rawResults =>
                let formattedResults :=
                  map (fun result =>
                         mkTranscription
                           (formatTimestamp (raw_timestamp result))
                           (raw_text result))
                      rawResults in
                Some (mkAnalysisRun (Resolved formattedResults) [request]
                        progress3)
            end
      end
  end.

(** The scan shared by [processFrameForTextExtraction] and [editImage]: the
    [for] loop over the parts, left at the first part whose inline data has
    an image media type. *)
Fixpoint scan_parts (ps : list Part) : option jsstring :=
  match ps with
  | [] => None
  | part :: rest =>
      match inlineData part with
      | Some d =>
          if startsWith (str "image/") (mimeType d)
          then Some (data d)
          else scan_parts rest
      | None => scan_parts rest
      end
  end.

Definition find_image (response : GenerateContentResponse)
  : option jsstring :=
  match candidates response with
  | Some (first :: _) =>         (* candidates && candidates.length > 0 *)
      match content first with
      | Some c =>
          match parts c with
          | Some ps => scan_parts ps
          | None => None
          end
      | None => None
      end
  | _ => None
  end.

Definition no_generated_image : jsstring :=
  str "Could not find generated image in the API response. The request may have been blocked due to safety policies.".

Definition no_edited_image : jsstring :=
  str "Could not find edited image in the API response. The request may have been blocked due to safety policies.".

(** The request each of the two image operations sends. *)
Definition processFrame_request (base64FrameData : jsstring) : AiRequest :=
  mkAiRequest (str "gemini-2.5-flash-image") IsolateTextPrompt
              [mkInlineData (str "image/jpeg") base64FrameData].

Definition editImage_request (base64ImageData mime : jsstring)
    (prompt : Prompt) : AiRequest :=
  mkAiRequest (str "gemini-2.5-flash-image") prompt
              [mkInlineData mime base64ImageData].

(** [processFrameForTextExtraction] and [editImage], from the answer of the
    call on: a rejected call rejects with the service's message. *)
Definition processFrameForTextExtraction
    (answer : Settled GenerateContentResponse) : Settled jsstring :=
  match answer with
  | Rejected message => Rejected message
  | Resolved response =>
      match find_image response with
      | Some payload => Resolved payload
      | None => Rejected no_generated_image
      end
  end.

Definition editImage (answer : Settled GenerateContentResponse)
  : Settled jsstring :=
  match answer with
  | Rejected message => Rejected message
  | Resolved response =>
      match find_image response with
      | Some payload => Resolved payload
      | None => Rejected no_edited_image
      end
  end.

(* ================================================================== *)
(** * App.tsx: the state of the component *)
(* ================================================================== *)

(** A file chosen by the user; only its name reaches the state. *)
Record File := mkFile { file_name : jsstring }.

(** An object URL, as [URL.createObjectURL] hands it out. *)
Definition Url := nat.

Record Progress := mkProgress {
  message : jsstring;
  percentage : option number
}.

Definition REWRITE_SIZES : list Z :=
  [80; 90; 100; 110; 120; 130; 140; 150; 175; 200].

(** One field per [useState] of the component. *)
Record AppState := mkAppState {
  videoFile : option File;
  externalImageFile : option File;
  videoDuration : option number;
  videoUrl : option Url;
  capturedFrameUrl : option Url;
  editedFrameUrl : option Url;
  videoCurrentTime : number;
  capturedTime : number;
  status : AppStatus;
  transcriptions : list Transcription;
  error : option jsstring;
  progress : Progress;
  copyButtonText : jsstring;
  editableText : jsstring;
  isCapturing : bool;
  isCapturingFrame : bool;
  isReWriting : bool;
  isEditing : bool;
  editPrompt : jsstring;
  quickEditLoadingKey : option QuickKey;
  isImagePreviewVisible : bool;
  isReWritePopupOpen : bool;
  isReWritingFromPopup : bool;
  apiKeyInput : jsstring
}.

(** The values given to [useState]. *)
Definition initialState : AppState :=
  mkAppState None None None None None None (Num 0) (Num 0) Idle [] None
             (mkProgress [] None) (str "Copy") [] false false false false []
             None false false false [].

(** The setters of the component. *)
Definition setVideoFile (v : option File) (s : AppState) : AppState :=
  mkAppState v (externalImageFile s) (videoDuration s) (videoUrl s)
    (capturedFrameUrl s) (editedFrameUrl s) (videoCurrentTime s)
    (capturedTime s) (status s) (transcriptions s) (error s) (progress s)
    (copyButtonText s) (editableText s) (isCapturing s) (isCapturingFrame s)
    (isReWriting s) (isEditing s) (editPrompt s) (quickEditLoadingKey s)
    (isImagePreviewVisible s) (isReWritePopupOpen s)
    (isReWritingFromPopup s) (apiKeyInput s).

Definition setExternalImageFile (v : option File) (s : AppState) : AppState :=
  mkAppState (videoFile s) v (videoDuration s) (videoUrl s)
    (capturedFrameUrl s) (editedFrameUrl s) (videoCurrentTime s)
    (capturedTime s) (status s) (transcriptions s) (error s) (progress s)
    (copyButtonText s) (editableText s) (isCapturing s) (isCapturingFrame s)
    (isReWriting s) (isEditing s) (editPrompt s) (quickEditLoadingKey s)
    (isImagePreviewVisible s) (isReWritePopupOpen s)
    (isReWritingFromPopup s) (apiKeyInput s).

Definition setVideoDuration (v : option number) (s : AppState) : AppState :=
  mkAppState (videoFile s) (externalImageFile s) v (videoUrl s)
    (capturedFrameUrl s) (editedFrameUrl s) (videoCurrentTime s)
    (capturedTime s) (status s) (transcriptions s) (error s) (progress s)
    (copyButtonText s) (editableText s) (isCapturing s) (isCapturingFrame s)
    (isReWriting s) (isEditing s) (editPrompt s) (quickEditLoadingKey s)
    (isImagePreviewVisible s) (isReWritePopupOpen s)
    (isReWritingFromPopup s) (apiKeyInput s).

Definition setVideoUrl (v : option Url) (s : AppState) : AppState :=
  mkAppState (videoFile s) (externalImageFile s) (videoDuration s) v
    (capturedFrameUrl s) (editedFrameUrl s) (videoCurrentTime s)
    (capturedTime s) (status s) (transcriptions s) (error s) (progress s)
    (copyButtonText s) (editableText s) (isCapturing s) (isCapturingFrame s)
    (isReWriting s) (isEditing s) (editPrompt s) (quickEditLoadingKey s)
    (isImagePreviewVisible s) (isReWritePopupOpen s)
    (isReWritingFromPopup s) (apiKeyInput s).

Definition setCapturedFrameUrl (v : option Url) (s : AppState) : AppState :=
  mkAppState (videoFile s) (externalImageFile s) (videoDuration s)
    (videoUrl s) v (editedFrameUrl s) (videoCurrentTime s) (capturedTime s)
    (status s) (transcriptions s) (error s) (progress s) (copyButtonText s)
    (editableText s) (isCapturing s) (isCapturingFrame s) (isReWriting s)
    (isEditing s) (editPrompt s) (quickEditLoadingKey s)
    (isImagePreviewVisible s) (isReWritePopupOpen s)
    (isReWritingFromPopup s) (apiKeyInput s).

Definition setEditedFrameUrl (v : option Url) (s : AppState) : AppState :=
  mkAppState (videoFile s) (externalImageFile s) (videoDuration s)
    (videoUrl s) (capturedFrameUrl s) v (videoCurrentTime s)
    (capturedTime s) (status s) (transcriptions s) (error s) (progress s)
    (copyButtonText s) (editableText s) (isCapturing s) (isCapturingFrame s)
    (isReWriting s) (isEditing s) (editPrompt s) (quickEditLoadingKey s)
    (isImagePreviewVisible s) (isReWritePopupOpen s)
    (isReWritingFromPopup s) (apiKeyInput s).

Definition setVideoCurrentTime (v : number) (s : AppState) : AppState :=
  mkAppState (videoFile s) (externalImageFile s) (videoDuration s)
    (videoUrl s) (capturedFrameUrl s) (editedFrameUrl s) v (capturedTime s)
    (status s) (transcriptions s) (error s) (progress s) (copyButtonText s)
    (editableText s) (isCapturing s) (isCapturingFrame s) (isReWriting s)
    (isEditing s) (editPrompt s) (quickEditLoadingKey s)
    (isImagePreviewVisible s) (isReWritePopupOpen s)
    (isReWritingFromPopup s) (apiKeyInput s).

Definition setCapturedTime (v : number) (s : AppState) : AppState :=
  mkAppState (videoFile s) (externalImageFile s) (videoDuration s)
    (videoUrl s) (capturedFrameUrl s) (editedFrameUrl s)
    (videoCurrentTime s) v (status s) (transcriptions s) (error s)
    (progress s) (copyButtonText s) (editableText s) (isCapturing s)
    (isCapturingFrame s) (isReWriting s) (isEditing s) (editPrompt s)
    (quickEditLoadingKey s) (isImagePreviewVisible s) (isReWritePopupOpen s)
    (isReWritingFromPopup s) (apiKeyInput s).

Definition setStatus (v : AppStatus) (s : AppState) : AppState :=
  mkAppState (videoFile s) (externalImageFile s) (videoDuration s)
    (videoUrl s) (capturedFrameUrl s) (editedFrameUrl s)
    (videoCurrentTime s) (capturedTime s) v (transcriptions s) (error s)
    (progress s) (copyButtonText s) (editableText s) (isCapturing s)
    (isCapturingFrame s) (isReWriting s) (isEditing s) (editPrompt s)
    (quickEditLoadingKey s) (isImagePreviewVisible s) (isReWritePopupOpen s)
    (isReWritingFromPopup s) (apiKeyInput s).

Definition setTranscriptions (v : list Transcription) (s : AppState) : AppState :=
  mkAppState (videoFile s) (externalImageFile s) (videoDuration s)
    (videoUrl s) (capturedFrameUrl s) (editedFrameUrl s)
    (videoCurrentTime s) (capturedTime s) (status s) v (error s)
    (progress s) (copyButtonText s) (editableText s) (isCapturing s)
    (isCapturingFrame s) (isReWriting s) (isEditing s) (editPrompt s)
    (quickEditLoadingKey s) (isImagePreviewVisible s) (isReWritePopupOpen s)
    (isReWritingFromPopup s) (apiKeyInput s).

Definition setError (v : option jsstring) (s : AppState) : AppState :=
  mkAppState (videoFile s) (externalImageFile s) (videoDuration s)
    (videoUrl s) (capturedFrameUrl s) (editedFrameUrl s)
    (videoCurrentTime s) (capturedTime s) (status s) (transcriptions s) v
    (progress s) (copyButtonText s) (editableText s) (isCapturing s)
    (isCapturingFrame s) (isReWriting s) (isEditing s) (editPrompt s)
    (quickEditLoadingKey s) (isImagePreviewVisible s) (isReWritePopupOpen s)
    (isReWritingFromPopup s) (apiKeyInput s).

Definition setProgress (v : Progress) (s : AppState) : AppState :=
  mkAppState (videoFile s) (externalImageFile s) (videoDuration s)
    (videoUrl s) (capturedFrameUrl s) (editedFrameUrl s)
    (videoCurrentTime s) (capturedTime s) (status s) (transcriptions s)
    (error s) v (copyButtonText s) (editableText s) (isCapturing s)
    (isCapturingFrame s) (isReWriting s) (isEditing s) (editPrompt s)
    (quickEditLoadingKey s) (isImagePreviewVisible s) (isReWritePopupOpen s)
    (isReWritingFromPopup s) (apiKeyInput s).

Definition setCopyButtonText (v : jsstring) (s : AppState) : AppState :=
  mkAppState (videoFile s) (externalImageFile s) (videoDuration s)
    (videoUrl s) (capturedFrameUrl s) (editedFrameUrl s)
    (videoCurrentTime s) (capturedTime s) (status s) (transcriptions s)
    (error s) (progress s) v (editableText s) (isCapturing s)
    (isCapturingFrame s) (isReWriting s) (isEditing s) (editPrompt s)
    (quickEditLoadingKey s) (isImagePreviewVisible s) (isReWritePopupOpen s)
    (isReWritingFromPopup s) (apiKeyInput s).

Definition setEditableText (v : jsstring) (s : AppState) : AppState :=
  mkAppState (videoFile s) (externalImageFile s) (videoDuration s)
    (videoUrl s) (capturedFrameUrl s) (editedFrameUrl s)
    (videoCurrentTime s) (capturedTime s) (status s) (transcriptions s)
    (error s) (progress s) (copyButtonText s) v (isCapturing s)
    (isCapturingFrame s) (isReWriting s) (isEditing s) (editPrompt s)
    (quickEditLoadingKey s) (isImagePreviewVisible s) (isReWritePopupOpen s)
    (isReWritingFromPopup s) (apiKeyInput s).

Definition setIsCapturing (v : bool) (s : AppState) : AppState :=
  mkAppState (videoFile s) (externalImageFile s) (videoDuration s)
    (videoUrl s) (capturedFrameUrl s) (editedFrameUrl s)
    (videoCurrentTime s) (capturedTime s) (status s) (transcriptions s)
    (error s) (progress s) (copyButtonText s) (editableText s) v
    (isCapturingFrame s) (isReWriting s) (isEditing s) (editPrompt s)
    (quickEditLoadingKey s) (isImagePreviewVisible s) (isReWritePopupOpen s)
    (isReWritingFromPopup s) (apiKeyInput s).

Definition setIsCapturingFrame (v : bool) (s : AppState) : AppState :=
  mkAppState (videoFile s) (externalImageFile s) (videoDuration s)
    (videoUrl s) (capturedFrameUrl s) (editedFrameUrl s)
    (videoCurrentTime s) (capturedTime s) (status s) (transcriptions s)
    (error s) (progress s) (copyButtonText s) (editableText s)
    (isCapturing s) v (isReWriting s) (isEditing s) (editPrompt s)
    (quickEditLoadingKey s) (isImagePreviewVisible s) (isReWritePopupOpen s)
    (isReWritingFromPopup s) (apiKeyInput s).

Definition setIsReWriting (v : bool) (s : AppState) : AppState :=
  mkAppState (videoFile s) (externalImageFile s) (videoDuration s)
    (videoUrl s) (capturedFrameUrl s) (editedFrameUrl s)
    (videoCurrentTime s) (capturedTime s) (status s) (transcriptions s)
    (error s) (progress s) (copyButtonText s) (editableText s)
    (isCapturing s) (isCapturingFrame s) v (isEditing s) (editPrompt s)
    (quickEditLoadingKey s) (isImagePreviewVisible s) (isReWritePopupOpen s)
    (isReWritingFromPopup s) (apiKeyInput s).

Definition setIsEditing (v : bool) (s : AppState) : AppState :=
  mkAppState (videoFile s) (externalImageFile s) (videoDuration s)
    (videoUrl s) (capturedFrameUrl s) (editedFrameUrl s)
    (videoCurrentTime s) (capturedTime s) (status s) (transcriptions s)
    (error s) (progress s) (copyButtonText s) (editableText s)
    (isCapturing s) (isCapturingFrame s) (isReWriting s) v (editPrompt s)
    (quickEditLoadingKey s) (isImagePreviewVisible s) (isReWritePopupOpen s)
    (isReWritingFromPopup s) (apiKeyInput s).

Definition setEditPrompt (v : jsstring) (s : AppState) : AppState :=
  mkAppState (videoFile s) (externalImageFile s) (videoDuration s)
    (videoUrl s) (capturedFrameUrl s) (editedFrameUrl s)
    (videoCurrentTime s) (capturedTime s) (status s) (transcriptions s)
    (error s) (progress s) (copyButtonText s) (editableText s)
    (isCapturing s) (isCapturingFrame s) (isReWriting s) (isEditing s) v
    (quickEditLoadingKey s) (isImagePreviewVisible s) (isReWritePopupOpen s)
    (isReWritingFromPopup s) (apiKeyInput s).

Definition setQuickEditLoadingKey (v : option QuickKey) (s : AppState) : AppState :=
  mkAppState (videoFile s) (externalImageFile s) (videoDuration s)
    (videoUrl s) (capturedFrameUrl s) (editedFrameUrl s)
    (videoCurrentTime s) (capturedTime s) (status s) (transcriptions s)
    (error s) (progress s) (copyButtonText s) (editableText s)
    (isCapturing s) (isCapturingFrame s) (isReWriting s) (isEditing s)
    (editPrompt s) v (isImagePreviewVisible s) (isReWritePopupOpen s)
    (isReWritingFromPopup s) (apiKeyInput s).

Definition setIsImagePreviewVisible (v : bool) (s : AppState) : AppState :=
  mkAppState (videoFile s) (externalImageFile s) (videoDuration s)
    (videoUrl s) (capturedFrameUrl s) (editedFrameUrl s)
    (videoCurrentTime s) (capturedTime s) (status s) (transcriptions s)
    (error s) (progress s) (copyButtonText s) (editableText s)
    (isCapturing s) (isCapturingFrame s) (isReWriting s) (isEditing s)
    (editPrompt s) (quickEditLoadingKey s) v (isReWritePopupOpen s)
    (isReWritingFromPopup s) (apiKeyInput s).

Definition setIsReWritePopupOpen (v : bool) (s : AppState) : AppState :=
  mkAppState (videoFile s) (externalImageFile s) (videoDuration s)
    (videoUrl s) (capturedFrameUrl s) (editedFrameUrl s)
    (videoCurrentTime s) (capturedTime s) (status s) (transcriptions s)
    (error s) (progress s) (copyButtonText s) (editableText s)
    (isCapturing s) (isCapturingFrame s) (isReWriting s) (isEditing s)
    (editPrompt s) (quickEditLoadingKey s) (isImagePreviewVisible s) v
    (isReWritingFromPopup s) (apiKeyInput s).

Definition setIsReWritingFromPopup (v : bool) (s : AppState) : AppState :=
  mkAppState (videoFile s) (externalImageFile s) (videoDuration s)
    (videoUrl s) (capturedFrameUrl s) (editedFrameUrl s)
    (videoCurrentTime s) (capturedTime s) (status s) (transcriptions s)
    (error s) (progress s) (copyButtonText s) (editableText s)
    (isCapturing s) (isCapturingFrame s) (isReWriting s) (isEditing s)
    (editPrompt s) (quickEditLoadingKey s) (isImagePreviewVisible s)
    (isReWritePopupOpen s) v (apiKeyInput s).

Definition setApiKeyInput (v : jsstring) (s : AppState) : AppState :=
  mkAppState (videoFile s) (externalImageFile s) (videoDuration s)
    (videoUrl s) (capturedFrameUrl s) (editedFrameUrl s)
    (videoCurrentTime s) (capturedTime s) (status s) (transcriptions s)
    (error s) (progress s) (copyButtonText s) (editableText s)
    (isCapturing s) (isCapturingFrame s) (isReWriting s) (isEditing s)
    (editPrompt s) (quickEditLoadingKey s) (isImagePreviewVisible s)
    (isReWritePopupOpen s) (isReWritingFromPopup s) v.

(* ================================================================== *)
(** * App.tsx: values derived at each render *)
(* ================================================================== *)

Notation "s |> f" := (f s) (at level 50, left associativity, only parsing).

Definition isSome {A : Type} (o : option A) : bool :=
  match o with Some _ => true | None => false end.

Fixpoint jsstring_eqb (a b : jsstring) : bool :=
  match a, b with
  | [], [] => true
  | x :: a', y :: b' => Ascii.eqb x y && jsstring_eqb a' b'
  | _, _ => false
  end.

Definition isAnyTaskRunning (s : AppState) : bool :=
  isCapturing s || isEditing s || isCapturingFrame s || isReWriting s
  || isReWritingFromPopup s.

Definition isPromptEditing (s : AppState) : bool :=
  isEditing s && negb (isSome (quickEditLoadingKey s)).

(** [formattedText]: the [useMemo] over [transcriptions], [status] and
    [videoDuration]. *)
Definition formattedText (transcriptions : list Transcription)
    (status : AppStatus) (videoDuration : option number) : jsstring :=
  if negb (AppStatus_eqb status Success) then []
  else
    let transcriptionLines :=
      join [newline]
           (map (fun item => tr_timestamp item ++ str " " ++ tr_text item)
                transcriptions) in
    let durationLine := str "clip length " ++ formatDuration videoDuration in
    if truthy transcriptionLines
    then transcriptionLines ++ [newline] ++ durationLine
    else durationLine.

Definition formattedText_of (s : AppState) : jsstring :=
  formattedText (transcriptions s) (status s) (videoDuration s).

(** The effect with dependencies [formattedText, status]: after a render in
    which one of them changed, the transcript box is filled when the status
    is 'success'. *)
Definition populateEditableText (before after : AppState) : AppState :=
  let changed :=
    negb (jsstring_eqb (formattedText_of before) (formattedText_of after))
    || negb (AppStatus_eqb (status before) (status after)) in
  if changed && AppStatus_eqb (status after) Success
  then setEditableText (formattedText_of after) after
  else after.

(** [editPrompt.trim()] is empty when every code unit is white space. *)
Definition is_space (c : ascii) : bool :=
  let n := nat_of_ascii c in
  ((9 <=? n)%nat && (n <=? 13)%nat) || (n =? 32)%nat || (n =? 160)%nat.

Definition blank (s : jsstring) : bool := forallb is_space s.

(** What is on the page. *)
Definition resultPanel (s : AppState) : bool :=
  AppStatus_eqb (status s) Success
  || (AppStatus_eqb (status s) Idle && isSome (videoFile s)).

(** [videoRef.current] and [textareaRef.current] are set exactly while their
    elements are rendered. *)
Definition videoRef (s : AppState) : bool :=
  resultPanel s && isSome (videoUrl s).

Definition textareaRef (s : AppState) : bool :=
  resultPanel s
  && (negb (List.length (transcriptions s) =? 0)%nat
      || truthy (editableText s)).

Definition previewPanel (s : AppState) : bool :=
  isImagePreviewVisible s && isSome (capturedFrameUrl s).

Inductive Button :=
| SendApiKeyBtn | CopyApiKeyBtn | ClearApiKeyBtn
| OpenImageBtn | UploadVideoBtn | AnalyzeBtn
| CaptureFrameBtn | CaptureTextBtn | ReWriteBtn
| SeekBtn (offset : Z) | InsertTimestampBtn
| OpenTxtBtn | CopyBtn | SaveTxtBtn
| PreviewOpenBtn | SavePreviewBtn | ReWriteToggleBtn
| ReWriteSizeBtn (size : Z)
| QuickEditBtn (key : QuickKey) | ManualBtn | ApplyEditBtn
| SaveEditedBtn | EditAgainBtn.

(** Whether the JSX renders the button in this state. *)
Definition rendered (s : AppState) (b : Button) : bool :=
  match b with
  | SendApiKeyBtn | CopyApiKeyBtn | ClearApiKeyBtn
  | OpenImageBtn | UploadVideoBtn => true
  | AnalyzeBtn => isSome (videoFile s)
  | CaptureFrameBtn | CaptureTextBtn | ReWriteBtn =>
      resultPanel s && isSome (videoUrl s)
  | SeekBtn _ | InsertTimestampBtn | OpenTxtBtn | CopyBtn | SaveTxtBtn =>
      resultPanel s
  | PreviewOpenBtn | SavePreviewBtn | ReWriteToggleBtn
  | QuickEditBtn _ | ManualBtn | ApplyEditBtn => previewPanel s
  | ReWriteSizeBtn size =>
      previewPanel s && isReWritePopupOpen s
      && existsb (Z.eqb size) REWRITE_SIZES
  | SaveEditedBtn | EditAgainBtn =>
      previewPanel s && isSome (editedFrameUrl s)
  end.

(** The [disabled] attribute of the button. *)
Definition disabled (s : AppState) (b : Button) : bool :=
  match b with
  | AnalyzeBtn => AppStatus_eqb (status s) Processing
  | OpenImageBtn | CaptureFrameBtn | CaptureTextBtn | ReWriteBtn
  | PreviewOpenBtn | SavePreviewBtn | ReWriteToggleBtn
  | QuickEditBtn _ | ManualBtn => isAnyTaskRunning s
  | ApplyEditBtn => blank (editPrompt s) || isAnyTaskRunning s
  | _ => false
  end.

(** A click reaches the handler of a button that is on the page and not
    disabled. *)
Definition clickable (s : AppState) (b : Button) : bool :=
  rendered s b && negb (disabled s b).

(** What a handler reads from the page when it runs. *)
Record Dom := mkDom {
  dom_context : bool;        (* canvas.getContext('2d') answers a context *)
  dom_currentTime : number;  (* video.currentTime *)
  dom_frame : jsstring;      (* base64 payload of canvas.toDataURL *)
  dom_selectionStart : Z;    (* textarea.selectionStart *)
  dom_selectionEnd : Z       (* textarea.selectionEnd *)
}.

(** The points at which a handler is suspended, waiting for the
    environment. *)
Inductive Awaited :=
| AwApiKeyClipboard
| AwMetadata | AwTextFile | AwAnalysis | AwClipboard | AwCopyTimeout
| AwFrameBlob | AwCaptureTextAi
| AwReWriteBlob | AwReWriteEncode | AwReWriteAi
| AwEditLoad | AwEditAi | AwPopupLoad | AwPopupAi | AwEditAgainFetch.

Inductive Artifact :=
| TranscriptFile | FrameImage | TextImage | ReWriteImage
| PreviewImage | EditedImage.

Inductive FileDialog := VideoDialog | ImageDialog | TextDialog.

(** What a step does outside the state of the component.  File names of the
    downloads and the revocation of object URLs are left out. *)
Inductive Effect :=
| AiCall (request : AiRequest)
| StartAnalysis
| Await (what : Awaited)
| Download (what : Artifact)
| OpenDialog (which : FileDialog)
| ClipboardWrite (content : jsstring)
| StoreApiKey (key : jsstring)
| RemoveApiKey
| Alert (notice : jsstring)
| SeekVideo (offset : Z)
| FocusAt (position : Z)
| UnhandledRejection (reason : jsstring).

Definition Outcome : Type := AppState * list Effect.

Definition unchanged (s : AppState) : Outcome := (s, []).

(* ================================================================== *)
(** * App.tsx: the handlers *)
(* ================================================================== *)

(** ** API key bar *)

Definition no_api_key : jsstring := str "no API key".

(** The mount effect; [storedKey] is [localStorage.getItem('user_api_key')],
    [envKey] is [process.env.API_KEY]. *)
Definition initApiKey (storedKey envKey : option jsstring) (s : AppState)
  : Outcome :=
  let fromEnv :=
    match envKey with
    | Some k =>
        if truthy k && negb (jsstring_eqb k (str "undefined"))
        then k else no_api_key
    | None => no_api_key
    end in
  let initialKey :=
    match storedKey with
    | Some k => if truthy k then k else fromEnv
    | None => fromEnv
    end in
  (s |> setApiKeyInput initialKey, []).

Definition handleSendApiKey (s : AppState) : Outcome :=
  if truthy (apiKeyInput s)
     && negb (jsstring_eqb (apiKeyInput s) no_api_key)
  then (s, [StoreApiKey (apiKeyInput s);
            Alert (str "API Key updated and saved to localStorage")])
  else unchanged s.

Definition handleCopyApiKey (s : AppState) : Outcome :=
  (s, [ClipboardWrite (apiKeyInput s); Await AwApiKeyClipboard]).

(** The [then] of that clipboard promise; a rejected write has no
    handler. *)
Definition apiKeyClipboardSettled (written : bool) (s : AppState)
  : Outcome :=
  if written then (s, [Alert (str "API Key copied to clipboard")])
  else (s, [UnhandledRejection []]).

Definition handleClearApiKey (s : AppState) : Outcome :=
  (s |> setApiKeyInput no_api_key, [RemoveApiKey]).

(** ** Files *)

Definition handleFileChange (file : option File) (newUrl : Url)
    (s : AppState) : Outcome :=
  match file with
  | None => unchanged s
  | Some f =>
      (s |> setVideoUrl (Some newUrl)
         |> setVideoFile (Some f)
         |> setStatus Idle
         |> setTranscriptions []
         |> setError None
         |> setVideoDuration None
         |> setVideoCurrentTime (Num 0)
         |> setEditableText []
         |> setCapturedFrameUrl None
         |> setEditedFrameUrl None
         |> setEditPrompt []
         |> setExternalImageFile None
         |> setIsImagePreviewVisible false,
       [Await AwMetadata])
  end.

(** [video.onloadedmetadata] and [video.onerror] of the probe element. *)
Definition onloadedmetadata (duration : number) (s : AppState) : Outcome :=
  (s |> setVideoDuration (Some duration), []).

Definition onMetadataError (s : AppState) : Outcome :=
  (s |> setError (Some (str "Could not read video metadata."))
     |> setVideoDuration None, []).

Definition handleImageFileChange (file : option File) (newUrl : Url)
    (s : AppState) : Outcome :=
  match file with
  | None => unchanged s
  | Some f =>
      (s |> setCapturedFrameUrl (Some newUrl)
         |> setEditedFrameUrl None
         |> setCapturedTime (Num 0)
         |> setExternalImageFile (Some f)
         |> setEditPrompt []
         |> setIsImagePreviewVisible true, [])
  end.

Definition handleTextFileChange (file : option File) (s : AppState)
  : Outcome :=
  match file with
  | None => unchanged s
  | Some _ => (s, [Await AwTextFile])
  end.

(** [reader.onload] and [reader.onerror]. *)
Definition onTextLoad (content : jsstring) (s : AppState) : Outcome :=
  (s |> setEditableText content, []).

Definition onTextError (s : AppState) : Outcome :=
  (s |> setError (Some (str "Failed to read the selected text file."))
     |> setStatus Error, []).

(** ** Analysis *)

(** [handleAnalyzeClick] up to its [await]: the call of
    [analyzeVideoForText] reports its first progress before it is
    suspended. *)
Definition handleAnalyzeClick (s : AppState) : Outcome :=
  match videoFile s with
  | None => unchanged s
  | Some _ =>
      (s |> setStatus Processing
         |> setError None
         |> setTranscriptions []
         |> setEditableText []
         |> setProgress (mkProgress (str "Starting analysis...") None)
         |> setProgress (mkProgress (str "Extracting frames from video...")
                                    (Some (Num 0))),
       [StartAnalysis; Await AwAnalysis])
  end.

Definition onAnalysisProgress (msg : jsstring) (pct : option number)
    (s : AppState) : Outcome :=
  (s |> setProgress (mkProgress msg pct), []).

(** The rest of [handleAnalyzeClick], once [analyzeVideoForText] has
    settled. *)
Definition analysisSettled (outcome : Settled (list Transcription))
    (s : AppState) : Outcome :=
  match outcome with
  | Resolved results =>
      (s |> setTranscriptions results |> setStatus Success, [])
  | Rejected msg =>
      (s |> setError
              (Some (or_else msg
                       (str "An unknown error occurred during analysis.")))
         |> setStatus Error, [])
  end.

(** ** Transcript tool bar *)

Definition handleCopy (s : AppState) : Outcome :=
  if truthy (editableText s)
  then (s, [ClipboardWrite (editableText s); Await AwClipboard])
  else unchanged s.

(** The [then] of the clipboard promise of [handleCopy]; a rejected write
    has no handler. *)
Definition clipboardSettled (written : bool) (s : AppState) : Outcome :=
  if written
  then (s |> setCopyButtonText (str "Copied!"), [Await AwCopyTimeout])
  else (s, [UnhandledRejection []]).

Definition copyTimeout (s : AppState) : Outcome :=
  (s |> setCopyButtonText (str "Copy"), []).

Definition handleSave (s : AppState) : Outcome :=
  if negb (isSome (videoFile s)) || negb (truthy (editableText s))
  then unchanged s
  else (s, [Download TranscriptFile]).

Definition handleSeek (offset : Z) (s : AppState) : Outcome :=
  if videoRef s then (s, [SeekVideo offset]) else unchanged s.

(** [/^\d{2}:\d{2}/.test(line)] and [line.replace(/^\d{2}:\d{2}/, by)];
    [by] is an output of [formatDuration] and holds no dollar sign (lemma
    [formatDuration_one_line]), so it is taken literally. *)
Definition timestampRegex_test (line : jsstring) : bool :=
  match line with
  | d1 :: d2 :: c :: d3 :: d4 :: _ =>
      is_digit d1 && is_digit d2 && Ascii.eqb c ":"%char
      && is_digit d3 && is_digit d4
  | _ => false
  end.

Definition timestampRegex_replace (line by_ : jsstring) : jsstring :=
  if timestampRegex_test line then by_ ++ skipn 5 line else line.

Definition handleInsertTimestamp (dom : Dom) (s : AppState) : Outcome :=
  if negb (textareaRef s) then unchanged s
  else
    let cursorPosition := dom_selectionStart dom in
    let text := editableText s in
    let timeToInsert := formatDuration (Some (videoCurrentTime s)) in
    let lineStartIndex :=
      lastIndexOf newline (cursorPosition - 1) text + 1 in
    let lineEndIndex :=
      let found := indexOf newline cursorPosition text in
      if found =? -1 then len text else found in
    let currentLine := substring lineStartIndex lineEndIndex text in
    if timestampRegex_test currentLine then
      let newLine := timestampRegex_replace currentLine timeToInsert in
      let newText :=
        substring 0 lineStartIndex text ++ newLine
        ++ substring_from lineEndIndex text in
      (s |> setEditableText newText,
       [FocusAt (lineStartIndex + len timeToInsert)])
    else
      let start := dom_selectionStart dom in
      let end_ := dom_selectionEnd dom in
      let newText :=
        substring 0 start text ++ timeToInsert
        ++ substring_from end_ text in
      (s |> setEditableText newText, [FocusAt (start + len timeToInsert)]).

(** ** Frame capture *)

(** [catch (err) { setError(err.message || fallback) }]. *)
Definition caught (msg fallback : jsstring) (s : AppState) : AppState :=
  s |> setError (Some (or_else msg fallback)).

Definition handleCaptureFrame (dom : Dom) (s : AppState) : Outcome :=
  if negb (videoRef s) || negb (isSome (videoFile s)) then unchanged s
  else
    let s1 := s |> setIsCapturingFrame true in
    if negb (dom_context dom)
    then (s1 |> setIsCapturingFrame false, [])
    else (s1, [Await AwFrameBlob]).

(** The callback of [canvas.toBlob] in [handleCaptureFrame]; [blob] is the
    object URL made for the blob, [None] when the canvas gave no blob. *)
Definition frameBlob (blob : option Url) (currentTime : number)
    (s : AppState) : Outcome :=
  match blob with
  | None => (s |> setIsCapturingFrame false, [])
  | Some url =>
      (s |> setCapturedTime currentTime
         |> setCapturedFrameUrl (Some url)
         |> setIsImagePreviewVisible true
         |> setEditedFrameUrl None
         |> setExternalImageFile None
         |> setIsCapturingFrame false,
       [Download FrameImage])
  end.

Definition captureText_fallback : jsstring :=
  str "An error occurred while capturing the text frame.".

(** [handleCaptureText] up to its first [await]. *)
Definition handleCaptureText (dom : Dom) (s : AppState) : Outcome :=
  if negb (videoRef s) || negb (isSome (videoFile s)) || isCapturing s
  then unchanged s
  else
    let s1 := s |> setIsCapturing true |> setError None in
    if negb (dom_context dom)
    then (* throw new Error("Could not get canvas context") *)
      (s1 |> caught (str "Could not get canvas context")
                    captureText_fallback
          |> setIsCapturing false, [])
    else
      (s1 |> setCapturedTime (dom_currentTime dom),
       [AiCall (processFrame_request (dom_frame dom));
        Await AwCaptureTextAi]).

(** The rest of [handleCaptureText]: [answer] is how the call to the AI
    service ended, [fetched] how turning the payload into a blob and an
    object URL ended. *)
Definition captureTextSettled (answer : Settled GenerateContentResponse)
    (fetched : Settled Url) (s : AppState) : Outcome :=
  let failed msg :=
    (s |> caught msg captureText_fallback |> setIsCapturing false, []) in
  match processFrameForTextExtraction answer with
  | Rejected msg => failed msg
  | Resolved _ =>
      match fetched with
      | Rejected msg => failed msg
      | Resolved url =>
          (s |> setCapturedFrameUrl (Some url)
             |> setIsImagePreviewVisible true
             |> setEditedFrameUrl None
             |> setExternalImageFile None
             |> setIsCapturing false,
           [Download TextImage])
      end
  end.

Definition reWrite_fallback : jsstring :=
  str "An error occurred during the re-write process.".

(** [handleReWriteFrame] up to its first [await]. *)
Definition handleReWriteFrame (dom : Dom) (s : AppState) : Outcome :=
  if negb (videoRef s) || negb (isSome (videoFile s)) || isAnyTaskRunning s
  then unchanged s
  else
    let s1 := s |> setIsReWriting true |> setError None in
    if negb (dom_context dom)
    then
      (s1 |> caught (str "Could not get canvas context") reWrite_fallback
          |> setIsReWriting false, [])
    else (s1, [Await AwReWriteBlob]).

(** After [canvas.toBlob]: the captured frame goes to the preview. *)
Definition reWriteBlob (blob : option Url) (currentTime : number)
    (s : AppState) : Outcome :=
  match blob with
  | None =>
      (s |> caught (str "Failed to create blob from canvas.")
                   reWrite_fallback
         |> setIsReWriting false, [])
  | Some capturedUrl =>
      (s |> setCapturedFrameUrl (Some capturedUrl)
         |> setCapturedTime currentTime
         |> setIsImagePreviewVisible true
         |> setExternalImageFile None
         |> setEditedFrameUrl None,
       [Await AwReWriteEncode])
  end.

(** After [blobToBase64]: the request goes out. *)
Definition reWriteEncoded (encoded : Settled jsstring) (s : AppState)
  : Outcome :=
  match encoded with
  | Rejected msg =>
      (s |> caught msg reWrite_fallback |> setIsReWriting false, [])
  | Resolved base64Data =>
      (s, [AiCall (editImage_request base64Data (str "image/png")
                                     ReWritePrompt);
           Await AwReWriteAi])
  end.

(** The rest of [handleReWriteFrame]. *)
Definition reWriteSettled (answer : Settled GenerateContentResponse)
    (fetched : Settled Url) (s : AppState) : Outcome :=
  let failed msg :=
    (s |> caught msg reWrite_fallback |> setIsReWriting false, []) in
  match editImage answer with
  | Rejected msg => failed msg
  | Resolved _ =>
      match fetched with
      | Rejected msg => failed msg
      | Resolved newUrl =>
          (s |> setEditedFrameUrl (Some newUrl) |> setIsReWriting false,
           [Download ReWriteImage])
      end
  end.

(** ** Image edits *)

(** Where a run of [performImageEdit] came from: [handleEditImage] with the
    prompt typed by the user, or [handleQuickEdit] with a preset. *)
Inductive EditOrigin :=
| ManualEdit (prompt : jsstring)
| QuickEdit (key : QuickKey).

Definition prompt_of (origin : EditOrigin) : Prompt :=
  match origin with
  | ManualEdit prompt => UserPrompt prompt
  | QuickEdit key => QuickEditPrompt key
  end.

Definition edit_fallback : jsstring :=
  str "An error occurred while editing the image.".

(** [performImageEdit] up to its first [await]. *)
Definition performImageEdit (s : AppState) : Outcome :=
  (s |> setIsEditing true |> setError None, [Await AwEditLoad]).

Definition handleEditImage (s : AppState) : Outcome :=
  if negb (isSome (capturedFrameUrl s)) || blank (editPrompt s)
     || isEditing s
  then unchanged s
  else performImageEdit s.

Definition handleQuickEdit (key : QuickKey) (s : AppState) : Outcome :=
  if negb (isSome (capturedFrameUrl s)) || isEditing s
  then unchanged s
  else performImageEdit (s |> setQuickEditLoadingKey (Some key)).

(** The [finally] of [performImageEdit], followed by what its caller does
    once it has returned: [handleEditImage] empties the prompt. *)
Definition editFinished (origin : EditOrigin) (s : AppState) : AppState :=
  let s1 := s |> setIsEditing false |> setQuickEditLoadingKey None in
  match origin with
  | ManualEdit _ => s1 |> setEditPrompt []
  | QuickEdit _ => s1
  end.

(** After the preview image has been fetched and encoded: the request goes
    out with the image and its media type. *)
Definition editLoaded (origin : EditOrigin)
    (loaded : Settled (jsstring * jsstring)) (s : AppState) : Outcome :=
  match loaded with
  | Rejected msg =>
      (s |> caught msg edit_fallback |> editFinished origin, [])
  | Resolved (base64Data, mime) =>
      (s, [AiCall (editImage_request base64Data mime (prompt_of origin));
           Await AwEditAi])
  end.

(** The rest of [performImageEdit]. *)
Definition editSettled (origin : EditOrigin)
    (answer : Settled GenerateContentResponse) (fetched : Settled Url)
    (s : AppState) : Outcome :=
  let failed msg :=
    (s |> caught msg edit_fallback |> editFinished origin, []) in
  match editImage answer with
  | Rejected msg => failed msg
  | Resolved _ =>
      match fetched with
      | Rejected msg => failed msg
      | Resolved newUrl =>
          (s |> setEditedFrameUrl (Some newUrl) |> editFinished origin, [])
      end
  end.

Definition popup_fallback : jsstring :=
  str "An error occurred while re-writing the image.".

(** [handleReWriteFromPopup] up to its first [await]. *)
Definition handleReWriteFromPopup (s : AppState) : Outcome :=
  if negb (isSome (capturedFrameUrl s)) || isAnyTaskRunning s
  then unchanged s
  else
    (s |> setIsReWritePopupOpen false
       |> setIsReWritingFromPopup true
       |> setError None,
     [Await AwPopupLoad]).

Definition popupLoaded (size : Z) (loaded : Settled (jsstring * jsstring))
    (s : AppState) : Outcome :=
  match loaded with
  | Rejected msg =>
      (s |> caught msg popup_fallback |> setIsReWritingFromPopup false, [])
  | Resolved (base64Data, mime) =>
      (s, [AiCall (editImage_request base64Data mime
                                     (ReWriteSizePrompt size));
           Await AwPopupAi])
  end.

Definition popupSettled (answer : Settled GenerateContentResponse)
    (fetched : Settled Url) (s : AppState) : Outcome :=
  let failed msg :=
    (s |> caught msg popup_fallback |> setIsReWritingFromPopup false, []) in
  match editImage answer with
  | Rejected msg => failed msg
  | Resolved _ =>
      match fetched with
      | Rejected msg => failed msg
      | Resolved newUrl =>
          (s |> setEditedFrameUrl (Some newUrl)
             |> setIsReWritingFromPopup false, [])
      end
  end.

(** ** Preview panel *)

Definition handleSavePreviewImage (s : AppState) : Outcome :=
  if isSome (capturedFrameUrl s) then (s, [Download PreviewImage])
  else unchanged s.

Definition handleSaveEditedImage (s : AppState) : Outcome :=
  if isSome (editedFrameUrl s) then (s, [Download EditedImage])
  else unchanged s.

(** [handleEditAgain] up to its [await]; the fetch is not inside a [try]. *)
Definition handleEditAgain (s : AppState) : Outcome :=
  if isSome (editedFrameUrl s) then (s, [Await AwEditAgainFetch])
  else unchanged s.

Definition editAgainFetched (fetched : Settled Url) (s : AppState)
  : Outcome :=
  match fetched with
  | Rejected msg => (s, [UnhandledRejection msg])
  | Resolved newPreviewUrl =>
      (s |> setCapturedFrameUrl (Some newPreviewUrl)
         |> setEditedFrameUrl None, [])
  end.

(** The preset of the Manual button is a fixed sentence in Thai asking for a
    green background and white outlined text; its code units lie outside
    [ascii], and a placeholder stands for it. *)
Definition manualPrompt : jsstring := str "(manual preset)".

Definition handleManualPrompt (s : AppState) : Outcome :=
  (s |> setEditPrompt manualPrompt, []).

Definition togglePopup (s : AppState) : Outcome :=
  (s |> setIsReWritePopupOpen (negb (isReWritePopupOpen s)), []).

(** The document-wide [mousedown] listener; the popup container exists
    while the preview panel is rendered. *)
Definition handleClickOutside (insidePopup : bool) (s : AppState)
  : Outcome :=
  if previewPanel s && negb insidePopup
  then (s |> setIsReWritePopupOpen false, [])
  else unchanged s.

(* ================================================================== *)
(** * App.tsx: the component as a transition system *)
(* ================================================================== *)

(** Everything that can run code of the component: the mount, a click on a
    button, an input event, or the arrival of a result that a handler was
    waiting for. *)
Inductive Event :=
| Mount (storedKey envKey : option jsstring)
| Click (b : Button) (dom : Dom)
| MouseDown (insidePopup : bool)
| ChangeApiKeyInput (value : jsstring)
| ChangeEditableText (value : jsstring)
| ChangeEditPrompt (value : jsstring)
| TimeUpdate (currentTime : number)
| VideoFileChange (file : option File) (newUrl : Url)
| ImageFileChange (file : option File) (newUrl : Url)
| TextFileChange (file : option File)
| MetadataLoaded (duration : number)
| MetadataError
| TextLoaded (content : jsstring)
| TextError
| AnalysisProgress (msg : jsstring) (pct : option number)
| AnalysisSettled (outcome : Settled (list Transcription))
| ApiKeyClipboardSettled (written : bool)
| ClipboardSettled (written : bool)
| CopyTimeout
| FrameBlob (blob : option Url) (currentTime : number)
| CaptureTextSettled (answer : Settled GenerateContentResponse)
                     (fetched : Settled Url)
| ReWriteBlob (blob : option Url) (currentTime : number)
| ReWriteEncoded (encoded : Settled jsstring)
| ReWriteSettled (answer : Settled GenerateContentResponse)
                 (fetched : Settled Url)
| EditLoaded (origin : EditOrigin) (loaded : Settled (jsstring * jsstring))
| EditSettled (origin : EditOrigin)
              (answer : Settled GenerateContentResponse)
              (fetched : Settled Url)
| PopupLoaded (size : Z) (loaded : Settled (jsstring * jsstring))
| PopupSettled (answer : Settled GenerateContentResponse)
               (fetched : Settled Url)
| EditAgainFetched (fetched : Settled Url).

(** The [onClick] of each button. *)
Definition onClick (b : Button) (dom : Dom) (s : AppState) : Outcome :=
  match b with
  | SendApiKeyBtn => handleSendApiKey s
  | CopyApiKeyBtn => handleCopyApiKey s
  | ClearApiKeyBtn => handleClearApiKey s
  | OpenImageBtn | PreviewOpenBtn => (s, [OpenDialog ImageDialog])
  | UploadVideoBtn => (s, [OpenDialog VideoDialog])
  | OpenTxtBtn => (s, [OpenDialog TextDialog])
  | AnalyzeBtn => handleAnalyzeClick s
  | CaptureFrameBtn => handleCaptureFrame dom s
  | CaptureTextBtn => handleCaptureText dom s
  | ReWriteBtn => handleReWriteFrame dom s
  | SeekBtn offset => handleSeek offset s
  | InsertTimestampBtn => handleInsertTimestamp dom s
  | CopyBtn => handleCopy s
  | SaveTxtBtn => handleSave s
  | SavePreviewBtn => handleSavePreviewImage s
  | ReWriteToggleBtn => togglePopup s
  | ReWriteSizeBtn _ => handleReWriteFromPopup s
  | QuickEditBtn key => handleQuickEdit key s
  | ManualBtn => handleManualPrompt s
  | ApplyEditBtn => handleEditImage s
  | SaveEditedBtn => handleSaveEditedImage s
  | EditAgainBtn => handleEditAgain s
  end.

(** The handler an event runs. *)
Definition handle (e : Event) (s : AppState) : Outcome :=
  match e with
  | Mount storedKey envKey => initApiKey storedKey envKey s
  | Click b dom => if clickable s b then onClick b dom s else unchanged s
  | MouseDown insidePopup => handleClickOutside insidePopup s
  | ChangeApiKeyInput value => (s |> setApiKeyInput value, [])
  | ChangeEditableText value =>
      if textareaRef s then (s |> setEditableText value, [])
      else unchanged s
  | ChangeEditPrompt value =>
      if previewPanel s && negb (isAnyTaskRunning s)
      then (s |> setEditPrompt value, [])
      else unchanged s
  | TimeUpdate currentTime =>
      if videoRef s then (s |> setVideoCurrentTime currentTime, [])
      else unchanged s
  | VideoFileChange file newUrl => handleFileChange file newUrl s
  | ImageFileChange file newUrl => handleImageFileChange file newUrl s
  | TextFileChange file => handleTextFileChange file s
  | MetadataLoaded duration => onloadedmetadata duration s
  | MetadataError => onMetadataError s
  | TextLoaded content => onTextLoad content s
  | TextError => onTextError s
  | AnalysisProgress msg pct => onAnalysisProgress msg pct s
  | AnalysisSettled outcome => analysisSettled outcome s
  | ApiKeyClipboardSettled written => apiKeyClipboardSettled written s
  | ClipboardSettled written => clipboardSettled written s
  | CopyTimeout => copyTimeout s
  | FrameBlob blob currentTime => frameBlob blob currentTime s
  | CaptureTextSettled answer fetched => captureTextSettled answer fetched s
  | ReWriteBlob blob currentTime => reWriteBlob blob currentTime s
  | ReWriteEncoded encoded => reWriteEncoded encoded s
  | ReWriteSettled answer fetched => reWriteSettled answer fetched s
  | EditLoaded origin loaded => editLoaded origin loaded s
  | EditSettled origin answer fetched => editSettled origin answer fetched s
  | PopupLoaded size loaded => popupLoaded size loaded s
  | PopupSettled answer fetched => popupSettled answer fetched s
  | EditAgainFetched fetched => editAgainFetched fetched s
  end.

(** One step: the handler runs, the component renders again, and the effect
    that fills the transcript box runs. *)
Definition step (s : AppState) (e : Event) : Outcome :=
  let (s', effects) := handle e s in
  (populateEditableText s s', effects).

(** A sequence of events, with the effects in order. *)
Fixpoint run (s : AppState) (events : list Event) : Outcome :=
  match events with
  | [] => (s, [])
  | e :: rest =>
      let (s1, effects1) := step s e in
      let (s2, effects2) := run s1 rest in
      (s2, effects1 ++ effects2)
  end.

(** The states the component can be in: those a sequence of events leads
    to from the initial one. *)
Definition reachable (s : AppState) : Prop :=
  exists events, fst (run initialState events) = s.

(* ================================================================== *)
(** * App.tsx: file names, the player and the file reader *)
(* ================================================================== *)

(** [s.replace(pattern, by)] for a pattern string of one code unit: the
    first occurrence is replaced; [by] holds no dollar sign. *)
Fixpoint replace_first (pattern : ascii) (by_ s : jsstring) : jsstring :=
  match s with
  | [] => []
  | x :: rest =>
      if Ascii.eqb x pattern then by_ ++ rest
      else x :: replace_first pattern by_ rest
  end.

(** [s.split(separator)] for a separator of one code unit. *)
Fixpoint split_on (separator : ascii) (s : jsstring) : list jsstring :=
  match s with
  | [] => [[]]
  | x :: rest =>
      if Ascii.eqb x separator then [] :: split_on separator rest
      else match split_on separator rest with
           | piece :: pieces => (x :: piece) :: pieces
           | [] => [[x]]
           end
  end.

(** [blobToBase64], from the data URL the reader ends with:
    [result.split(',')[1]], which is [undefined] ([None]) when the URL holds
    no comma. *)
Definition blobToBase64 (result : jsstring) : option jsstring :=
  nth_error (split_on ","%char result) 1.

(** [name.replace(/\.[^/.]+$/, empty)]: the match starts at a dot after
    which the name runs to its end through one unit or more, none of them a
    dot or a slash; such a dot can only be the last one. *)
Definition baseName (name : jsstring) : jsstring :=
  match last_index_in "."%char name with
  | Some i =>
      let extension := skipn (S i) name in
      if truthy extension
         && forallb (fun c => negb (Ascii.eqb c "/"%char)) extension
      then firstn i name
      else name
  | None => name
  end.

(** [handleSave]: the name of the transcript file. *)
Definition durationStringForFileName (videoDuration : option number)
  : jsstring :=
  replace_first ":"%char (str "_") (formatDuration videoDuration).

Definition transcriptFileName (videoFileName : jsstring)
    (videoDuration : option number) : jsstring :=
  str "video script with timestamp - " ++ baseName videoFileName
  ++ str " - " ++ durationStringForFileName videoDuration ++ str ".txt".

(** [handleSeek]: the position assigned to the player, from its position,
    its duration and the offset of the button.  The sum is a sum of
    doubles.  [video.duration || Infinity] is infinite when the duration
    is NaN or 0, and the minimum with infinity is the other number. *)
Definition seekTarget (currentTime : Q) (duration : Duration) (offset : Z)
  : Q :=
  let newTime := binary64 (currentTime + inject_Z offset) in
  let bounded :=
    match duration with
    | Finite d => if Qeq_bool d 0 then newTime else Qmin d newTime
    | Infinite | Unknown => newTime
    end in
  Qmax 0 bounded.

(** The panel "Analysis Failed", the only place where the error message is
    put on the page. *)
Definition errorPanel (s : AppState) : bool :=
  AppStatus_eqb (status s) Error.

(* ================================================================== *)
(** * Vocabulary of the properties *)
(* ================================================================== *)

(** The definitions below are not part of the program: they name what the
    properties speak about (sampling positions, the parts of a response,
    the line around a cursor, the ending of an operation) and fix the
    concrete sessions the properties are instantiated on. *)

(** The code units a formatted time is made of: digits, the colon, and the
    minus sign of a negative field. *)
Definition plain_unit (c : ascii) : bool :=
  is_digit c || Ascii.eqb c "-"%char || Ascii.eqb c ":"%char.

(** The cursor values of [m] consecutive rounds of the loop, from [c] on. *)
Fixpoint cursors (c : Z) (m : nat) : list Z :=
  match m with
  | O => []
  | S m' => c :: cursors (c + FRAME_EXTRACTION_INTERVAL) m'
  end.

(** The frame pushed by [onseeked] for a cursor value. *)
Definition frame_at (video : VideoElement) (c : Z) : VideoFrame :=
  match ve_seek video c with
  | Some position =>
      mkVideoFrame (Math_round position) (ve_picture video position)
  | None => mkVideoFrame 0 []
  end.

(** The number of sampling positions of a duration: the cursors 0, 2, ...
    up to the duration. *)
Definition sample_count (duration : Q) : nat :=
  Z.to_nat (Qfloor duration / 2 + 1).

(** A five-second video that seeks exactly. *)
Definition five_seconds : VideoElement :=
  mkVideoElement (Finite 5) (fun c => Some (inject_Z c))
                 (fun _ => str "jpeg").

(** A recording without a length in its header: the element reports an
    infinite duration, and its seeks settle. *)
Definition endless_recording : VideoElement :=
  mkVideoElement Infinite (fun c => Some (inject_Z c))
                 (fun _ => str "jpeg").

(** A part carries inline image data when it has inline data whose media
    type starts with "image/". *)
Definition image_part (p : Part) : bool :=
  match inlineData p with
  | Some d => startsWith (str "image/") (mimeType d)
  | None => false
  end.

Definition payload_of (p : Part) : jsstring :=
  match inlineData p with
  | Some d => data d
  | None => []
  end.

(** The parts of a response, as the program reads them: those of the
    content of its first candidate; none when the candidates, the content
    or the parts are absent. *)
Definition response_parts (response : GenerateContentResponse)
  : list Part :=
  match candidates response with
  | Some (first :: _) =>
      match content first with
      | Some c => match parts c with Some ps => ps | None => [] end
      | None => []
      end
  | _ => []
  end.

(** A response whose first part is text and whose second part is a PNG. *)
Definition text_then_image : GenerateContentResponse :=
  mkResponse
    (Some [mkCandidate
             (Some (mkContent
                      (Some [mkPart None (Some (str "here it is"));
                             mkPart (Some (mkInlineData (str "image/png")
                                                        (str "iVBOR")))
                                    None])))]).

Definition no_frames_message : jsstring :=
  str "Could not extract any frames from the video.".

Definition image_parts_of (frames : list VideoFrame) : list InlineData :=
  map (fun frame => mkInlineData (str "image/jpeg") (vf_imageData frame))
      frames.

(** A duration below zero is the only way for the loop to end before its
    first round. *)
Definition no_picture : VideoElement :=
  mkVideoElement (Finite (-1)) (fun c => Some (inject_Z c)) (fun _ => []).

Definition entry_line (item : Transcription) : jsstring :=
  tr_timestamp item ++ str " " ++ tr_text item.

Definition clip_length_line (videoDuration : option number) : jsstring :=
  str "clip length " ++ formatDuration videoDuration.

(** The AI service of the scenario answers every request with the same two
    raw results. *)
Definition hello_world (_ : AiRequest) : BatchAnswer :=
  Parsed [mkRawResult (Num (inject_Z 0)) (str "HELLO");
          mkRawResult (Num (inject_Z 4)) (str "WORLD")].

(** A video of 130 seconds that seeks exactly; its pictures are left
    open. *)
Definition clip130 (picture : Q -> jsstring) : VideoElement :=
  mkVideoElement (Finite (inject_Z 130)) (fun c => Some (inject_Z c))
                 picture.

(** The sampling positions of the 130 seconds, the frames taken there, and
    the events that lead to the page on which Analyze is clicked. *)
Definition cursors130 : list Z := cursors 0 66.

Definition frames130 (picture : Q -> jsstring) : list VideoFrame :=
  map (fun c => mkVideoFrame c (picture (inject_Z c))) cursors130.

Definition before_analysis (file : File) (newUrl : Url) : list Event :=
  [Mount None None;
   VideoFileChange (Some file) newUrl;
   MetadataLoaded (Num (inject_Z 130))].

(** The events of one session: the page is mounted, the file is chosen, its
    metadata arrive, Analyze is clicked, the analysis reports its progress
    and settles. *)
Definition session (file : File) (newUrl : Url) (dom : Dom)
    (analysis : AnalysisRun) : list Event :=
  [Mount None None;
   VideoFileChange (Some file) newUrl;
   MetadataLoaded (Num (inject_Z 130));
   Click AnalyzeBtn dom]
  ++ map (fun report => AnalysisProgress (fst report) (snd report))
         (tl (ar_progress analysis))
  ++ [AnalysisSettled (ar_outcome analysis)].

(** The line around a cursor: [before] ends a line (or is empty), [line]
    holds no newline, [after] starts with the newline that ends the line
    (or is empty), and the cursor lies within [line]. *)
Record cursor_line (before line after : jsstring) (cursor : Z) : Prop := {
  cl_before : before = [] \/ exists b, before = b ++ [newline];
  cl_line : ~ In newline line;
  cl_after : after = [] \/ exists a, after = newline :: a;
  cl_cursor : len before <= cursor <= len before + len line
}.

(** A session that ends with a transcript of two lines, the first of which
    starts with a timestamp, and the player at 65 seconds: a video is
    chosen, a text file is opened and read, the video plays. *)
Definition two_lines : AppState :=
  fst (run initialState
           [VideoFileChange (Some (mkFile (str "clip.mp4"))) 1%nat;
            TextFileChange (Some (mkFile (str "notes.txt")));
            TextLoaded (str "00:05 hi" ++ [newline] ++ str "next");
            TimeUpdate (Num (inject_Z 65))]).

(** The buttons that start an operation calling the AI service: capture
    text, re-write frame, apply (manual) edit, the quick edits and the
    sizes of the re-write popup. *)
Definition ai_trigger (b : Button) : bool :=
  match b with
  | CaptureTextBtn | ReWriteBtn | ApplyEditBtn
  | QuickEditBtn _ | ReWriteSizeBtn _ => true
  | _ => false
  end.

(** A page with a drawing context, the player at the start. *)
Definition plain_page : Dom := mkDom true (Num 0) (str "frame") 0 0.

(** A session in which the click on Capture Text has opened a request: a
    video and an image are chosen, the re-write popup is opened, and Capture
    Text is activated from the keyboard (a mouse press outside the popup
    would close it first). *)
Definition ready_events : list Event :=
  [VideoFileChange (Some (mkFile (str "clip.mp4"))) 1%nat;
   ImageFileChange (Some (mkFile (str "slide.png"))) 2%nat;
   Click ReWriteToggleBtn plain_page].

Definition ready : AppState := fst (run initialState ready_events).

Definition capturing : AppState :=
  fst (step ready (Click CaptureTextBtn plain_page)).

(** The transitions of the status that the specification lists. *)
Definition listed_transition (before after : AppStatus) : bool :=
  match before, after with
  | Idle, Processing
  | Processing, Success
  | Processing, Error
  | Success, Idle
  | Error, Idle => true
  | _, _ => false
  end.

(** The status after a step, from the status before and the event. *)
Definition status_after (s : AppState) (e : Event) : AppStatus :=
  match e with
  | VideoFileChange (Some _) _ => Idle
  | Click AnalyzeBtn _ =>
      if isSome (videoFile s) && negb (AppStatus_eqb (status s) Processing)
      then Processing else status s
  | AnalysisSettled (Resolved _) => Success
  | AnalysisSettled (Rejected _) => Error
  | TextError => Error
  | _ => status s
  end.

(** The operations whose body is wrapped in [try]/[catch]. *)
Inductive Operation :=
| Analysis | CaptureText | ReWriteFrame | ImageEdit | PopupReWrite.

(** The flag that says the operation is running; for the analysis it is
    the 'processing' status. *)
Definition busy (op : Operation) (s : AppState) : bool :=
  match op with
  | Analysis => AppStatus_eqb (status s) Processing
  | CaptureText => isCapturing s
  | ReWriteFrame => isReWriting s
  | ImageEdit => isEditing s
  | PopupReWrite => isReWritingFromPopup s
  end.

(** The message shown for an error that brings none. *)
Definition fallback (op : Operation) : jsstring :=
  match op with
  | Analysis => str "An unknown error occurred during analysis."
  | CaptureText => captureText_fallback
  | ReWriteFrame => reWrite_fallback
  | ImageEdit => edit_fallback
  | PopupReWrite => popup_fallback
  end.

Inductive Ending := Completed | Failed (msg : jsstring).

(** How the last stretch of an image operation ends: the AI answer is
    scanned for an image, then the payload is turned into an object URL. *)
Definition image_ending (image : Settled jsstring) (fetched : Settled Url)
  : Ending :=
  match image with
  | Rejected msg => Failed msg
  | Resolved _ =>
      match fetched with
      | Rejected msg => Failed msg
      | Resolved _ => Completed
      end
  end.

(** The steps in which an operation ends, and how: with the error that was
    raised, or normally. *)
Definition ending (s : AppState) (e : Event) : option (Operation * Ending) :=
  match e with
  | AnalysisSettled (Resolved _) => Some (Analysis, Completed)
  | AnalysisSettled (Rejected msg) => Some (Analysis, Failed msg)
  | Click CaptureTextBtn dom =>
      if clickable s CaptureTextBtn && isSome (videoFile s)
         && negb (dom_context dom)
      then Some (CaptureText, Failed (str "Could not get canvas context"))
      else None
  | CaptureTextSettled answer fetched =>
      Some (CaptureText,
            image_ending (processFrameForTextExtraction answer) fetched)
  | Click ReWriteBtn dom =>
      if clickable s ReWriteBtn && isSome (videoFile s)
         && negb (dom_context dom)
      then Some (ReWriteFrame, Failed (str "Could not get canvas context"))
      else None
  | ReWriteBlob None _ =>
      Some (ReWriteFrame, Failed (str "Failed to create blob from canvas."))
  | ReWriteEncoded (Rejected msg) => Some (ReWriteFrame, Failed msg)
  | ReWriteSettled answer fetched =>
      Some (ReWriteFrame, image_ending (editImage answer) fetched)
  | EditLoaded _ (Rejected msg) => Some (ImageEdit, Failed msg)
  | EditSettled _ answer fetched =>
      Some (ImageEdit, image_ending (editImage answer) fetched)
  | PopupLoaded _ (Rejected msg) => Some (PopupReWrite, Failed msg)
  | PopupSettled answer fetched =>
      Some (PopupReWrite, image_ending (editImage answer) fetched)
  | _ => None
  end.

(** The steps in which a capture of a frame ends without a frame. *)
Definition frame_capture_fails (s : AppState) (e : Event) : bool :=
  match e with
  | Click CaptureFrameBtn dom =>
      clickable s CaptureFrameBtn && isSome (videoFile s)
      && negb (dom_context dom)
  | FrameBlob None _ => true
  | _ => false
  end.

Definition handled (effects : list Effect) : Prop :=
  forall reason, ~ In (UnhandledRejection reason) effects.

(** What the end of an operation leaves behind. *)
Definition recovered (op : Operation) (how : Ending) (s' : AppState)
    (effects : list Effect) : Prop :=
  busy op s' = false
  /\ (forall msg, how = Failed msg ->
                  error s' = Some (or_else msg (fallback op)))
  /\ handled effects.

(** A video has been chosen; the page offers the three frame buttons. *)
Definition video_loaded : AppState :=
  fst (run initialState
           [VideoFileChange (Some (mkFile (str "clip.mp4"))) 1%nat]).

(** A page on which the canvas gives no drawing context. *)
Definition no_context : Dom := mkDom false (Num 0) [] 0 0.

(** An edited image is on the page: an image was opened, a quick edit ran
    and the AI service answered with a picture. *)
Definition image_edited_events : list Event :=
  [ImageFileChange (Some (mkFile (str "slide.png"))) 1%nat;
   Click (QuickEditBtn LOGO) no_context;
   EditLoaded (QuickEdit LOGO) (Resolved (str "iVBOR", str "image/png"));
   EditSettled (QuickEdit LOGO) (Resolved text_then_image)
               (Resolved 2%nat)].

Definition image_edited : AppState :=
  fst (run initialState image_edited_events).

(** ** Vocabulary of the further properties *)

(** The code units of one field of a formatted time: digits and the minus
    sign. *)
Definition field_unit (c : ascii) : bool :=
  is_digit c || Ascii.eqb c "-"%char.

(** A progress value that fills the bar by a whole percentage between 0
    and 100. *)
Definition whole_percent (p : number) : Prop :=
  exists z, p = Num (inject_Z z) /\ 0 <= z <= 100.

(** A duration over which the quotient of the progress is a number: a
    positive number of seconds, or [Infinity]. *)
Definition positive_duration (d : Duration) : Prop :=
  match d with
  | Finite seconds => (0 < seconds)%Q
  | Infinite => True
  | Unknown => False
  end.

(** The double nearest to one tenth. *)
Definition tenth : Q := 3602879701896397 # 36028797018963968.

(** The order of finite numbers; NaN compares with nothing. *)
Definition number_le (a b : number) : Prop :=
  match a, b with
  | Num x, Num y => (x <= y)%Q
  | _, _ => False
  end.

(** A video of nine seconds whose seek to second 4 fails. *)
Definition broken_at_4 : VideoElement :=
  mkVideoElement (Finite 9)
                 (fun c => if c =? 4 then None else Some (inject_Z c))
                 (fun _ => str "jpeg").

(** How many of the five busy flags are set. *)
Definition tasks_running (s : AppState) : nat :=
  Nat.b2n (isCapturing s) + Nat.b2n (isCapturingFrame s)
  + Nat.b2n (isReWriting s) + Nat.b2n (isEditing s)
  + Nat.b2n (isReWritingFromPopup s).

(** At most one task runs, and a quick edit is marked as loading only
    while an edit runs. *)
Definition one_task (s : AppState) : Prop :=
  (tasks_running s <= 1)%nat
  /\ (isSome (quickEditLoadingKey s) = true -> isEditing s = true).

(** The events that can change the content of the transcript box: typing
    into it, opening a text file, the timestamp button, the start and the
    end of an analysis, the choice of a video, and the arrival (or failure)
    of the metadata, after which the fill effect may run. *)
Definition writes_transcript (e : Event) : bool :=
  match e with
  | ChangeEditableText _ | TextLoaded _ | VideoFileChange _ _
  | AnalysisSettled _ | MetadataLoaded _ | MetadataError => true
  | Click AnalyzeBtn _ | Click InsertTimestampBtn _ => true
  | _ => false
  end.

(** A session with a one-line transcript and the player past one hundred
    minutes. *)
Definition late_in_the_video : AppState :=
  fst (run initialState
           [VideoFileChange (Some (mkFile (str "clip.mp4"))) 1%nat;
            TextFileChange (Some (mkFile (str "notes.txt")));
            TextLoaded (str "note");
            TimeUpdate (Num (inject_Z 6005))]).

(* ================================================================== *)
(** * Properties: double arithmetic *)
(* ================================================================== *)

Lemma pow2_pos (e : Z) : (0 < pow2 e)%Q.
Proof. apply Qpower_0_lt; reflexivity. Qed.

Lemma pow2_add (a b : Z) : (pow2 (a + b) == pow2 a * pow2 b)%Q.
Proof. apply Qpower_plus; discriminate. Qed.

Lemma pow2_le (a b : Z) : a <= b -> (pow2 a <= pow2 b)%Q.
Proof. intros H; apply Qpower_le_compat_l; [exact H | discriminate]. Qed.

Lemma pow2_lt_inv (a b : Z) : (pow2 a < pow2 b)%Q -> a < b.
Proof. intros H; eapply Qpower_lt_compat_l_inv; [exact H | reflexivity]. Qed.

Lemma pow2_Z (e : Z) : 0 <= e -> (pow2 e == inject_Z (2 ^ e))%Q.
Proof. intros H; unfold pow2; rewrite Zpower_Qpower by exact H; reflexivity. Qed.

Lemma pow2_cancel (e : Z) : (pow2 (- e) * pow2 e == 1)%Q.
Proof. rewrite <- pow2_add; replace (- e + e) with 0 by lia; reflexivity. Qed.

Lemma floor_log2_spec (q : Q) :
  (0 < q)%Q ->
  (pow2 (floor_log2 q) <= q)%Q /\ (q < pow2 (floor_log2 q + 1))%Q.
Proof.
  intros Hq; destruct q as [n d].
  assert (Hn : 0 < n) by (unfold Qlt in Hq; cbn in Hq; lia).
  unfold floor_log2; cbn [Qnum Qden].
  set (ln := Z.log2 n); set (ld := Z.log2 (Z.pos d)).
  destruct (Z.log2_spec n Hn) as [Hn1 Hn2]; fold ln in Hn1, Hn2.
  destruct (Z.log2_spec (Z.pos d) ltac:(lia)) as [Hd1 Hd2];
    fold ld in Hd1, Hd2.
  assert (Hln : 0 <= ln) by apply Z.log2_nonneg.
  assert (Hld : 0 <= ld) by apply Z.log2_nonneg.
  assert (Heq : (n # d == inject_Z n / inject_Z (Z.pos d))%Q)
    by apply Qmake_Qdiv.
  assert (Hdpos : (0 < inject_Z (Z.pos d))%Q) by reflexivity.
  assert (Hlow : (pow2 (ln - ld - 1) <= n # d)%Q).
  { rewrite Heq; apply Qle_shift_div_l; [exact Hdpos|].
    apply Qle_trans with (pow2 (ln - ld - 1) * pow2 (ld + 1))%Q.
    - apply Qmult_le_l; [apply pow2_pos|].
      rewrite pow2_Z by lia; rewrite <- Zle_Qle; lia.
    - rewrite <- pow2_add.
      replace (ln - ld - 1 + (ld + 1)) with ln by lia.
      rewrite pow2_Z by lia; rewrite <- Zle_Qle; exact Hn1. }
  assert (Hhigh : (n # d < pow2 (ln - ld + 1))%Q).
  { rewrite Heq; apply Qlt_shift_div_r; [exact Hdpos|].
    apply Qlt_le_trans with (pow2 (ln - ld + 1) * pow2 ld)%Q.
    - rewrite <- pow2_add.
      replace (ln - ld + 1 + ld) with (ln + 1) by lia.
      rewrite pow2_Z by lia; rewrite <- Zlt_Qlt.
      replace (ln + 1) with (Z.succ ln) by lia; exact Hn2.
    - apply Qmult_le_l; [apply pow2_pos|].
      rewrite pow2_Z by lia; rewrite <- Zle_Qle; exact Hd1. }
  destruct (Qle_bool (pow2 (ln - ld)) (n # d)) eqn:Hb.
  - apply Qle_bool_iff in Hb; split; assumption.
  - split; [exact Hlow|].
    replace (ln - ld - 1 + 1) with (ln - ld) by lia.
    apply Qnot_le_lt; intros Hle; apply Qle_bool_iff in Hle; congruence.
Qed.

Lemma floor_log2_mono (a b : Q) :
  (0 < a)%Q -> (a <= b)%Q -> floor_log2 a <= floor_log2 b.
Proof.
  intros Ha Hab.
  destruct (floor_log2_spec Ha) as [Ha1 _].
  destruct (@floor_log2_spec b) as [_ Hb2];
    [eapply Qlt_le_trans; eassumption|].
  assert (H : floor_log2 a < floor_log2 b + 1); [|lia].
  apply pow2_lt_inv.
  eapply Qle_lt_trans; [exact Ha1|].
  eapply Qle_lt_trans; eassumption.
Qed.

Lemma round_half_even_cases (x : Q) :
  round_half_even x = Qfloor x \/ round_half_even x = Qfloor x + 1.
Proof.
  unfold round_half_even.
  destruct (_ ?= _)%Q; auto; destruct (Z.even _); auto.
Qed.

Lemma round_half_even_Z (z : Z) : round_half_even (inject_Z z) = z.
Proof.
  unfold round_half_even; rewrite Qfloor_Z.
  replace (inject_Z z - inject_Z z ?= 1 # 2)%Q with Lt; [reflexivity|].
  symmetry; apply -> Qlt_alt; generalize (inject_Z z); intros q; lra.
Qed.

Lemma round_half_even_mono (x y : Q) :
  (x <= y)%Q -> round_half_even x <= round_half_even y.
Proof.
  intros Hxy.
  pose proof (Qfloor_resp_le _ _ Hxy) as Hf.
  destruct (Z.eq_dec (Qfloor x) (Qfloor y)) as [Heq | Hne].
  - unfold round_half_even; rewrite <- Heq.
    destruct (x - inject_Z (Qfloor x) ?= 1 # 2)%Q eqn:Hx;
      destruct (y - inject_Z (Qfloor x) ?= 1 # 2)%Q eqn:Hy;
      try (destruct (Z.even (Qfloor x))); try lia;
      rewrite <- ?Qeq_alt, <- ?Qlt_alt, <- ?Qgt_alt in *; lra.
  - destruct (round_half_even_cases x) as [-> | ->];
      destruct (round_half_even_cases y) as [-> | ->]; lia.
Qed.

Lemma round_half_even_comp (x y : Q) :
  (x == y)%Q -> round_half_even x = round_half_even y.
Proof.
  intros H; apply Z.le_antisymm; apply round_half_even_mono; lra.
Qed.

(** The mantissa of a positive number has at most 53 bits, and exactly
    53 when the exponent is not the smallest one. *)
Lemma mantissa_bounds (q : Q) :
  (0 < q)%Q ->
  let e := Z.max (floor_log2 q - 52) (-1074) in
  let m := round_half_even (q * pow2 (- e)) in
  0 <= m <= 2 ^ 53 /\ (- 1074 < e -> 2 ^ 52 <= m).
Proof.
  intros Hq e m.
  destruct (floor_log2_spec Hq) as [Hlo Hhi].
  pose proof (pow2_pos (- e)) as Hp.
  assert (Hx0 : (0 <= q * pow2 (- e))%Q) by (apply Qmult_le_0_compat; lra).
  assert (Hx53 : (q * pow2 (- e) <= inject_Z (2 ^ 53))%Q).
  { rewrite <- pow2_Z by lia.
    apply Qle_trans with (pow2 (floor_log2 q + 1) * pow2 (- e))%Q.
    - apply Qmult_le_compat_r; lra.
    - rewrite <- pow2_add; apply pow2_le; lia. }
  split; [split|].
  - rewrite <- (round_half_even_Z 0); apply round_half_even_mono; exact Hx0.
  - rewrite <- (round_half_even_Z (2 ^ 53)).
    apply round_half_even_mono; exact Hx53.
  - intros He.
    rewrite <- (round_half_even_Z (2 ^ 52)); apply round_half_even_mono.
    rewrite <- pow2_Z by lia.
    apply Qle_trans with (pow2 (floor_log2 q) * pow2 (- e))%Q.
    + rewrite <- pow2_add; apply pow2_le; lia.
    + apply Qmult_le_compat_r; lra.
Qed.

Lemma binary64_pos_nonneg (q : Q) : (0 < q)%Q -> (0 <= binary64_pos q)%Q.
Proof.
  intros Hq; destruct (mantissa_bounds Hq) as [[Hm _] _]; cbv zeta in Hm.
  unfold binary64_pos; apply Qmult_le_0_compat.
  - change 0%Q with (inject_Z 0); rewrite <- Zle_Qle; exact Hm.
  - apply Qlt_le_weak, pow2_pos.
Qed.

Lemma binary64_pos_mono (a b : Q) :
  (0 < a)%Q -> (a <= b)%Q -> (binary64_pos a <= binary64_pos b)%Q.
Proof.
  intros Ha Hab.
  assert (Hb : (0 < b)%Q) by lra.
  pose proof (floor_log2_mono Ha Hab) as Hl.
  destruct (mantissa_bounds Ha) as [[_ Ha53] _].
  destruct (mantissa_bounds Hb) as [_ Hb52].
  cbv zeta in *; unfold binary64_pos.
  set (ea := Z.max (floor_log2 a - 52) (-1074)) in *.
  set (eb := Z.max (floor_log2 b - 52) (-1074)) in *.
  assert (He : ea <= eb) by lia.
  destruct (Z.eq_dec ea eb) as [Heq | Hne].
  - rewrite Heq; apply Qmult_le_compat_r; [|apply Qlt_le_weak, pow2_pos].
    rewrite <- Zle_Qle; apply round_half_even_mono.
    apply Qmult_le_compat_r; [exact Hab | apply Qlt_le_weak, pow2_pos].
  - specialize (Hb52 ltac:(lia)).
    apply Qle_trans with (inject_Z (2 ^ 53) * pow2 ea)%Q.
    + apply Qmult_le_compat_r; [|apply Qlt_le_weak, pow2_pos].
      rewrite <- Zle_Qle; exact Ha53.
    + apply Qle_trans with (inject_Z (2 ^ 52) * pow2 eb)%Q.
      * rewrite <- !pow2_Z, <- !pow2_add by lia; apply pow2_le; lia.
      * apply Qmult_le_compat_r; [|apply Qlt_le_weak, pow2_pos].
        rewrite <- Zle_Qle; exact Hb52.
Qed.

Lemma Qnum_sign (q : Q) :
  match Qnum q with
  | Z0 => (q == 0)%Q
  | Zpos _ => (0 < q)%Q
  | Zneg _ => (q < 0)%Q
  end.
Proof. destruct q as [[|p|p] d]; unfold Qeq, Qlt; cbn; lia. Qed.

Lemma binary64_mono (a b : Q) :
  (a <= b)%Q -> (binary64 a <= binary64 b)%Q.
Proof.
  intros Hab; unfold binary64.
  pose proof (Qnum_sign a) as Ha; pose proof (Qnum_sign b) as Hb.
  destruct (Qnum a); destruct (Qnum b); try lra.
  - apply binary64_pos_nonneg; exact Hb.
  - apply binary64_pos_mono; assumption.
  - pose proof (@binary64_pos_nonneg (- a)%Q ltac:(lra)); lra.
  - pose proof (@binary64_pos_nonneg (- a)%Q ltac:(lra)).
    pose proof (binary64_pos_nonneg Hb); lra.
  - pose proof (@binary64_pos_mono (- b)%Q (- a)%Q ltac:(lra) ltac:(lra)).
    lra.
Qed.

Lemma binary64_comp (a b : Q) : (a == b)%Q -> (binary64 a == binary64 b)%Q.
Proof.
  intros H; apply Qle_antisym; apply binary64_mono; lra.
Qed.

Lemma binary64_nonneg (q : Q) : (0 <= q)%Q -> (0 <= binary64 q)%Q.
Proof. intros H; apply (binary64_mono H). Qed.

Lemma binary64_nonpos (q : Q) : (q <= 0)%Q -> (binary64 q <= 0)%Q.
Proof. intros H; apply (binary64_mono H). Qed.

(** Where the rounding of doubles shows in the progress: in exact
    arithmetic 2 / 14.814814814814815 * 100 lies below 13.5 and
    58 / 400 * 100 is 14.5, while the doubles of the program give exactly
    13.5 and 14.499999999999998; one third and one tenth are rounded to
    their nearest doubles, and 0.1 + 1 - 1 is not 0.1. *)
Lemma binary64_rounds_as_doubles :
  progress_of 2 (Finite (8339999309945363 # 562949953421312)) = Num 14
  /\ progress_of 58 (Finite 400) = Num 14
  /\ binary64 (1 # 3) == 6004799503160661 # 18014398509481984
  /\ binary64 (1 # 10) == tenth
  /\ binary64 (binary64 (tenth + 1) - 1)
     == 225179981368525 # 2251799813685248.
Proof. repeat split; vm_compute; reflexivity. Qed.

(* ================================================================== *)
(** * Properties: time formatting *)
(* ================================================================== *)

Lemma jsstring_eqb_eq (a b : jsstring) : jsstring_eqb a b = true -> a = b.
Proof.
  revert b; induction a as [|x a IH]; intros [|y b]; simpl;
    try discriminate; auto.
  intros H; apply andb_true_iff in H; destruct H as [Hxy Hab].
  apply Ascii.eqb_eq in Hxy; subst; f_equal; auto.
Qed.

Lemma jsstring_eqb_refl (a : jsstring) : jsstring_eqb a a = true.
Proof.
  induction a as [|x a IH]; simpl; auto.
  rewrite Ascii.eqb_refl; auto.
Qed.

(** Below one hundred the padded decimal form is the two digits. *)
Lemma pad2_two_digits (n : Z) : 0 <= n < 100 -> pad2 n = two_digits n.
Proof.
  intros Hn.
  assert (Hall : forallb (fun k => jsstring_eqb (pad2 (Z.of_nat k))
                                     (two_digits (Z.of_nat k)))
                         (seq 0 100) = true) by (vm_compute; reflexivity).
  rewrite forallb_forall in Hall.
  specialize (Hall (Z.to_nat n)).
  rewrite Z2Nat.id in Hall by lia.
  apply jsstring_eqb_eq, Hall, in_seq; lia.
Qed.

Lemma digit_value_char (d : Z) :
  0 <= d <= 9 -> digit_value (digit_char d) = Some d.
Proof.
  intros Hd.
  assert (Hc : d = 0 \/ d = 1 \/ d = 2 \/ d = 3 \/ d = 4 \/ d = 5 \/ d = 6
               \/ d = 7 \/ d = 8 \/ d = 9) by lia.
  repeat (destruct Hc as [-> | Hc]; [reflexivity|]); subst; reflexivity.
Qed.

Lemma parse_two_digits (m s : Z) :
  0 <= m < 100 -> 0 <= s < 100 ->
  parse_mmss (two_digits m ++ str ":" ++ two_digits s) = Some (60 * m + s).
Proof.
  intros Hm Hs.
  assert (Hm1 : 0 <= m / 10 <= 9).
  { split; [apply Z.div_pos; lia|].
    apply Z.lt_succ_r, Z.div_lt_upper_bound; lia. }
  assert (Hs1 : 0 <= s / 10 <= 9).
  { split; [apply Z.div_pos; lia|].
    apply Z.lt_succ_r, Z.div_lt_upper_bound; lia. }
  assert (Hm0 : 0 <= m mod 10 <= 9) by (pose proof (Z.mod_pos_bound m 10); lia).
  assert (Hs0 : 0 <= s mod 10 <= 9) by (pose proof (Z.mod_pos_bound s 10); lia).
  unfold two_digits, parse_mmss.
  cbn [app str list_ascii_of_string].
  rewrite !digit_value_char by assumption.
  cbn [Ascii.eqb Bool.eqb].
  f_equal.
  pose proof (Z.div_mod m 10); pose proof (Z.div_mod s 10); lia.
Qed.

(** On a non-negative integer the two formatters compute the same fields:
    the quotient and the remainder of the division by sixty. *)
Lemma formatTimestamp_integer (s : Z) :
  0 <= s ->
  formatTimestamp (Num (inject_Z s))
  = pad2 (s / 60) ++ str ":" ++ pad2 (s mod 60).
Proof.
  intros Hs; unfold formatTimestamp, Math_floor.
  rewrite Qfloor_Z, Z.rem_mod_nonneg by lia.
  reflexivity.
Qed.

Lemma floor_div60 (s : Z) : Qfloor (inject_Z s / 60) = s / 60.
Proof. symmetry; apply (Zdiv_Qdiv s 60). Qed.

Lemma floor_rem60 (s : Z) :
  0 <= s -> Qfloor (rem (inject_Z s) 60) = s mod 60.
Proof.
  intros Hs; unfold rem, trunc.
  assert (Hq : Qle_bool 0 (inject_Z s / 60) = true).
  { apply Qle_bool_iff.
    apply Qle_shift_div_l; [reflexivity|].
    rewrite Qmult_0_l.
    change 0%Q with (inject_Z 0); rewrite <- Zle_Qle; lia. }
  rewrite Hq, floor_div60.
  rewrite <- (Qfloor_Z (s mod 60)).
  apply Qfloor_comp.
  change (60%Q) with (inject_Z 60).
  rewrite <- inject_Z_mult.
  unfold Qminus; rewrite <- inject_Z_opp, <- inject_Z_plus.
  rewrite Z.mod_eq by lia.
  apply inject_Z_injective; lia.
Qed.

Lemma formatDuration_integer (s : Z) :
  0 <= s ->
  formatDuration (Some (Num (inject_Z s)))
  = pad2 (s / 60) ++ str ":" ++ pad2 (s mod 60).
Proof.
  intros Hs; unfold formatDuration, Math_floor.
  rewrite floor_div60, floor_rem60 by lia.
  reflexivity.
Qed.

(** A formatted duration is made of digits, colons and minus signs: it
    holds no newline, and no dollar sign that [replace] would expand. *)
Lemma digits_plain (d : Decimal.uint) :
  forallb plain_unit (str (NilEmpty.string_of_uint d)) = true.
Proof. induction d; cbn; auto. Qed.

Lemma String_plain (n : Z) : forallb plain_unit (String_ n) = true.
Proof.
  unfold String_.
  destruct (Z.to_int n) as [d|d]; cbn [NilZero.string_of_int].
  - destruct d; try apply digits_plain; reflexivity.
  - cbn [str list_ascii_of_string forallb]; fold (str (NilZero.string_of_uint d)).
    destruct d; try apply digits_plain; reflexivity.
Qed.

Lemma padStart_plain (n : nat) (s : jsstring) :
  forallb plain_unit s = true ->
  forallb plain_unit (padStart n (str "0") s) = true.
Proof.
  intros Hs; unfold padStart; rewrite forallb_app, Hs, andb_true_r.
  generalize (n - List.length s)%nat; intros k.
  assert (H : forall cur, forallb plain_unit cur = true ->
            forallb plain_unit (repeat_to k (str "0") cur) = true).
  { induction k as [|k IH]; intros cur Hcur; cbn [repeat_to]; [reflexivity|].
    destruct cur as [|c rest].
    - cbn [str list_ascii_of_string forallb]; rewrite IH; reflexivity.
    - cbn [forallb] in *; apply andb_true_iff in Hcur; destruct Hcur as [-> Hr].
      rewrite IH; auto. }
  apply H; reflexivity.
Qed.

Lemma formatDuration_plain (t : option number) :
  forallb plain_unit (formatDuration t) = true.
Proof.
  destruct t as [[|q]|]; try reflexivity.
  unfold formatDuration, pad2.
  rewrite !forallb_app, !padStart_plain by apply String_plain; reflexivity.
Qed.

Lemma formatDuration_one_line (t : option number) :
  ~ In newline (formatDuration t) /\ ~ In "$"%char (formatDuration t).
Proof.
  pose proof (formatDuration_plain t) as H; rewrite forallb_forall in H.
  split; intros Hin; apply H in Hin; discriminate.
Qed.

(** C3.  Both seconds-to-"mm:ss" formatters, [formatTimestamp] of the
    service and [formatDuration] of the component, write an integer number
    of seconds [s] between 0 and 3599 as the two decimal digits of
    [s / 60], a colon, and the two decimal digits of [s mod 60]: five code
    units, both fields padded with a zero.  Reading the string back as
    [60 * mm + ss] gives [s] again.  In particular 65 is shown as "01:05"
    and 0 as "00:00". *)
Theorem timestamp_format_roundtrip (s : Z) :
  0 <= s <= 3599 ->
  let shown := two_digits (s / 60) ++ str ":" ++ two_digits (s mod 60) in
  (formatTimestamp (Num (inject_Z s)) = shown
   /\ formatDuration (Some (Num (inject_Z s))) = shown
   /\ List.length shown = 5%nat
   /\ parse_mmss shown = Some s)
  /\ (formatTimestamp (Num (inject_Z 65)) = str "01:05"
      /\ formatDuration (Some (Num (inject_Z 65))) = str "01:05"
      /\ formatTimestamp (Num (inject_Z 0)) = str "00:00"
      /\ formatDuration (Some (Num (inject_Z 0))) = str "00:00").
Proof.
  intros Hs shown.
  assert (Hm : 0 <= s / 60 < 100).
  { split; [apply Z.div_pos; lia | apply Z.div_lt_upper_bound; lia]. }
  assert (Hr : 0 <= s mod 60 < 60) by (apply Z.mod_pos_bound; lia).
  split; [|repeat split; vm_compute; reflexivity].
  repeat split.
  - rewrite formatTimestamp_integer by lia.
    rewrite !pad2_two_digits by lia; reflexivity.
  - rewrite formatDuration_integer by lia.
    rewrite !pad2_two_digits by lia; reflexivity.
  - unfold shown; rewrite parse_two_digits by lia.
    f_equal; pose proof (Z.div_mod s 60); lia.
Qed.

Lemma timestamp_format_roundtrip_witness :
  0 <= 65 <= 3599
  /\ formatTimestamp (Num (inject_Z 65)) = str "01:05"
  /\ parse_mmss (str "01:05") = Some 65.
Proof.
  assert (H : 0 <= 65 <= 3599) by (split; discriminate).
  split; [exact H|].
  pose proof (timestamp_format_roundtrip H) as [[Ht [_ [_ Hp]]] _].
  split; [exact Ht | exact Hp].
Defined.

(* ================================================================== *)
(** * Properties: the frame sampler *)
(* ================================================================== *)

Lemma Qfloor_unique (q : Q) (z : Z) :
  (inject_Z z <= q)%Q -> (q < inject_Z (z + 1))%Q -> Qfloor q = z.
Proof.
  intros Hlo Hhi.
  pose proof (Qfloor_le q) as Hf1.
  pose proof (Qlt_floor q) as Hf2.
  assert (H1 : Qfloor q < z + 1).
  { rewrite Zlt_Qlt; eapply Qle_lt_trans; eassumption. }
  assert (H2 : z < Qfloor q + 1).
  { rewrite Zlt_Qlt; eapply Qle_lt_trans; eassumption. }
  lia.
Qed.

(** A position less than half a second away from an integer rounds to
    it. *)
Lemma Math_round_near (q : Q) (z : Z) :
  (inject_Z z - (1 # 2) <= q)%Q -> (q < inject_Z z + (1 # 2))%Q ->
  Math_round q = z.
Proof.
  intros Hlo Hhi; unfold Math_round.
  apply Qfloor_unique.
  - lra.
  - rewrite inject_Z_plus; change (inject_Z 1) with 1%Q; lra.
Qed.

Lemma cursors_seq (m : nat) : forall c k,
  cursors (c + 2 * Z.of_nat k) m
  = map (fun i => c + 2 * Z.of_nat i) (seq k m).
Proof.
  induction m as [|m IH]; intros c k; cbn [cursors seq map];
    [reflexivity|].
  f_equal.
  replace (c + 2 * Z.of_nat k + FRAME_EXTRACTION_INTERVAL)
    with (c + 2 * Z.of_nat (S k))
    by (unfold FRAME_EXTRACTION_INTERVAL; lia).
  apply IH.
Qed.

Lemma cursors_lower (m : nat) : forall c x, In x (cursors c m) -> c <= x.
Proof.
  induction m as [|m IH]; intros c x; simpl; [tauto|].
  intros [<- | Hin]; [lia|].
  apply IH in Hin; unfold FRAME_EXTRACTION_INTERVAL in Hin; lia.
Qed.

Lemma cursors_increasing (m : nat) : forall c,
  StronglySorted Z.lt (cursors c m).
Proof.
  induction m as [|m IH]; intros c; simpl; constructor; [apply IH|].
  apply Forall_forall; intros x Hin.
  apply cursors_lower in Hin; unfold FRAME_EXTRACTION_INTERVAL in Hin; lia.
Qed.

Lemma cursors_length (m : nat) : forall c, List.length (cursors c m) = m.
Proof. induction m; intros c; simpl; auto. Qed.

Lemma exceeds_finite (c : Z) (d : Q) :
  (exceeds c (Finite d) = false <-> (inject_Z c <= d)%Q)
  /\ (exceeds c (Finite d) = true <-> (d < inject_Z c)%Q).
Proof.
  cbn [exceeds]; rewrite negb_false_iff, negb_true_iff, Qle_bool_iff.
  split; [tauto|]; split.
  - intros Hb; apply Qnot_le_lt; intros Hle.
    apply Qle_bool_iff in Hle; congruence.
  - intros Hlt; apply not_true_is_false; intros Hle.
    apply Qle_bool_iff in Hle; exact (Qlt_not_le _ _ Hlt Hle).
Qed.

Section SamplerLoop.

Variable video : VideoElement.

(** [m] rounds whose cursors stay within the duration and whose seeks
    settle, followed by a cursor beyond the duration, take [m + 1] calls
    of [captureFrame] and resolve with one frame per round. *)
Lemma captureFrame_rounds (m : nat) :
  forall fuel c frames reported seeks,
    (m < fuel)%nat ->
    (forall x, In x (cursors c m) ->
               exceeds x (ve_duration video) = false
               /\ ve_seek video x <> None) ->
    exceeds (c + 2 * Z.of_nat m) (ve_duration video) = true ->
    captureFrame fuel video c frames reported seeks
    = Some (mkSamplerRun
              (Resolved (frames ++ map (frame_at video) (cursors c m)))
              (reported
                 ++ map (fun x => progress_of x (ve_duration video))
                        (cursors c m))
              (seeks ++ cursors c m)).
Proof.
  induction m as [|m IH]; intros fuel c frames reported seeks Hfuel Hin Hout;
    (destruct fuel as [|fuel]; [lia|]); cbn [captureFrame cursors map].
  - replace (c + 2 * Z.of_nat 0) with c in Hout by lia.
    rewrite Hout, !app_nil_r; reflexivity.
  - destruct (Hin c (or_introl eq_refl)) as [Hle Hseek].
    rewrite Hle.
    unfold frame_at at 1.
    destruct (ve_seek video c) as [position|]; [|congruence].
    rewrite IH.
    + rewrite <- !app_assoc; reflexivity.
    + lia.
    + intros x Hx; apply Hin; right; exact Hx.
    + replace (c + FRAME_EXTRACTION_INTERVAL + 2 * Z.of_nat m)
        with (c + 2 * Z.of_nat (S m))
        by (unfold FRAME_EXTRACTION_INTERVAL; lia).
      exact Hout.
Qed.

(** Against an infinite or NaN duration the cursor is never beyond the
    duration: while the seeks settle the loop goes on, whatever the
    fuel. *)
Lemma captureFrame_endless (fuel : nat) :
  forall c frames reported seeks,
    (forall x, exceeds x (ve_duration video) = false) ->
    (forall x, ve_seek video x <> None) ->
    captureFrame fuel video c frames reported seeks = None.
Proof.
  induction fuel as [|fuel IH]; intros c frames reported seeks Hin Hseek;
    [reflexivity|].
  cbn [captureFrame]; rewrite Hin.
  destruct (ve_seek video c) as [position|] eqn:Hc;
    [|exfalso; exact (Hseek c Hc)].
  apply IH; assumption.
Qed.

(** And however the seeks end, its promise is never resolved. *)
Lemma captureFrame_unresolved (fuel : nat) :
  forall c frames reported seeks run,
    (forall x, exceeds x (ve_duration video) = false) ->
    captureFrame fuel video c frames reported seeks = Some run ->
    sr_outcome run = Rejected (str "Error processing video file.").
Proof.
  induction fuel as [|fuel IH]; intros c frames reported seeks run Hin;
    [discriminate|].
  cbn [captureFrame]; rewrite Hin.
  destruct (ve_seek video c) as [position|].
  - apply IH; exact Hin.
  - intros [= <-]; reflexivity.
Qed.

End SamplerLoop.

Lemma sample_count_inside (duration : Q) (i : nat) :
  (0 <= duration)%Q -> (i < sample_count duration)%nat ->
  (inject_Z (2 * Z.of_nat i) <= duration)%Q.
Proof.
  intros Hd Hi; unfold sample_count in Hi.
  assert (H0 : 0 <= Qfloor duration).
  { change 0 with (Qfloor (inject_Z 0)). apply Qfloor_resp_le; exact Hd. }
  assert (Hq : 0 <= Qfloor duration / 2) by (apply Z.div_pos; lia).
  eapply Qle_trans; [|apply Qfloor_le].
  rewrite <- Zle_Qle.
  pose proof (Z.mul_div_le (Qfloor duration) 2); lia.
Qed.

Lemma sample_count_beyond (duration : Q) :
  (0 <= duration)%Q ->
  (duration < inject_Z (2 * Z.of_nat (sample_count duration)))%Q.
Proof.
  intros Hd; unfold sample_count.
  assert (H0 : 0 <= Qfloor duration).
  { change 0 with (Qfloor (inject_Z 0)). apply Qfloor_resp_le; exact Hd. }
  assert (Hq : 0 <= Qfloor duration / 2) by (apply Z.div_pos; lia).
  eapply Qlt_le_trans; [apply Qlt_floor|].
  rewrite <- Zle_Qle, Z2Nat.id by lia.
  pose proof (Z.div_mod (Qfloor duration) 2);
    pose proof (Z.mod_pos_bound (Qfloor duration) 2); lia.
Qed.

Lemma sample_count_bound (duration : Q) :
  (0 <= duration)%Q ->
  Z.of_nat (sample_count duration) <= Qceiling (duration / 2) + 1.
Proof.
  intros Hd; unfold sample_count.
  assert (H0 : 0 <= Qfloor duration).
  { change 0 with (Qfloor (inject_Z 0)). apply Qfloor_resp_le; exact Hd. }
  assert (Hq : 0 <= Qfloor duration / 2) by (apply Z.div_pos; lia).
  rewrite Z2Nat.id by lia.
  apply Z.add_le_mono_r.
  rewrite Zle_Qle.
  eapply Qle_trans; [|apply Qle_ceiling].
  apply Qle_shift_div_l; [reflexivity|].
  eapply Qle_trans; [|apply (Qfloor_le duration)].
  change (2%Q) with (inject_Z 2).
  rewrite <- inject_Z_mult, <- Zle_Qle.
  pose proof (Z.mul_div_le (Qfloor duration) 2); lia.
Qed.

Lemma cursors_from_zero (n : nat) :
  cursors 0 n = map (fun i => 2 * Z.of_nat i) (seq 0 n).
Proof. exact (cursors_seq n 0 0). Qed.

(** C1, amended.  For a video whose duration is a finite number [D] of
    seconds with [0 <= D < 2^53], with a drawing context available and
    every seek to a cursor position within the duration settling less than
    half a second away from that position (a seek by [currentTime] is
    exact), the sampler's promise resolves (any fuel above the number of
    rounds suffices) with exactly [floor(D / 2) + 1] frames, which is at
    most [ceil(D / 2) + 1].  The positions it seeks to are the cursor
    values 0, 2, 4, ... in order, one frame per cursor value; the
    timestamps of the frames are these values and so strictly increasing;
    every cursor value used is at most [D], and the loop stops at the first
    cursor value beyond [D]. *)
Theorem sampler_frames (video : VideoElement) (D : Q) (fuel : nat) :
  let n := sample_count D in
  let positions := map (fun i => 2 * Z.of_nat i) (seq 0 n) in
  ve_duration video = Finite D ->
  (0 <= D)%Q -> (D < inject_Z (2 ^ 53))%Q ->
  (forall c, 0 <= c -> (inject_Z c <= D)%Q ->
             exists p,
               ve_seek video c = Some p
               /\ (inject_Z c - (1 # 2) <= p < inject_Z c + (1 # 2))%Q) ->
  (n < fuel)%nat ->
  exists frames reported,
    extractFramesFromVideo fuel true video
    = Some (mkSamplerRun (Resolved frames) reported positions)
    /\ List.length frames = n
    /\ Z.of_nat (List.length frames) <= Qceiling (D / 2) + 1
    /\ map vf_timestamp frames = positions
    /\ StronglySorted Z.lt (map vf_timestamp frames)
    /\ Forall (fun c => (inject_Z c <= D)%Q) positions
    /\ (D < inject_Z (2 * Z.of_nat n))%Q.
Proof.
  intros n positions Hfinite HD _ Hseek Hfuel.
  assert (Hpos : positions = cursors 0 n)
    by (symmetry; apply cursors_from_zero).
  assert (Hin : forall x, In x (cursors 0 n) ->
                          0 <= x /\ (inject_Z x <= D)%Q).
  { intros x Hx; rewrite cursors_from_zero in Hx.
    apply in_map_iff in Hx; destruct Hx as (i & <- & Hi).
    apply in_seq in Hi; split; [lia|].
    apply sample_count_inside; [exact HD | fold n; lia]. }
  exists (map (frame_at video) (cursors 0 n)),
         (map (fun x => progress_of x (Finite D)) (cursors 0 n)).
  assert (Hts : map vf_timestamp (map (frame_at video) (cursors 0 n))
                = cursors 0 n).
  { rewrite map_map.
    rewrite <- (map_id (cursors 0 n)) at 2.
    apply map_ext_in; intros x Hx.
    destruct (Hin x Hx) as [H0 Hle].
    destruct (Hseek x H0 Hle) as (p & Hp & Hnear).
    unfold frame_at; rewrite Hp; cbn [vf_timestamp].
    apply Math_round_near; apply Hnear. }
  split; [|split; [|split; [|split; [|split; [|split]]]]].
  - unfold extractFramesFromVideo; cbn [negb].
    rewrite Hpos, <- Hfinite.
    apply (@captureFrame_rounds video n fuel 0 [] [] []).
    + exact Hfuel.
    + intros x Hx; destruct (Hin x Hx) as [H0 Hle].
      split; [rewrite Hfinite; apply exceeds_finite; exact Hle|].
      destruct (Hseek x H0 Hle) as (p & Hp & _); congruence.
    + rewrite Hfinite; apply exceeds_finite.
      apply sample_count_beyond; exact HD.
  - rewrite length_map; apply cursors_length.
  - rewrite length_map, cursors_length.
    apply sample_count_bound; exact HD.
  - rewrite Hpos; exact Hts.
  - rewrite Hts; apply cursors_increasing.
  - rewrite Hpos; apply Forall_forall; intros x Hx; apply (Hin x Hx).
  - apply sample_count_beyond; exact HD.
Qed.

Lemma sampler_frames_witness :
  exists frames reported,
    extractFramesFromVideo 4 true five_seconds
    = Some (mkSamplerRun (Resolved frames) reported [0; 2; 4])
    /\ map vf_timestamp frames = [0; 2; 4].
Proof.
  assert (HD : (0 <= 5)%Q) by discriminate.
  assert (Hbound : (5 < inject_Z (2 ^ 53))%Q) by reflexivity.
  assert (Hseek : forall c, 0 <= c ->
            (inject_Z c <= 5)%Q ->
            exists p, ve_seek five_seconds c = Some p
                      /\ (inject_Z c - (1 # 2) <= p
                          < inject_Z c + (1 # 2))%Q).
  { intros c _ _; exists (inject_Z c); split; [reflexivity|].
    split; lra. }
  assert (Hfuel : (sample_count 5 < 4)%nat) by (vm_compute; lia).
  destruct (@sampler_frames five_seconds 5 4 eq_refl HD Hbound Hseek Hfuel)
    as (frames & reported & Hrun & _ & _ & Hts & _).
  exists frames, reported; split; [exact Hrun | exact Hts].
Defined.

(** C1, as stated for every video, fails on a video whose duration is
    [Infinity], as browsers report it for a recording without a length in
    its header: [currentTime > duration] is then never true.  With seeks
    that settle the loop goes on for ever and the promise never settles
    (no fuel ends the run); and with any seeks at all the promise is never
    resolved, so no finite sequence of frames is ever produced. *)
Lemma sampler_never_resolves_without_an_end :
  ve_duration endless_recording = Infinite
  /\ (forall fuel,
        extractFramesFromVideo fuel true endless_recording = None)
  /\ (forall video fuel run frames,
        ve_duration video = Infinite \/ ve_duration video = Unknown ->
        extractFramesFromVideo fuel true video = Some run ->
        sr_outcome run <> Resolved frames).
Proof.
  split; [reflexivity|]; split.
  - intros fuel; unfold extractFramesFromVideo; cbn [negb].
    apply captureFrame_endless; [reflexivity | discriminate].
  - intros video fuel run frames Hd; unfold extractFramesFromVideo.
    cbn [negb]; intros Hrun.
    rewrite (@captureFrame_unresolved video fuel 0 [] [] [] run);
      [discriminate | | exact Hrun].
    intros x; destruct Hd as [-> | ->]; reflexivity.
Qed.

(* ================================================================== *)
(** * Properties: the AI client adapter *)
(* ================================================================== *)

Lemma scan_parts_find (ps : list Part) :
  scan_parts ps = option_map payload_of (find image_part ps).
Proof.
  induction ps as [|p ps IH]; [reflexivity|].
  cbn [scan_parts find].
  destruct (image_part p) eqn:Himg; unfold image_part in Himg;
    destruct (inlineData p) as [d|] eqn:Hd; try discriminate.
  - rewrite Himg; cbn [option_map]; unfold payload_of; rewrite Hd.
    reflexivity.
  - rewrite Himg; exact IH.
  - exact IH.
Qed.

Lemma find_image_parts (response : GenerateContentResponse) :
  find_image response = scan_parts (response_parts response).
Proof.
  unfold find_image, response_parts.
  destruct (candidates response) as [[|first rest]|]; try reflexivity.
  destruct (content first) as [c|]; [|reflexivity].
  destruct (parts c); reflexivity.
Qed.

Lemma find_first_split {A : Type} (f : A -> bool) (l : list A) :
  match find f l with
  | Some x =>
      exists before after,
        l = before ++ x :: after /\ f x = true
        /\ forallb (fun y => negb (f y)) before = true
  | None => forallb (fun y => negb (f y)) l = true
  end.
Proof.
  induction l as [|a l IH]; cbn [find forallb]; [reflexivity|].
  destruct (f a) eqn:Hfa.
  - exists [], l; repeat split; assumption.
  - destruct (find f l) as [x|].
    + destruct IH as (before & after & -> & Hx & Hb).
      exists (a :: before), after; repeat split; [exact Hx|].
      cbn [forallb]; rewrite Hfa; exact Hb.
    + rewrite IH; reflexivity.
Qed.

Lemma find_none_forallb {A : Type} (f : A -> bool) (l : list A) :
  forallb (fun y => negb (f y)) l = true -> find f l = None.
Proof.
  induction l as [|a l IH]; cbn [find forallb]; [reflexivity|].
  intros H; apply andb_true_iff in H; destruct H as [Ha Hl].
  apply negb_true_iff in Ha; rewrite Ha; auto.
Qed.

(** C8.  For every response of the AI service, the isolate-text rewrite
    [processFrameForTextExtraction] and the image edit [editImage] look at
    the parts of the response (those of the content of its first
    candidate).  When one of them carries inline image data, both resolve
    with the payload of the first such part: every part before it carries
    none.  Both reject with their no-image message exactly when no part
    carries inline image data, which includes a response without
    candidates, with an empty candidate list, without content or without
    parts. *)
Theorem image_payload_or_no_image_error (response : GenerateContentResponse) :
  let ps := response_parts response in
  (match find image_part ps with
   | Some p =>
       (exists before after,
          ps = before ++ p :: after /\ image_part p = true
          /\ forallb (fun q => negb (image_part q)) before = true)
       /\ processFrameForTextExtraction (Resolved response)
          = Resolved (payload_of p)
       /\ editImage (Resolved response) = Resolved (payload_of p)
   | None =>
       processFrameForTextExtraction (Resolved response)
       = Rejected no_generated_image
       /\ editImage (Resolved response) = Rejected no_edited_image
   end)
  /\ (processFrameForTextExtraction (Resolved response)
      = Rejected no_generated_image
      <-> forallb (fun q => negb (image_part q)) ps = true)
  /\ (editImage (Resolved response) = Rejected no_edited_image
      <-> forallb (fun q => negb (image_part q)) ps = true)
  /\ (candidates response = None \/ candidates response = Some []
      \/ (exists first rest,
            candidates response = Some (first :: rest)
            /\ (content first = None
                \/ content first = Some (mkContent None)))
      -> ps = []).
Proof.
  intros ps.
  assert (Hscan : find_image response
                  = option_map payload_of (find image_part ps)).
  { rewrite find_image_parts; apply scan_parts_find. }
  pose proof (find_first_split image_part ps) as Hsplit.
  unfold processFrameForTextExtraction, editImage; rewrite Hscan.
  destruct (find image_part ps) as [p|] eqn:Hfind; cbn [option_map].
  - destruct Hsplit as (before & after & Hps & Hp & Hb).
    split; [|split; [|split]].
    + split; [exists before, after; auto | split; reflexivity].
    + split; [discriminate|].
      intros Hall; apply find_none_forallb in Hall; congruence.
    + split; [discriminate|].
      intros Hall; apply find_none_forallb in Hall; congruence.
    + intros Habsent; exfalso.
      assert (Hnil : ps = []).
      { unfold ps, response_parts.
        destruct Habsent as [-> | [-> | (first & rest & -> & [-> | ->])]];
          reflexivity. }
      rewrite Hnil in Hfind; discriminate.
  - split; [|split; [|split]].
    + split; reflexivity.
    + split; auto.
    + split; auto.
    + intros Habsent; unfold ps, response_parts.
      destruct Habsent as [-> | [-> | (first & rest & -> & [-> | ->])]];
        reflexivity.
Qed.

Lemma image_payload_or_no_image_error_witness :
  processFrameForTextExtraction (Resolved text_then_image)
  = Resolved (str "iVBOR")
  /\ editImage (Resolved text_then_image) = Resolved (str "iVBOR")
  /\ (candidates (mkResponse None) = None
      /\ response_parts (mkResponse None) = []).
Proof.
  pose proof (image_payload_or_no_image_error text_then_image) as [H _].
  cbv beta iota zeta in H.
  destruct H as (_ & Hp & He).
  split; [exact Hp | split; [exact He|]].
  pose proof (image_payload_or_no_image_error (mkResponse None))
    as (_ & _ & _ & Habs).
  split; [reflexivity | exact (Habs (or_introl eq_refl))].
Defined.

(** C10.  Once frame extraction has settled, [analyzeVideoForText] settles
    too.  If the extraction resolved with an empty frame list, the analysis
    rejects with 'Could not extract any frames from the video.' and no
    request has been sent to the AI service.  Every request the analysis
    sends is the batch transcription request, and it carries the images of
    a non-empty frame sequence, the one the extraction resolved with. *)
Theorem empty_extraction_sends_nothing (fuel : nat) (context : bool)
    (video : VideoElement) (reply : AiRequest -> BatchAnswer)
    (sampled : SamplerRun) :
  extractFramesFromVideo fuel context video = Some sampled ->
  exists analysis,
    analyzeVideoForText fuel context video reply = Some analysis
    /\ (sr_outcome sampled = Resolved [] ->
        ar_outcome analysis = Rejected no_frames_message
        /\ ar_requests analysis = [])
    /\ (forall request, In request (ar_requests analysis) ->
          exists frames,
            sr_outcome sampled = Resolved frames
            /\ frames <> []
            /\ rq_prompt request = TranscriptionPrompt
            /\ rq_images request = image_parts_of frames
            /\ rq_images request <> []).
Proof.
  intros Hsampled; unfold analyzeVideoForText; rewrite Hsampled.
  destruct (sr_outcome sampled) as [frames|msg] eqn:Hout.
  - destruct frames as [|frame frames]; cbn [List.length Nat.eqb].
    + eexists; split; [reflexivity|]; cbn [ar_outcome ar_requests].
      split; [intros _; split; reflexivity | intros request []].
    + set (request := mkAiRequest _ _ _).
      assert (Hreq : forall rq, In rq [request] ->
                exists fs, Resolved (frame :: frames) = Resolved fs
                           /\ fs <> []
                           /\ rq_prompt rq = TranscriptionPrompt
                           /\ rq_images rq = image_parts_of fs
                           /\ rq_images rq <> []).
      { intros rq [<- | []].
        exists (frame :: frames); repeat split; discriminate. }
      cbv zeta; destruct (reply request) as [msg|msg|rawResults];
        (eexists; split; [reflexivity|]; cbn [ar_outcome ar_requests];
         split; [discriminate | exact Hreq]).
  - eexists; split; [reflexivity|]; cbn [ar_outcome ar_requests].
    split; [discriminate | intros request []].
Qed.

Lemma empty_extraction_sends_nothing_witness :
  extractFramesFromVideo 1 true no_picture
  = Some (mkSamplerRun (Resolved []) [] [])
  /\ exists analysis,
       analyzeVideoForText 1 true no_picture (fun _ => Parsed [])
       = Some analysis
       /\ ar_outcome analysis = Rejected no_frames_message
       /\ ar_requests analysis = [].
Proof.
  assert (H : extractFramesFromVideo 1 true no_picture
              = Some (mkSamplerRun (Resolved []) [] []))
    by reflexivity.
  split; [exact H|].
  destruct (@empty_extraction_sends_nothing 1 true no_picture
              (fun _ => Parsed []) _ H)
    as (analysis & Hrun & Hempty & _).
  exists analysis; split; [exact Hrun | exact (Hempty eq_refl)].
Defined.

Lemma captureFrame_keeps_frames (video : VideoElement) (fuel : nat) :
  forall c frames reported seeks sampled,
    frames <> [] ->
    captureFrame fuel video c frames reported seeks = Some sampled ->
    sr_outcome sampled <> Resolved [].
Proof.
  induction fuel as [|fuel IH]; intros c frames reported seeks sampled Hne;
    [discriminate|].
  cbn [captureFrame].
  destruct (exceeds c (ve_duration video)).
  - intros [= <-]; cbn [sr_outcome]; congruence.
  - destruct (ve_seek video c) as [position|].
    + apply IH; intros Hnil; apply app_eq_nil in Hnil.
      destruct Hnil; discriminate.
    + intros [= <-]; discriminate.
Qed.

(** With a duration that is not negative the first round always runs, so
    the extraction never resolves with an empty list: the guard of
    [analyzeVideoForText] is a safety net. *)
Lemma extraction_never_empty (fuel : nat) (video : VideoElement)
    (sampled : SamplerRun) :
  exceeds 0 (ve_duration video) = false ->
  extractFramesFromVideo fuel true video = Some sampled ->
  sr_outcome sampled <> Resolved [].
Proof.
  intros HD; unfold extractFramesFromVideo; cbn [negb].
  destruct fuel as [|fuel]; [discriminate|]; cbn [captureFrame].
  rewrite HD.
  destruct (ve_seek video 0) as [position|].
  - apply captureFrame_keeps_frames; discriminate.
  - intros [= <-]; discriminate.
Qed.

(** More fuel never changes how a run ends. *)
Lemma captureFrame_fuel_mono (video : VideoElement) (fuel : nat) :
  forall fuel' c frames reported seeks sampled,
    (fuel <= fuel')%nat ->
    captureFrame fuel video c frames reported seeks = Some sampled ->
    captureFrame fuel' video c frames reported seeks = Some sampled.
Proof.
  induction fuel as [|fuel IH];
    intros fuel' c frames reported seeks sampled Hle; [discriminate|].
  destruct fuel' as [|fuel']; [lia|].
  cbn [captureFrame].
  destruct (exceeds c (ve_duration video)); [auto|].
  destruct (ve_seek video c); [|auto].
  apply IH; lia.
Qed.

Lemma analyzeVideoForText_fuel_mono (fuel fuel' : nat) (context : bool)
    (video : VideoElement) (reply : AiRequest -> BatchAnswer)
    (analysis : AnalysisRun) :
  (fuel <= fuel')%nat ->
  analyzeVideoForText fuel context video reply = Some analysis ->
  analyzeVideoForText fuel' context video reply = Some analysis.
Proof.
  intros Hle; unfold analyzeVideoForText, extractFramesFromVideo.
  destruct (negb context); [auto|].
  destruct (captureFrame fuel video 0 [] [] []) as [sampled|] eqn:Hrun;
    [|discriminate].
  rewrite (captureFrame_fuel_mono _ _ _ _ _ Hle Hrun); auto.
Qed.

(* ================================================================== *)
(** * Properties: the result formatter *)
(* ================================================================== *)

Lemma join_snoc (sep : jsstring) (ps : list jsstring) (x : jsstring) :
  ps <> [] -> join sep (ps ++ [x]) = join sep ps ++ sep ++ x.
Proof.
  induction ps as [|p ps IH]; [congruence|]; intros _.
  destruct ps as [|q ps]; [reflexivity|].
  change (join sep ((p :: q :: ps) ++ [x]))
    with (p ++ sep ++ join sep ((q :: ps) ++ [x])).
  rewrite IH by discriminate.
  change (join sep (p :: q :: ps)) with (p ++ sep ++ join sep (q :: ps)).
  rewrite <- !app_assoc; reflexivity.
Qed.

Lemma truthy_app_l (a b : jsstring) : truthy a = true -> truthy (a ++ b) = true.
Proof. destruct a; [discriminate | reflexivity]. Qed.

Lemma entry_line_truthy (item : Transcription) :
  truthy (entry_line item) = true.
Proof. unfold entry_line; destruct (tr_timestamp item); reflexivity. Qed.

(** The joined entry lines are empty exactly for the empty list: every line
    holds at least the separating blank. *)
Lemma joined_lines_truthy (items : list Transcription) :
  truthy (join [newline] (map entry_line items))
  = negb (List.length items =? 0)%nat.
Proof.
  destruct items as [|item items]; [reflexivity|].
  cbn [map List.length Nat.eqb negb].
  destruct items as [|item' items]; cbn [map join].
  - apply entry_line_truthy.
  - apply truthy_app_l, entry_line_truthy.
Qed.

(** C2 (amended).  [formattedText] is a function of the transcription
    list, the status and the clip duration, and of nothing else.  When the
    status is 'success' its value is the lines "timestamp text" of the
    entries, in order, followed by the line "clip length " and the
    formatted duration, all joined by newlines; for the empty list that is
    exactly the clip-length line.  For every other status its value is the
    empty string.  Filling the transcript box from it changes none of its
    inputs, and a render in which nothing changed leaves the state as it
    is. *)
Theorem formattedText_lines (items : list Transcription) (st : AppStatus)
    (videoDuration : option number) :
  formattedText items st videoDuration
  = (if AppStatus_eqb st Success
     then join [newline]
               (map entry_line items ++ [clip_length_line videoDuration])
     else [])
  /\ formattedText [] Success videoDuration = clip_length_line videoDuration
  /\ (forall before after,
        formattedText_of (populateEditableText before after)
        = formattedText_of after)
  /\ (forall s, populateEditableText s s = s).
Proof.
  split; [|split; [reflexivity|split]].
  - unfold formattedText.
    destruct (AppStatus_eqb st Success); [|reflexivity]; cbn [negb].
    fold entry_line; fold (clip_length_line videoDuration).
    rewrite joined_lines_truthy.
    destruct items as [|item items]; [reflexivity|].
    cbn [List.length Nat.eqb negb].
    rewrite join_snoc by discriminate; reflexivity.
  - intros before after; unfold populateEditableText.
    destruct (_ && _); reflexivity.
  - intros s; unfold populateEditableText.
    rewrite jsstring_eqb_refl.
    destruct (status s); reflexivity.
Qed.

(** C2, as stated, fails outside the 'success' status: with no entries and
    a clip of 130 seconds the value is the empty string, not the
    clip-length line. *)
Lemma formattedText_empty_before_success :
  formattedText [] Idle (Some (Num (inject_Z 130))) = []
  /\ formattedText [] Idle (Some (Num (inject_Z 130)))
     <> str "clip length 02:10"
  /\ clip_length_line (Some (Num (inject_Z 130))) = str "clip length 02:10".
Proof. repeat split; vm_compute; discriminate. Qed.

(* ================================================================== *)
(** * Properties: the end-to-end scenario *)
(* ================================================================== *)

Lemma extractFramesFromVideo_fuel_mono (fuel fuel' : nat) (context : bool)
    (video : VideoElement) (sampled : SamplerRun) :
  (fuel <= fuel')%nat ->
  extractFramesFromVideo fuel context video = Some sampled ->
  extractFramesFromVideo fuel' context video = Some sampled.
Proof.
  intros Hle; unfold extractFramesFromVideo.
  destruct (negb context); [auto|].
  apply captureFrame_fuel_mono; exact Hle.
Qed.

Lemma clip130_analysis (picture : Q -> jsstring) :
  exists analysis,
    analyzeVideoForText 67 true (clip130 picture) hello_world = Some analysis
    /\ extractFramesFromVideo 67 true (clip130 picture)
       = Some (mkSamplerRun (Resolved (frames130 picture))
                 (map (fun c => progress_of c (Finite (inject_Z 130)))
                      cursors130)
                 cursors130)
    /\ ar_requests analysis
       = [mkAiRequest (str "gemini-2.5-pro") TranscriptionPrompt
                      (image_parts_of (frames130 picture))]
    /\ ar_outcome analysis
       = Resolved [mkTranscription (str "00:00") (str "HELLO");
                   mkTranscription (str "00:04") (str "WORLD")]
    /\ forall file newUrl dom,
         let events := session file newUrl dom analysis in
         let final := fst (run initialState events) in
         let pending := fst (run initialState (removelast events)) in
         events
         = before_analysis file newUrl
           ++ Click AnalyzeBtn dom
           :: map (fun report => AnalysisProgress (fst report) (snd report))
                  (tl (ar_progress analysis))
           ++ [AnalysisSettled (ar_outcome analysis)]
         /\ snd (run initialState events)
            = [Await AwMetadata; StartAnalysis; Await AwAnalysis]
         /\ status pending = Processing
         /\ progress pending
            = mkProgress (str "Processing results...") None
         /\ status final = Success
         /\ transcriptions final
            = [mkTranscription (str "00:00") (str "HELLO");
               mkTranscription (str "00:04") (str "WORLD")]
         /\ editableText final
            = join [newline] [str "00:00 HELLO"; str "00:04 WORLD";
                              str "clip length 02:10"].
Proof.
  eexists; split; [vm_compute; reflexivity|].
  split; [vm_compute; reflexivity|].
  split; [vm_compute; reflexivity|split; [reflexivity|]].
  intros file newUrl dom; cbv zeta.
  split; [reflexivity|].
  do 5 (split; [vm_compute; reflexivity|]); vm_compute; reflexivity.
Qed.

(** C5.  A video of 130 seconds is loaded and analysed, the sampling
    interval being 2 seconds, and the AI service answers the batch request
    with the raw results (0, "HELLO") and (4, "WORLD").  Whatever the
    pictures, the file and its URL, and with any fuel that lets the 66
    sampling rounds finish: the click on Analyze, on the page with the
    video loaded, starts the analysis and puts the component into the
    'processing' status with an empty transcript; the sampler seeks to 0,
    2, ..., 130 and resolves with the 66 frames taken there; the analysis
    sends a single request, carrying these 66 frames in order, and
    resolves with the entries ("00:00", "HELLO") and ("00:04", "WORLD");
    the component stays in 'processing' through the progress reports; and
    when the analysis has settled the session ends in the 'success' status
    with these entries, and the transcript box holds the three lines
    "00:00 HELLO", "00:04 WORLD" and "clip length 02:10", joined by
    newlines. *)
Theorem end_to_end_transcript (fuel : nat) (picture : Q -> jsstring)
    (file : File) (newUrl : Url) (dom : Dom) :
  (66 < fuel)%nat ->
  exists analysis,
    analyzeVideoForText fuel true (clip130 picture) hello_world
    = Some analysis
    /\ extractFramesFromVideo fuel true (clip130 picture)
       = Some (mkSamplerRun (Resolved (frames130 picture))
                 (map (fun c => progress_of c (Finite (inject_Z 130)))
                      cursors130)
                 cursors130)
    /\ cursors130 = map (fun i => 2 * Z.of_nat i) (seq 0 66)
    /\ frames130 picture
       = map (fun c => mkVideoFrame c (picture (inject_Z c))) cursors130
    /\ ar_requests analysis
       = [mkAiRequest (str "gemini-2.5-pro") TranscriptionPrompt
                      (map (fun frame =>
                              mkInlineData (str "image/jpeg")
                                           (vf_imageData frame))
                           (frames130 picture))]
    /\ ar_outcome analysis
       = Resolved [mkTranscription (formatTimestamp (Num (inject_Z 0)))
                                   (str "HELLO");
                   mkTranscription (formatTimestamp (Num (inject_Z 4)))
                                   (str "WORLD")]
    /\ formatTimestamp (Num (inject_Z 0)) = str "00:00"
    /\ formatTimestamp (Num (inject_Z 4)) = str "00:04"
    /\ formatDuration (Some (Num (inject_Z 130))) = str "02:10"
    /\ (let loaded := fst (run initialState (before_analysis file newUrl)) in
        let clicked := step loaded (Click AnalyzeBtn dom) in
        status loaded = Idle
        /\ snd clicked = [StartAnalysis; Await AwAnalysis]
        /\ status (fst clicked) = Processing
        /\ editableText (fst clicked) = [])
    /\ (let events := session file newUrl dom analysis in
        let final := fst (run initialState events) in
        let pending := fst (run initialState (removelast events)) in
        events
        = before_analysis file newUrl
          ++ Click AnalyzeBtn dom
          :: map (fun report => AnalysisProgress (fst report) (snd report))
                 (tl (ar_progress analysis))
          ++ [AnalysisSettled (ar_outcome analysis)]
        /\ snd (run initialState events)
           = [Await AwMetadata; StartAnalysis; Await AwAnalysis]
        /\ status pending = Processing
        /\ progress pending = mkProgress (str "Processing results...") None
        /\ status final = Success
        /\ transcriptions final
           = [mkTranscription (str "00:00") (str "HELLO");
              mkTranscription (str "00:04") (str "WORLD")]
        /\ editableText final
           = join [newline] [str "00:00 HELLO"; str "00:04 WORLD";
                             str "clip length 02:10"]).
Proof.
  intros Hfuel.
  destruct (clip130_analysis picture)
    as (analysis & Hrun & Hsampler & Hreq & Hout & Hfinal).
  exists analysis.
  split; [eapply analyzeVideoForText_fuel_mono; [|exact Hrun]; lia|].
  split; [eapply extractFramesFromVideo_fuel_mono; [|exact Hsampler]; lia|].
  split; [reflexivity|]; split; [reflexivity|].
  split; [exact Hreq|].
  split; [exact Hout|].
  do 3 (split; [reflexivity|]).
  split; [|exact (Hfinal file newUrl dom)].
  cbv zeta; do 3 (split; [vm_compute; reflexivity|]); vm_compute; reflexivity.
Qed.

Lemma end_to_end_transcript_witness :
  exists analysis,
    analyzeVideoForText 67 true (clip130 (fun _ => str "jpeg")) hello_world
    = Some analysis
    /\ List.length (ar_requests analysis) = 1%nat
    /\ editableText
         (fst (run initialState
                   (session (mkFile (str "clip.mp4")) 1%nat
                            (mkDom true (Num 0) [] 0 0) analysis)))
       = join [newline] [str "00:00 HELLO"; str "00:04 WORLD";
                         str "clip length 02:10"].
Proof.
  assert (Hfuel : (66 < 67)%nat) by lia.
  destruct (@end_to_end_transcript 67 (fun _ => str "jpeg")
              (mkFile (str "clip.mp4")) 1%nat (mkDom true (Num 0) [] 0 0)
              Hfuel)
    as (analysis & Hrun & _ & _ & _ & Hreq & _ & _ & _ & _ & _ & Hfinal).
  cbv zeta in Hfinal.
  destruct Hfinal as (_ & _ & _ & _ & _ & _ & Htext).
  exists analysis; split; [exact Hrun|].
  split; [rewrite Hreq; reflexivity | exact Htext].
Defined.

(* ================================================================== *)
(** * Properties: timestamp insertion *)
(* ================================================================== *)

Lemma len_app (a b : jsstring) : len (a ++ b) = len a + len b.
Proof. unfold len; rewrite length_app; lia. Qed.

Lemma len_nonneg (a : jsstring) : 0 <= len a.
Proof. unfold len; lia. Qed.

Lemma substring_ordered (a b : Z) (s : jsstring) :
  0 <= a <= b -> b <= len s ->
  substring a b s
  = firstn (Z.to_nat (b - a)) (skipn (Z.to_nat a) s).
Proof.
  intros Hab Hb; unfold substring, clamp.
  replace (Z.min (Z.max a 0) (len s)) with a by lia.
  replace (Z.min (Z.max b 0) (len s)) with b by lia.
  rewrite Z.max_r, Z.min_l by lia; reflexivity.
Qed.

Lemma substring_prefix (n : Z) (s : jsstring) :
  0 <= n <= len s -> substring 0 n s = firstn (Z.to_nat n) s.
Proof.
  intros Hn; rewrite substring_ordered by lia.
  rewrite Z.sub_0_r; reflexivity.
Qed.

Lemma substring_from_suffix (n : Z) (s : jsstring) :
  0 <= n <= len s -> substring_from n s = skipn (Z.to_nat n) s.
Proof.
  intros Hn; unfold substring_from; rewrite substring_ordered by lia.
  apply firstn_all2; rewrite length_skipn; unfold len in *; lia.
Qed.

Lemma last_index_in_absent (c : ascii) (l : jsstring) :
  ~ In c l -> last_index_in c l = None.
Proof.
  induction l as [|x l IH]; [reflexivity|]; intros Hno; cbn [last_index_in].
  rewrite IH by (intros H; apply Hno; right; exact H).
  destruct (Ascii.eqb x c) eqn:Hx; [|reflexivity].
  apply Ascii.eqb_eq in Hx; subst; exfalso; apply Hno; left; reflexivity.
Qed.

Lemma last_index_in_app_absent (c : ascii) (l1 l2 : jsstring) :
  ~ In c l2 -> last_index_in c (l1 ++ l2) = last_index_in c l1.
Proof.
  intros Hno; induction l1 as [|x l1 IH]; cbn [app last_index_in].
  - apply last_index_in_absent; exact Hno.
  - rewrite IH; reflexivity.
Qed.

Lemma last_index_in_last (c : ascii) (l : jsstring) :
  last_index_in c (l ++ [c]) = Some (List.length l).
Proof.
  induction l as [|x l IH]; cbn [app last_index_in List.length].
  - rewrite Ascii.eqb_refl; reflexivity.
  - rewrite IH; reflexivity.
Qed.

Lemma index_in_app_absent (c : ascii) (l1 l2 : jsstring) :
  ~ In c l1 ->
  index_in c (l1 ++ l2)
  = option_map (Nat.add (List.length l1)) (index_in c l2).
Proof.
  induction l1 as [|x l1 IH]; intros Hno; cbn [app index_in List.length].
  - destruct (index_in c l2); reflexivity.
  - destruct (Ascii.eqb x c) eqn:Hx.
    + apply Ascii.eqb_eq in Hx; subst; exfalso; apply Hno; left; reflexivity.
    + rewrite IH by (intros H; apply Hno; right; exact H).
      destruct (index_in c l2); reflexivity.
Qed.

Lemma absent_firstn (c : ascii) (n : nat) (l : jsstring) :
  ~ In c l -> ~ In c (firstn n l).
Proof.
  intros Hno Hin; apply Hno.
  rewrite <- (firstn_skipn n l); apply in_or_app; left; exact Hin.
Qed.

Lemma absent_skipn (c : ascii) (n : nat) (l : jsstring) :
  ~ In c l -> ~ In c (skipn n l).
Proof.
  intros Hno Hin; apply Hno.
  rewrite <- (firstn_skipn n l); apply in_or_app; right; exact Hin.
Qed.

Lemma firstn_exact {A : Type} (l1 l2 : list A) :
  firstn (List.length l1) (l1 ++ l2) = l1.
Proof. induction l1 as [|x l1 IH]; cbn; [destruct l2|rewrite IH]; reflexivity. Qed.

Lemma skipn_exact {A : Type} (l1 l2 : list A) :
  skipn (List.length l1) (l1 ++ l2) = l2.
Proof. induction l1 as [|x l1 IH]; cbn; auto. Qed.

Lemma skipn_two {A : Type} (l1 l2 l3 : list A) :
  skipn (List.length l1 + List.length l2) (l1 ++ l2 ++ l3) = l3.
Proof.
  rewrite <- length_app, app_assoc; apply skipn_exact.
Qed.

Section CursorLine.

Variables (before line after : jsstring) (cursor : Z).
Hypothesis Hcl : cursor_line before line after cursor.

Let text := before ++ line ++ after.

Lemma line_start_found :
  1 <= cursor -> lastIndexOf newline (cursor - 1) text + 1 = len before.
Proof.
  intros Hpos; destruct Hcl as [Hb Hl _ Hc].
  pose proof (len_nonneg before); pose proof (len_nonneg after).
  assert (Hlen : len text = len before + len line + len after).
  { unfold text; rewrite !len_app; lia. }
  unfold lastIndexOf, clamp.
  replace (Z.min (Z.max (cursor - 1) 0) (len text - 1)) with (cursor - 1)
    by lia.
  destruct (cursor - 1 <? 0) eqn:Hneg; [apply Z.ltb_lt in Hneg; lia|].
  replace (Z.to_nat (cursor - 1) + 1)%nat
    with (List.length before + Z.to_nat (cursor - len before))%nat
    by (unfold len in *; lia).
  unfold text; rewrite firstn_app_2, firstn_app.
  replace (Z.to_nat (cursor - len before) - List.length line)%nat
    with O by (unfold len in *; lia).
  cbn [firstn]; rewrite app_nil_r.
  rewrite last_index_in_app_absent by (apply absent_firstn; exact Hl).
  destruct Hb as [-> | (b & ->)]; [reflexivity|].
  rewrite last_index_in_last; unfold len; rewrite length_app.
  cbn [List.length]; lia.
Qed.

Lemma next_newline_found :
  indexOf newline cursor text
  = match after with [] => -1 | _ :: _ => len before + len line end.
Proof.
  destruct Hcl as [_ Hl Ha Hc].
  pose proof (len_nonneg before); pose proof (len_nonneg after);
    pose proof (len_nonneg line).
  assert (Hlen : len text = len before + len line + len after).
  { unfold text; rewrite !len_app; lia. }
  unfold indexOf, clamp.
  replace (Z.min (Z.max cursor 0) (len text)) with cursor by lia.
  replace (Z.to_nat cursor)
    with (List.length before + Z.to_nat (cursor - len before))%nat
    by (unfold len in *; lia).
  unfold text; rewrite skipn_app.
  rewrite skipn_all2 by lia.
  replace (List.length before + Z.to_nat (cursor - len before)
           - List.length before)%nat
    with (Z.to_nat (cursor - len before)) by lia.
  cbn [app]; rewrite skipn_app.
  replace (Z.to_nat (cursor - len before) - List.length line)%nat
    with O by (unfold len in *; lia).
  cbn [skipn].
  rewrite index_in_app_absent by (apply absent_skipn; exact Hl).
  rewrite length_skipn.
  destruct Ha as [-> | (a & ->)]; cbn [index_in option_map];
    [reflexivity|].
  rewrite Ascii.eqb_refl; cbn [option_map].
  unfold len in *; lia.
Qed.

Lemma line_end_found :
  (let found := indexOf newline cursor text in
   if found =? -1 then len text else found) = len before + len line.
Proof.
  cbv zeta; rewrite next_newline_found.
  destruct Hcl as [_ _ Ha _].
  pose proof (len_nonneg before); pose proof (len_nonneg line).
  destruct Ha as [-> | (a & ->)].
  - cbn [Z.eqb]; unfold text; rewrite app_nil_r, len_app; reflexivity.
  - destruct (len before + len line =? -1) eqn:Hm; [|reflexivity].
    apply Z.eqb_eq in Hm; lia.
Qed.

End CursorLine.

Lemma AppStatus_eqb_refl (a : AppStatus) : AppStatus_eqb a a = true.
Proof. destruct a; reflexivity. Qed.

(** A render in which neither the formatted text nor the status changed
    leaves the transcript box alone. *)
Lemma populate_same_inputs (before after : AppState) :
  transcriptions after = transcriptions before ->
  status after = status before ->
  videoDuration after = videoDuration before ->
  populateEditableText before after = after.
Proof.
  intros Ht Hs Hd; unfold populateEditableText, formattedText_of.
  rewrite Ht, Hs, Hd, jsstring_eqb_refl, AppStatus_eqb_refl; reflexivity.
Qed.

Section InsertTimestamp.

Variables (s : AppState) (dom : Dom) (before line after : jsstring).

Let text := before ++ line ++ after.
Let ts := formatDuration (Some (videoCurrentTime s)).
Let selStart := dom_selectionStart dom.
Let selEnd := dom_selectionEnd dom.

Hypothesis Href : textareaRef s = true.
Hypothesis Htext : editableText s = text.
Hypothesis Hcl : cursor_line before line after selStart.
Hypothesis Hsel : selStart <= selEnd <= len text.

(** The line the handler cuts out is the line around the cursor, except
    with the cursor at position 0 of a text that starts with a newline,
    where it cuts out that newline; neither that nor the empty line starts
    with a timestamp. *)
Lemma current_line_cut :
  let lineStartIndex := lastIndexOf newline (selStart - 1) text + 1 in
  let lineEndIndex := len before + len line in
  timestampRegex_test (substring lineStartIndex lineEndIndex text)
  = timestampRegex_test line
  /\ (timestampRegex_test line = true ->
      lineStartIndex = len before
      /\ substring lineStartIndex lineEndIndex text = line).
Proof.
  pose proof (len_nonneg before) as Hb0; pose proof (len_nonneg line) as Hl0;
    pose proof (len_nonneg after) as Ha0.
  assert (Hlen : len text = len before + len line + len after).
  { unfold text; rewrite !len_app; lia. }
  assert (Hmid : substring (len before) (len before + len line) text = line).
  { rewrite substring_ordered by lia.
    unfold text, len; rewrite Nat2Z.id, skipn_app, skipn_all, Nat.sub_diag.
    cbn [app skipn].
    replace (Z.to_nat _) with (List.length line) by lia.
    rewrite firstn_app, firstn_all, Nat.sub_diag; cbn [firstn].
    apply app_nil_r. }
  cbv zeta.
  destruct (Z.le_gt_cases 1 selStart) as [Hpos | Hzero].
  - assert (Hstart : lastIndexOf newline (selStart - 1) text + 1
                     = len before)
      by (apply line_start_found; assumption).
    rewrite Hstart, Hmid; split; [reflexivity | intros _; split; reflexivity].
  - destruct Hcl as [Hbefore Hline Hafter Hcur].
    assert (HB : before = []).
    { destruct before; [reflexivity|].
      unfold len in Hcur; cbn [List.length] in Hcur; lia. }
    assert (H0 : selStart = 0) by (unfold len in *; lia).
    rewrite H0.
    destruct line as [|c l'] eqn:Hline_eq.
    + (* the empty line *)
      split; [|discriminate].
      unfold text; rewrite HB; cbn [app].
      destruct Hafter as [-> | (a & ->)]; [reflexivity|].
      pose proof (len_nonneg a) as Hna.
      assert (Hl1 : len (newline :: a) = len a + 1)
        by (unfold len; cbn [List.length]; lia).
      unfold lastIndexOf, substring, clamp; rewrite Hl1.
      replace (Z.min (Z.max (0 - 1) 0) (len a + 1 - 1)) with 0 by lia.
      cbn [Z.ltb Z.compare Z.to_nat Nat.add firstn last_index_in].
      rewrite Ascii.eqb_refl.
      cbn [Z.of_nat Z.add len List.length Pos.add].
      replace (Z.min (Z.max 1 0) (len a + 1)) with 1 by lia.
      replace (Z.min (Z.max 0 0) (len a + 1)) with 0 by lia.
      reflexivity.
    + assert (Hc : Ascii.eqb c newline = false).
      { apply not_true_is_false; intros Heq; apply Ascii.eqb_eq in Heq.
        apply Hline; left; exact Heq. }
      assert (Hstart : lastIndexOf newline (0 - 1) text + 1 = len before).
      { unfold text; rewrite HB; unfold lastIndexOf, clamp, len.
        cbn [app List.length].
        replace (Z.min (Z.max (0 - 1) 0)
                       (Z.of_nat (S (List.length (l' ++ after))) - 1))
          with 0 by lia.
        cbn [Z.ltb Z.compare Z.to_nat Nat.add firstn last_index_in].
        rewrite Hc; reflexivity. }
      rewrite Hstart, Hmid; split; [reflexivity|intros _; split; reflexivity].
Qed.

Lemma handleInsertTimestamp_outcome :
  handleInsertTimestamp dom s
  = if timestampRegex_test line
    then (setEditableText (before ++ (ts ++ skipn 5 line) ++ after) s,
          [FocusAt (len before + len ts)])
    else (setEditableText
            (firstn (Z.to_nat selStart) text ++ ts
             ++ skipn (Z.to_nat selEnd) text) s,
          [FocusAt (selStart + len ts)]).
Proof.
  pose proof (len_nonneg before) as Hb0; pose proof (len_nonneg line) as Hl0;
    pose proof (len_nonneg after) as Ha0.
  assert (Hlen : len text = len before + len line + len after).
  { unfold text; rewrite !len_app; lia. }
  assert (Hcur : len before <= selStart <= len before + len line)
    by (destruct Hcl; assumption).
  unfold handleInsertTimestamp; rewrite Href; cbn [negb]; cbv zeta.
  rewrite Htext; fold selStart selEnd ts.
  pose proof (line_end_found Hcl) as Hend; cbv zeta in Hend; fold text in Hend.
  rewrite Hend.
  destruct current_line_cut as [Htest Hcut]; cbv zeta in Htest, Hcut.
  rewrite Htest.
  destruct (timestampRegex_test line) eqn:Hline.
  - destruct (Hcut eq_refl) as [Hstart Hmid].
    rewrite Hmid, Hstart.
    unfold timestampRegex_replace; rewrite Hline.
    rewrite substring_prefix, substring_from_suffix by lia.
    unfold text, len.
    rewrite Nat2Z.id, firstn_exact.
    replace (Z.to_nat (Z.of_nat (List.length before)
                       + Z.of_nat (List.length line)))
      with (List.length before + List.length line)%nat by lia.
    rewrite skipn_two; reflexivity.
  - rewrite substring_prefix, substring_from_suffix by lia.
    reflexivity.
Qed.

End InsertTimestamp.



Lemma textareaRef_resultPanel (s : AppState) :
  textareaRef s = true -> resultPanel s = true.
Proof. unfold textareaRef; intros H; apply andb_true_iff in H; tauto. Qed.

Lemma selection_in_line (before line after : jsstring) (a b : Z) :
  len before <= a -> a <= b -> b <= len before + len line ->
  forall ts : jsstring,
    firstn (Z.to_nat a) (before ++ line ++ after) ++ ts
    ++ skipn (Z.to_nat b) (before ++ line ++ after)
    = before
      ++ (firstn (Z.to_nat (a - len before)) line ++ ts
          ++ skipn (Z.to_nat (b - len before)) line)
      ++ after.
Proof.
  intros Ha Hab Hb ts; unfold len in *.
  replace (Z.to_nat a)
    with (List.length before
          + Z.to_nat (a - Z.of_nat (List.length before)))%nat by lia.
  replace (Z.to_nat b)
    with (List.length before
          + Z.to_nat (b - Z.of_nat (List.length before)))%nat by lia.
  rewrite firstn_app_2, skipn_app, skipn_all2 by lia.
  replace (List.length before
           + Z.to_nat (b - Z.of_nat (List.length before))
           - List.length before)%nat
    with (Z.to_nat (b - Z.of_nat (List.length before))) by lia.
  rewrite firstn_app, skipn_app.
  replace (Z.to_nat (a - Z.of_nat (List.length before))
           - List.length line)%nat with O by lia.
  replace (Z.to_nat (b - Z.of_nat (List.length before))
           - List.length line)%nat with O by lia.
  cbn [firstn skipn app]; rewrite app_nil_r, <- !app_assoc; reflexivity.
Qed.



(* ================================================================== *)
(** * Properties: busy flags *)
(* ================================================================== *)

Lemma populate_unchanged (s : AppState) : populateEditableText s s = s.
Proof. apply populate_same_inputs; reflexivity. Qed.

Lemma step_unchanged (s : AppState) (e : Event) :
  handle e s = unchanged s -> step s e = (s, []).
Proof.
  intros H; unfold step; rewrite H; unfold unchanged.
  rewrite populate_unchanged; reflexivity.
Qed.

(** C6.  While one of the busy flags [isCapturing], [isEditing],
    [isCapturingFrame], [isReWriting], [isReWritingFromPopup] is set, a
    click on any button that starts an AI operation does nothing: the state
    of the component is the same afterwards and the step has no effect at
    all, so no request is sent and no handler is left waiting.  The buttons
    for capture text, re-write, the quick edits and apply edit are disabled
    by [isAnyTaskRunning]; the size buttons of the popup are stopped by the
    guard of their handler. *)
Theorem busy_click_is_noop (s : AppState) (b : Button) (dom : Dom) :
  isAnyTaskRunning s = true ->
  ai_trigger b = true ->
  step s (Click b dom) = (s, []).
Proof.
  intros Hbusy Htrigger; apply step_unchanged.
  unfold handle, clickable.
  destruct b; try discriminate Htrigger; cbn [disabled onClick].
  - (* capture text *)
    rewrite Hbusy, andb_false_r; reflexivity.
  - (* re-write frame *)
    rewrite Hbusy, andb_false_r; reflexivity.
  - (* a size of the popup *)
    unfold handleReWriteFromPopup; rewrite Hbusy, orb_true_r.
    destruct (rendered s (ReWriteSizeBtn size) && negb false); reflexivity.
  - (* quick edit *)
    rewrite Hbusy, andb_false_r; reflexivity.
  - (* apply edit *)
    rewrite Hbusy, orb_true_r, andb_false_r; reflexivity.
Qed.

Lemma busy_click_is_noop_witness :
  isCapturing capturing = true
  /\ clickable capturing (ReWriteSizeBtn 150) = true
  /\ step capturing (Click (ReWriteSizeBtn 150) plain_page) = (capturing, [])
  /\ step capturing (Click (QuickEditBtn LOGO) plain_page) = (capturing, []).
Proof.
  assert (Hbusy : isAnyTaskRunning capturing = true)
    by (vm_compute; reflexivity).
  split; [vm_compute; reflexivity|].
  split; [vm_compute; reflexivity|].
  split.
  - apply (@busy_click_is_noop capturing (ReWriteSizeBtn 150) plain_page
             Hbusy eq_refl).
  - apply (@busy_click_is_noop capturing (QuickEditBtn LOGO) plain_page
             Hbusy eq_refl).
Defined.

(** Without a busy flag the click on Capture Text sends its request.  The
    guard inside [handleCaptureText] looks at [isCapturing] alone: called
    on a state where only [isEditing] is set the handler would send a
    request too, and it is the disabled button that stops the click
    there. *)
Lemma idle_click_starts :
  let editing := ready |> setIsEditing true in
  isAnyTaskRunning ready = false
  /\ snd (step ready (Click CaptureTextBtn plain_page))
     = [AiCall (processFrame_request (str "frame")); Await AwCaptureTextAi]
  /\ isAnyTaskRunning editing = true
  /\ snd (handleCaptureText plain_page editing)
     = [AiCall (processFrame_request (str "frame")); Await AwCaptureTextAi]
  /\ step editing (Click CaptureTextBtn plain_page) = (editing, []).
Proof.
  cbv zeta; do 4 (split; [vm_compute; reflexivity|]); vm_compute; reflexivity.
Qed.

(* ================================================================== *)
(** * Properties: the status *)
(* ================================================================== *)

Lemma populate_cases (before after : AppState) :
  populateEditableText before after = after
  \/ populateEditableText before after
     = setEditableText (formattedText_of after) after.
Proof. unfold populateEditableText; destruct (_ && _); auto. Qed.

Lemma status_populate (before after : AppState) :
  status (populateEditableText before after) = status after.
Proof. destruct (populate_cases before after) as [-> | ->]; reflexivity. Qed.

Ltac split_branches :=
  repeat match goal with
    | |- context [if ?c then _ else _] => destruct c
    | |- context [match ?x with Some _ => _ | None => _ end] => destruct x
    | |- context [match ?x with Resolved _ => _ | Rejected _ => _ end] =>
        destruct x
    | |- context [let (_, _) := ?p in _] => destruct p
    end.

(** The handlers that never write the status. *)
Lemma status_handleInsertTimestamp (dom : Dom) (s : AppState) :
  status (fst (handleInsertTimestamp dom s)) = status s.
Proof.
  unfold handleInsertTimestamp; cbv zeta.
  destruct (negb (textareaRef s)); [reflexivity|].
  destruct (timestampRegex_test _); reflexivity.
Qed.

Lemma status_onClick (b : Button) (dom : Dom) (s : AppState) :
  b <> AnalyzeBtn -> status (fst (onClick b dom s)) = status s.
Proof.
  intros Hb; destruct b; try congruence; cbn [onClick];
    try apply status_handleInsertTimestamp;
    unfold handleSendApiKey, handleCopyApiKey, handleClearApiKey,
      handleCaptureFrame, handleCaptureText, handleReWriteFrame,
      handleSeek, handleCopy, handleSave, handleSavePreviewImage,
      togglePopup, handleReWriteFromPopup, handleQuickEdit,
      handleManualPrompt, handleEditImage, performImageEdit,
      handleSaveEditedImage, handleEditAgain, unchanged;
    split_branches; reflexivity.
Qed.

(** C7 (amended).  The status changes in these steps and in no other: a
    click on Analyze with a video file loaded and the status not
    'processing' sets it to 'processing' (from 'idle', 'success' or
    'error'); an analysis that settles sets it to 'success' when it
    resolved and to 'error' when it failed, whatever the status has become
    meanwhile; a failed read of an imported text file sets it to 'error';
    the choice of a new video file sets it to 'idle' from any status,
    'processing' included.  Every other step of the component leaves the
    status as it is. *)
Theorem status_changes_only_by (s : AppState) (e : Event) :
  status (fst (step s e)) = status_after s e.
Proof.
  unfold step.
  destruct (handle e s) as [s1 effects] eqn:Hhandle; cbn [fst].
  rewrite status_populate.
  replace s1 with (fst (handle e s)) by (rewrite Hhandle; reflexivity).
  clear Hhandle s1 effects.
  destruct e; cbn [handle status_after].
  - reflexivity.
  - (* a click *)
    destruct (clickable s b) eqn:Hclick.
    + destruct b; try (apply status_onClick; discriminate).
      unfold clickable in Hclick; cbn [rendered disabled] in Hclick.
      rewrite Hclick; cbn [onClick]; unfold handleAnalyzeClick.
      apply andb_true_iff in Hclick; destruct Hclick as [Hfile _].
      destruct (videoFile s); [reflexivity | discriminate].
    + destruct b; try reflexivity.
      unfold clickable in Hclick; cbn [rendered disabled] in Hclick.
      rewrite Hclick; reflexivity.
  - unfold handleClickOutside; split_branches; reflexivity.
  - reflexivity.
  - split_branches; reflexivity.
  - split_branches; reflexivity.
  - split_branches; reflexivity.
  - destruct file; reflexivity.
  - destruct file; reflexivity.
  - destruct file; reflexivity.
  - reflexivity.
  - reflexivity.
  - reflexivity.
  - reflexivity.
  - reflexivity.
  - destruct outcome; reflexivity.
  - unfold apiKeyClipboardSettled; split_branches; reflexivity.
  - unfold clipboardSettled; split_branches; reflexivity.
  - reflexivity.
  - destruct blob; reflexivity.
  - unfold captureTextSettled; split_branches; reflexivity.
  - destruct blob; reflexivity.
  - destruct encoded; reflexivity.
  - unfold reWriteSettled; split_branches; reflexivity.
  - destruct origin; unfold editLoaded, editFinished; split_branches;
      reflexivity.
  - destruct origin; unfold editSettled, editFinished; split_branches;
      reflexivity.
  - unfold popupLoaded; split_branches; reflexivity.
  - unfold popupSettled; split_branches; reflexivity.
  - destruct fetched; reflexivity.
Qed.

(** C7, as stated, fails: after a successful analysis a second click on
    Analyze takes the status from 'success' to 'processing', and a new
    video file chosen during an analysis takes it from 'processing' to
    'idle'; the specification lists neither transition. *)
Lemma status_leaves_the_listed_transitions :
  let file := mkFile (str "clip.mp4") in
  let dom := mkDom true (Num 0) [] 0 0 in
  let analysed :=
    fst (run initialState
             [VideoFileChange (Some file) 1%nat; Click AnalyzeBtn dom;
              AnalysisSettled (Resolved [])]) in
  let analysing :=
    fst (run initialState
             [VideoFileChange (Some file) 1%nat; Click AnalyzeBtn dom]) in
  (reachable analysed
   /\ status analysed = Success
   /\ status (fst (step analysed (Click AnalyzeBtn dom))) = Processing
   /\ listed_transition Success Processing = false)
  /\ (reachable analysing
      /\ status analysing = Processing
      /\ status (fst (step analysing
                           (VideoFileChange (Some file) 2%nat))) = Idle
      /\ listed_transition Processing Idle = false).
Proof.
  cbv zeta; split; (split; [eexists; reflexivity|]); repeat split.
Qed.

(* ================================================================== *)
(** * Properties: errors at the operation boundary *)
(* ================================================================== *)

Lemma error_populate (before after : AppState) :
  error (populateEditableText before after) = error after.
Proof. destruct (populate_cases before after) as [-> | ->]; reflexivity. Qed.

Lemma busy_populate (op : Operation) (before after : AppState) :
  busy op (populateEditableText before after) = busy op after.
Proof.
  destruct (populate_cases before after) as [-> | ->]; destruct op;
    reflexivity.
Qed.

Lemma isCapturingFrame_populate (before after : AppState) :
  isCapturingFrame (populateEditableText before after)
  = isCapturingFrame after.
Proof. destruct (populate_cases before after) as [-> | ->]; reflexivity. Qed.

Lemma handled_nil : handled [].
Proof. intros reason []. Qed.

Lemma handled_download (a : Artifact) : handled [Download a].
Proof. intros reason [H | []]; discriminate. Qed.

Lemma clickable_video (s : AppState) (b : Button) :
  (b = CaptureTextBtn \/ b = ReWriteBtn \/ b = CaptureFrameBtn) ->
  clickable s b = true ->
  videoRef s = true /\ isAnyTaskRunning s = false.
Proof.
  intros Hb; unfold clickable, videoRef.
  destruct Hb as [-> | [-> | ->]]; cbn [rendered disabled]; intros H;
    apply andb_true_iff in H; destruct H as [H1 H2];
    apply negb_true_iff in H2; auto.
Qed.

Lemma not_running (s : AppState) :
  isAnyTaskRunning s = false ->
  isCapturing s = false /\ isEditing s = false
  /\ isCapturingFrame s = false /\ isReWriting s = false
  /\ isReWritingFromPopup s = false.
Proof.
  unfold isAnyTaskRunning; intros H.
  repeat (apply orb_false_iff in H; destruct H as [H ?]); auto.
Qed.

Lemma recovered_image_ending (op : Operation) (image : Settled jsstring)
    (fetched : Settled Url)
    (failed : jsstring -> Outcome) (done : Url -> Outcome) :
  (forall msg, recovered op (Failed msg) (fst (failed msg))
                         (snd (failed msg))) ->
  (forall url, recovered op Completed (fst (done url)) (snd (done url))) ->
  let outcome :=
    match image with
    | Rejected msg => failed msg
    | Resolved _ =>
        match fetched with
        | Rejected msg => failed msg
        | Resolved url => done url
        end
    end in
  recovered op (image_ending image fetched) (fst outcome) (snd outcome).
Proof.
  intros Hfailed Hdone; cbv zeta; unfold image_ending.
  destruct image; [destruct fetched|]; auto.
Qed.

Lemma recovered_step (op : Operation) (how : Ending) (s : AppState)
    (e : Event) :
  recovered op how (fst (handle e s)) (snd (handle e s)) ->
  recovered op how (fst (step s e)) (snd (step s e)).
Proof.
  unfold step; destruct (handle e s) as [s1 effects]; cbn [fst snd].
  unfold recovered; rewrite busy_populate, error_populate; auto.
Qed.

Ltac solve_recovered :=
  unfold recovered; cbn [fst snd]; split; [reflexivity|];
  split;
  [ intros msg' Hhow;
    first [discriminate Hhow | injection Hhow as <-; reflexivity]
  | first [apply handled_nil | apply handled_download] ].

(** C9 (amended).  Each of the operations whose body is wrapped in
    [try]/[catch] - the analysis, capture text, re-write frame, the image
    edit (typed or quick) and the popup re-write - ends, on its normal path
    and for every error raised inside it, with its busy flag cleared (for
    the analysis: with the status no longer 'processing') and without an
    unhandled rejection; when it ended with an error, the error message of
    the state is the message of that error, or the fixed message of the
    operation when the error has none.  A capture of a frame that fails,
    for want of a drawing context or of a blob, also ends with its flag
    cleared, and stores no message: the error message of the state is the
    one from before. *)
Theorem errors_recovered_where_caught (s : AppState) (e : Event) :
  (forall op how,
      ending s e = Some (op, how) ->
      recovered op how (fst (step s e)) (snd (step s e)))
  /\ (frame_capture_fails s e = true ->
      isCapturingFrame (fst (step s e)) = false
      /\ error (fst (step s e)) = error s
      /\ handled (snd (step s e))).
Proof.
  split.
  - intros op how Hend; apply recovered_step.
    destruct e; cbn [ending] in Hend; try discriminate Hend; cbn [handle].
    + (* clicks that fail at once: no drawing context *)
      destruct b; try discriminate Hend;
        match type of Hend with
        | (if ?c then _ else _) = _ =>
            destruct c eqn:Hc; [|discriminate Hend]
        end;
        injection Hend as <- <-;
        apply andb_true_iff in Hc; destruct Hc as [Hc Hctx];
        apply andb_true_iff in Hc; destruct Hc as [Hclick Hfile];
        rewrite Hclick; cbn [onClick];
        (destruct (@clickable_video s _ ltac:(auto) Hclick) as [Hvideo Hrun]);
        destruct (@not_running s Hrun) as (Hcap & _ & _ & _ & _).
      * unfold handleCaptureText.
        rewrite Hvideo, Hfile, Hcap, Hctx; cbn [negb orb].
        solve_recovered.
      * unfold handleReWriteFrame.
        rewrite Hvideo, Hfile, Hrun, Hctx; cbn [negb orb].
        solve_recovered.
    + destruct outcome; injection Hend as <- <-; solve_recovered.
    + injection Hend as <- <-; unfold captureTextSettled.
      apply recovered_image_ending; intros; solve_recovered.
    + destruct blob; [discriminate Hend|].
      injection Hend as <- <-; solve_recovered.
    + destruct encoded; [discriminate Hend|].
      injection Hend as <- <-; solve_recovered.
    + injection Hend as <- <-; unfold reWriteSettled.
      apply recovered_image_ending; intros; solve_recovered.
    + destruct loaded; [discriminate Hend|].
      injection Hend as <- <-; destruct origin; solve_recovered.
    + injection Hend as <- <-; unfold editSettled.
      apply recovered_image_ending; intros; destruct origin; solve_recovered.
    + destruct loaded; [discriminate Hend|].
      injection Hend as <- <-; solve_recovered.
    + injection Hend as <- <-; unfold popupSettled.
      apply recovered_image_ending; intros; solve_recovered.
  - intros Hfails; unfold step.
    destruct (handle e s) as [s1 effects] eqn:Hhandle; cbn [fst snd].
    rewrite isCapturingFrame_populate, error_populate.
    destruct e; cbn [frame_capture_fails] in Hfails; try discriminate Hfails;
      cbn [handle] in Hhandle.
    + destruct b; try discriminate Hfails.
      apply andb_true_iff in Hfails; destruct Hfails as [Hc Hctx].
      apply andb_true_iff in Hc; destruct Hc as [Hclick Hfile].
      destruct (@clickable_video s CaptureFrameBtn ltac:(auto) Hclick)
        as [Hvideo _].
      rewrite Hclick in Hhandle; cbn [onClick] in Hhandle.
      unfold handleCaptureFrame in Hhandle.
      rewrite Hvideo, Hfile, Hctx in Hhandle; cbn [negb orb] in Hhandle.
      injection Hhandle as <- <-.
      repeat split; apply handled_nil.
    + destruct blob; [discriminate Hfails|].
      cbn [frameBlob] in Hhandle; injection Hhandle as <- <-.
      repeat split; apply handled_nil.
Qed.

Lemma errors_recovered_where_caught_witness :
  let after := fst (step video_loaded (Click CaptureTextBtn no_context)) in
  ending video_loaded (Click CaptureTextBtn no_context)
  = Some (CaptureText, Failed (str "Could not get canvas context"))
  /\ isCapturing after = false
  /\ error after = Some (str "Could not get canvas context")
  /\ frame_capture_fails video_loaded (FrameBlob None (Num 0)) = true
  /\ isCapturingFrame
       (fst (step video_loaded (FrameBlob None (Num 0)))) = false.
Proof.
  destruct (errors_recovered_where_caught video_loaded
              (Click CaptureTextBtn no_context)) as [Hcaught _].
  destruct (Hcaught CaptureText
              (Failed (str "Could not get canvas context")) eq_refl)
    as (Hbusy & Herror & _).
  destruct (errors_recovered_where_caught video_loaded
              (FrameBlob None (Num 0))) as [_ Hframe].
  destruct (Hframe eq_refl) as (Hflag & _).
  cbv zeta; split; [reflexivity|].
  split; [exact Hbusy|].
  split; [exact (Herror _ eq_refl)|].
  split; [reflexivity | exact Hflag].
Defined.

(** C9, as stated, fails.  A capture of a frame that finds no drawing
    context ends without storing any message, where capture text stores
    one for the same failure; and the fetch of [handleEditAgain] lies
    outside any [try]: when it fails the error is neither caught nor
    stored, it leaves the handler as an unhandled rejection. *)
Lemma errors_not_all_caught_and_stored :
  (reachable video_loaded
   /\ clickable video_loaded CaptureFrameBtn = true
   /\ frame_capture_fails video_loaded (Click CaptureFrameBtn no_context)
      = true
   /\ error (fst (step video_loaded (Click CaptureFrameBtn no_context)))
      = None
   /\ error (fst (step video_loaded (Click CaptureTextBtn no_context)))
      = Some (str "Could not get canvas context"))
  /\ (reachable image_edited
      /\ step image_edited (Click EditAgainBtn no_context)
         = (image_edited, [Await AwEditAgainFetch])
      /\ step image_edited (EditAgainFetched (Rejected (str "Failed to fetch")))
         = (image_edited, [UnhandledRejection (str "Failed to fetch")])
      /\ error image_edited = None).
Proof.
  split.
  - split; [exists [VideoFileChange (Some (mkFile (str "clip.mp4"))) 1%nat];
            unfold video_loaded; reflexivity|].
    do 3 (split; [vm_compute; reflexivity|]); vm_compute; reflexivity.
  - split; [exists image_edited_events; unfold image_edited; reflexivity|].
    do 2 (split; [vm_compute; reflexivity|]); vm_compute; reflexivity.
Qed.


(* ================================================================== *)
(** * Further properties: time formatting and file names *)
(* ================================================================== *)

Lemma Qfloor_shift (q : Q) (k : Z) :
  Qfloor (q - inject_Z k) = Qfloor q - k.
Proof.
  apply Qfloor_unique.
  - unfold Z.sub; rewrite inject_Z_plus, inject_Z_opp.
    pose proof (Qfloor_le q); lra.
  - replace (Qfloor q - k + 1) with (Qfloor q + 1 - k) by lia.
    unfold Z.sub; rewrite inject_Z_plus, inject_Z_opp.
    pose proof (Qlt_floor q); lra.
Qed.

Lemma Qfloor_nonneg (q : Q) : (0 <= q)%Q -> 0 <= Qfloor q.
Proof.
  intros Hq; change 0 with (Qfloor (inject_Z 0)).
  apply Qfloor_resp_le; exact Hq.
Qed.

(** The minutes of [formatDuration] are those of [formatTimestamp]. *)
Lemma floor_div60_any (q : Q) : Qfloor (q / 60) = Qfloor q / 60.
Proof.
  pose proof (Qfloor_le q) as Hlo; pose proof (Qlt_floor q) as Hhi.
  pose proof (Z.div_mod (Qfloor q) 60 ltac:(lia)) as Hdm.
  pose proof (Z.mod_pos_bound (Qfloor q) 60 ltac:(lia)) as Hmod.
  apply Qfloor_unique.
  - apply Qle_shift_div_l; [reflexivity|].
    change 60%Q with (inject_Z 60); rewrite <- inject_Z_mult.
    eapply Qle_trans; [|exact Hlo].
    rewrite <- Zle_Qle; lia.
  - apply Qlt_shift_div_r; [reflexivity|].
    change 60%Q with (inject_Z 60); rewrite <- inject_Z_mult.
    eapply Qlt_le_trans; [exact Hhi|].
    rewrite <- Zle_Qle; lia.
Qed.

Lemma trunc_nonneg (q : Q) : (0 <= q)%Q -> trunc q = Qfloor q.
Proof.
  intros Hq; unfold trunc.
  apply Qle_bool_iff in Hq; rewrite Hq; reflexivity.
Qed.

Lemma floor_rem60_any (q : Q) :
  (0 <= q)%Q -> Qfloor (rem q 60) = Qfloor q mod 60.
Proof.
  intros Hq; unfold rem.
  rewrite trunc_nonneg, floor_div60_any.
  - change 60%Q with (inject_Z 60); rewrite <- inject_Z_mult.
    rewrite Qfloor_shift, Z.mod_eq by lia; reflexivity.
  - apply Qle_shift_div_l; [reflexivity|]; lra.
Qed.

(** X1.  On every finite number of seconds that is not negative, whole or
    not, the formatter of the service and the formatter of the component
    write the same string: the timestamps of the transcript and the times
    shown by the player agree. *)
Theorem formatters_agree (q : Q) :
  (0 <= q)%Q -> formatTimestamp (Num q) = formatDuration (Some (Num q)).
Proof.
  intros Hq; unfold formatTimestamp, formatDuration, Math_floor.
  rewrite floor_div60_any, floor_rem60_any by exact Hq.
  rewrite Z.rem_mod_nonneg by (pose proof (Qfloor_nonneg Hq); lia).
  reflexivity.
Qed.

Lemma formatters_agree_witness :
  formatTimestamp (Num (1307 # 10)) = formatDuration (Some (Num (1307 # 10)))
  /\ formatDuration (Some (Num (1307 # 10))) = str "02:10".
Proof.
  assert (H : (0 <= 1307 # 10)%Q) by discriminate.
  split; [exact (formatters_agree H) | vm_compute; reflexivity].
Defined.

Lemma digits_field (d : Decimal.uint) :
  forallb field_unit (str (NilEmpty.string_of_uint d)) = true.
Proof. induction d; cbn; auto. Qed.

Lemma String_field (n : Z) : forallb field_unit (String_ n) = true.
Proof.
  unfold String_.
  destruct (Z.to_int n) as [d|d]; cbn [NilZero.string_of_int].
  - destruct d; try apply digits_field; reflexivity.
  - cbn [str list_ascii_of_string forallb];
      fold (str (NilZero.string_of_uint d)).
    destruct d; try apply digits_field; reflexivity.
Qed.

Lemma pad2_field (n : Z) : forallb field_unit (pad2 n) = true.
Proof.
  unfold pad2, padStart; rewrite forallb_app, String_field, andb_true_r.
  generalize (2 - List.length (String_ n))%nat; intros k.
  assert (H : forall cur, forallb field_unit cur = true ->
            forallb field_unit (repeat_to k (str "0") cur) = true).
  { induction k as [|k IH]; intros cur Hcur; cbn [repeat_to]; [reflexivity|].
    destruct cur as [|c rest].
    - cbn [str list_ascii_of_string forallb]; rewrite IH; reflexivity.
    - cbn [forallb] in *; apply andb_true_iff in Hcur.
      destruct Hcur as [-> Hr]; rewrite IH; auto. }
  apply H; reflexivity.
Qed.

Lemma pad2_no_colon (n : Z) : ~ In ":"%char (pad2 n).
Proof.
  pose proof (pad2_field n) as H; rewrite forallb_forall in H.
  intros Hin; apply H in Hin; discriminate.
Qed.

Lemma replace_first_after (c : ascii) (by_ a b : jsstring) :
  ~ In c a -> replace_first c by_ (a ++ c :: b) = a ++ by_ ++ b.
Proof.
  induction a as [|x a IH]; intros Hno; cbn [app replace_first].
  - rewrite Ascii.eqb_refl; reflexivity.
  - destruct (Ascii.eqb x c) eqn:Hx.
    + apply Ascii.eqb_eq in Hx; subst; exfalso; apply Hno; left; reflexivity.
    + rewrite IH by (intros H; apply Hno; right; exact H); reflexivity.
Qed.

(** X2.  The time that [handleSave] puts into the name of the transcript
    file, the formatted duration with its colon replaced by an underscore,
    is for every duration (absent, NaN or any finite number) the string
    [formatForFilename] writes for the names of the image files: only the
    colon between the fields is replaced, a field holds none. *)
Theorem transcript_name_time (videoDuration : option number) :
  durationStringForFileName videoDuration = formatForFilename videoDuration
  /\ ~ In ":"%char (durationStringForFileName videoDuration).
Proof.
  assert (Heq : durationStringForFileName videoDuration
                = formatForFilename videoDuration).
  { unfold durationStringForFileName, formatDuration, formatForFilename.
    destruct videoDuration as [[|q]|]; try reflexivity.
    cbv zeta; apply replace_first_after, pad2_no_colon. }
  split; [exact Heq|]; rewrite Heq.
  unfold formatForFilename.
  destruct videoDuration as [[|q]|];
    try (intros Hin; vm_compute in Hin;
         repeat (destruct Hin as [Hin|Hin]; [discriminate|]); exact Hin).
  cbv zeta; intros Hin.
  apply in_app_or in Hin; destruct Hin as [Hin | Hin];
    [exact (pad2_no_colon _ Hin)|].
  apply in_app_or in Hin; destruct Hin as [[Hin | []] | Hin];
    [discriminate | exact (pad2_no_colon _ Hin)].
Qed.

Lemma digits_only (d : Decimal.uint) :
  forallb is_digit (str (NilEmpty.string_of_uint d)) = true.
Proof. induction d; cbn; auto. Qed.

(** A number written with fewer than three digits is below one hundred. *)
Lemma three_digits (u : Decimal.uint) :
  100 <= Z.of_N (Pos.of_uint u) ->
  exists a b c rest,
    str (NilEmpty.string_of_uint u) = a :: b :: c :: rest.
Proof.
  intros Hu.
  destruct u as [|u|u|u|u|u|u|u|u|u|u];
    try (exfalso; vm_compute in Hu; apply Hu; reflexivity);
    (destruct u as [|u|u|u|u|u|u|u|u|u|u];
     try (exfalso; vm_compute in Hu; apply Hu; reflexivity));
    (destruct u as [|u|u|u|u|u|u|u|u|u|u];
     try (exfalso; vm_compute in Hu; apply Hu; reflexivity));
    cbn [NilEmpty.string_of_uint str list_ascii_of_string];
    do 4 eexists; reflexivity.
Qed.

Lemma String_three_digits (m : Z) :
  100 <= m ->
  exists a b c rest,
    String_ m = a :: b :: c :: rest /\ is_digit c = true.
Proof.
  intros Hm; unfold String_.
  destruct m as [|p|p]; try lia.
  cbn [Z.to_int NilZero.string_of_int].
  destruct (@three_digits (Pos.to_uint p)) as (a & b & c & rest & Hs);
    [rewrite DecimalPos.Unsigned.of_to; exact Hm|].
  pose proof (digits_only (Pos.to_uint p)) as Hd.
  assert (Hz : NilZero.string_of_uint (Pos.to_uint p)
               = NilEmpty.string_of_uint (Pos.to_uint p)).
  { destruct (Pos.to_uint p); try reflexivity.
    cbn in Hs; discriminate. }
  rewrite Hz, Hs; rewrite Hs in Hd.
  exists a, b, c, rest; split; [reflexivity|].
  cbn [forallb] in Hd.
  repeat (apply andb_true_iff in Hd; destruct Hd as [? Hd]); assumption.
Qed.

Lemma two_digits_stamp (m s : Z) :
  0 <= m < 100 -> 0 <= s < 100 ->
  timestampRegex_test (two_digits m ++ str ":" ++ two_digits s) = true.
Proof.
  intros Hm Hs.
  assert (Hd : forall d, 0 <= d <= 9 -> is_digit (digit_char d) = true).
  { intros d Hd.
    assert (Hc : d = 0 \/ d = 1 \/ d = 2 \/ d = 3 \/ d = 4 \/ d = 5
                 \/ d = 6 \/ d = 7 \/ d = 8 \/ d = 9) by lia.
    repeat (destruct Hc as [-> | Hc]; [reflexivity|]); subst; reflexivity. }
  unfold two_digits; cbn [app str list_ascii_of_string timestampRegex_test].
  rewrite !Hd; [reflexivity| | | |];
    try (pose proof (Z.mod_pos_bound m 10); pose proof (Z.mod_pos_bound s 10);
         lia);
    (split; [apply Z.div_pos; lia
            | apply Z.lt_succ_r, Z.div_lt_upper_bound; lia]).
Qed.

(** Below one hundred minutes the formatted time is two digits, a colon
    and two digits. *)
Lemma formatDuration_short (q : Q) :
  (0 <= q)%Q -> (q < 6000)%Q ->
  exists m s,
    0 <= m < 100 /\ 0 <= s < 60
    /\ formatDuration (Some (Num q))
       = two_digits m ++ str ":" ++ two_digits s.
Proof.
  intros Hq Hlim; unfold formatDuration, Math_floor.
  rewrite floor_div60_any, floor_rem60_any by exact Hq.
  pose proof (Qfloor_nonneg Hq) as Hf0.
  pose proof (Z.mod_pos_bound (Qfloor q) 60 ltac:(lia)) as Hmod.
  assert (Hf : Qfloor q < 6000).
  { rewrite Zlt_Qlt; eapply Qle_lt_trans; [apply Qfloor_le | exact Hlim]. }
  assert (Hm : 0 <= Qfloor q / 60 < 100).
  { split; [apply Z.div_pos; lia | apply Z.div_lt_upper_bound; lia]. }
  exists (Qfloor q / 60), (Qfloor q mod 60).
  rewrite !pad2_two_digits by lia; auto.
Qed.

Lemma two_digits_stamp_prefix (m s : Z) (rest : jsstring) :
  0 <= m < 100 -> 0 <= s < 100 ->
  timestampRegex_test ((two_digits m ++ str ":" ++ two_digits s) ++ rest)
  = true.
Proof.
  intros Hm Hs; etransitivity; [|exact (two_digits_stamp Hm Hs)]; reflexivity.
Qed.

(** X3.  For a finite time that is not negative, [formatDuration] writes a
    string of the shape the timestamp button recognises ([^\d{2}:\d{2}],
    five code units) exactly while the time is below 6000 seconds.  From
    one hundred minutes on the minutes take three digits or more, the
    string is longer, and it no longer matches: a line stamped with such a
    time is not recognised as starting with a timestamp. *)
Theorem stamp_shape_until_100_minutes (q : Q) :
  (0 <= q)%Q ->
  let stamp := formatDuration (Some (Num q)) in
  ((q < 6000)%Q ->
   timestampRegex_test stamp = true /\ List.length stamp = 5%nat)
  /\ ((6000 <= q)%Q ->
      timestampRegex_test stamp = false /\ (5 < List.length stamp)%nat).
Proof.
  intros Hq stamp; unfold stamp, formatDuration, Math_floor.
  rewrite floor_div60_any, floor_rem60_any by exact Hq.
  pose proof (Qfloor_nonneg Hq) as Hf0.
  pose proof (Z.mod_pos_bound (Qfloor q) 60 ltac:(lia)) as Hmod.
  split; intros Hlim.
  - destruct (formatDuration_short Hq Hlim) as (m & sec & Hm & Hsec & Hstamp).
    unfold formatDuration, Math_floor in Hstamp.
    rewrite floor_div60_any, floor_rem60_any in Hstamp by exact Hq.
    rewrite Hstamp.
    split; [apply two_digits_stamp; lia | reflexivity].
  - assert (Hf : 6000 <= Qfloor q).
    { change 6000 with (Qfloor (inject_Z 6000)).
      apply Qfloor_resp_le; exact Hlim. }
    assert (Hm : 100 <= Qfloor q / 60).
    { apply Z.div_le_lower_bound; lia. }
    destruct (String_three_digits Hm) as (a & b & c & rest & Hs & Hc).
    rewrite (@pad2_two_digits (Qfloor q mod 60)) by lia.
    unfold pad2, padStart; rewrite Hs.
    cbn [List.length Nat.sub repeat_to app timestampRegex_test].
    split; [|rewrite !length_app; unfold two_digits; simpl List.length; lia].
    destruct (rest ++ _) as [|d3 [|d4 tail]]; [reflexivity|reflexivity|].
    destruct (Ascii.eqb c ":"%char) eqn:Hcolon;
      [|rewrite !andb_false_r; reflexivity].
    apply Ascii.eqb_eq in Hcolon; subst c; discriminate.
Qed.

Lemma stamp_shape_until_100_minutes_witness :
  timestampRegex_test (formatDuration (Some (Num (59995 # 10)))) = true
  /\ timestampRegex_test (formatDuration (Some (Num 6000))) = false.
Proof.
  assert (H1 : (0 <= 59995 # 10)%Q) by discriminate.
  assert (H2 : (0 <= 6000)%Q) by discriminate.
  split.
  - apply (proj1 (stamp_shape_until_100_minutes H1)); reflexivity.
  - apply (proj2 (stamp_shape_until_100_minutes H2)); discriminate.
Defined.

(* ================================================================== *)
(** * Further properties: the timestamp button *)
(* ================================================================== *)

Lemma step_insert_timestamp (s : AppState) (dom : Dom) :
  textareaRef s = true ->
  step s (Click InsertTimestampBtn dom) = handleInsertTimestamp dom s.
Proof.
  intros Href; unfold step, handle, clickable.
  cbn [rendered disabled onClick negb].
  rewrite (@textareaRef_resultPanel s Href); cbn [andb].
  pose proof (status_handleInsertTimestamp dom s) as Hstatus.
  unfold handleInsertTimestamp in *; rewrite Href in *; cbn [negb] in *.
  cbv zeta in *.
  destruct (timestampRegex_test _); cbn [fst] in *;
    rewrite populate_same_inputs; reflexivity.
Qed.

Lemma In_skipn {A : Type} (x : A) (n : nat) (l : list A) :
  In x (skipn n l) -> In x l.
Proof.
  intros Hin; rewrite <- (firstn_skipn n l); apply in_or_app; right;
    exact Hin.
Qed.

(** X4.  Stamping a line twice changes nothing the second time.  The
    cursor is in a line that starts with a timestamp and the player is
    below one hundred minutes: the first click on the timestamp button
    replaces the stamp and asks for the cursor right behind it; a second
    click with the cursor there, the player still at that time, leaves the
    whole state as it is and asks for the same cursor position. *)
Theorem restamp_changes_nothing (s : AppState) (dom dom2 : Dom)
    (before line after : jsstring) (q : Q) :
  let text := before ++ line ++ after in
  textareaRef s = true ->
  editableText s = text ->
  cursor_line before line after (dom_selectionStart dom) ->
  dom_selectionStart dom <= dom_selectionEnd dom <= len text ->
  timestampRegex_test line = true ->
  videoCurrentTime s = Num q -> (0 <= q)%Q -> (q < 6000)%Q ->
  let s1 := fst (step s (Click InsertTimestampBtn dom)) in
  let position := len before + 5 in
  snd (step s (Click InsertTimestampBtn dom)) = [FocusAt position]
  /\ (dom_selectionStart dom2 = position ->
      dom_selectionEnd dom2 = position ->
      step s1 (Click InsertTimestampBtn dom2) = (s1, [FocusAt position])).
Proof.
  intros text Href Htext Hcl Hsel Hline Htime Hq Hlim s1 position.
  destruct (formatDuration_short Hq Hlim) as (m & sec & Hm & Hsec & Hstamp).
  set (ts := two_digits m ++ str ":" ++ two_digits sec) in *.
  assert (Hlen : len ts = 5) by reflexivity.
  assert (Hfirst : step s (Click InsertTimestampBtn dom)
                   = (setEditableText (before ++ (ts ++ skipn 5 line)
                                       ++ after) s,
                      [FocusAt position])).
  { rewrite (@step_insert_timestamp s dom Href).
    rewrite (@handleInsertTimestamp_outcome s dom before line after
               Href Htext Hcl Hsel).
    rewrite Hline, Htime, Hstamp, Hlen; reflexivity. }
  unfold s1; rewrite Hfirst; cbn [fst snd]; split; [reflexivity|].
  intros Hstart Hend.
  set (line2 := ts ++ skipn 5 line).
  set (s2 := setEditableText (before ++ line2 ++ after) s).
  pose proof (len_nonneg before) as Hb0; pose proof (len_nonneg after) as Ha0.
  pose proof (len_nonneg (skipn 5 line)) as Hr0.
  assert (Hline2 : len line2 = 5 + len (skipn 5 line))
    by (unfold line2; rewrite len_app, Hlen; reflexivity).
  assert (Href2 : textareaRef s2 = true).
  { unfold textareaRef in *; apply andb_true_iff in Href.
    destruct Href as [Hpanel _].
    change (resultPanel s2) with (resultPanel s); rewrite Hpanel.
    cbn [andb]; apply orb_true_iff; right.
    change (editableText s2) with (before ++ line2 ++ after).
    destruct before; reflexivity. }
  assert (Hcl2 : cursor_line before line2 after (dom_selectionStart dom2)).
  { destruct Hcl as [Hb Hl Ha Hc]; constructor; try assumption.
    - unfold line2; intros Hin; apply in_app_or in Hin.
      destruct Hin as [Hin | Hin].
      + rewrite <- Hstamp in Hin.
        apply (proj1 (formatDuration_one_line (Some (Num q)))); exact Hin.
      + apply Hl; eapply In_skipn; exact Hin.
    - rewrite Hstart; unfold position; lia. }
  assert (Hsel2 : dom_selectionStart dom2 <= dom_selectionEnd dom2
                  <= len (before ++ line2 ++ after)).
  { rewrite Hstart, Hend, !len_app; unfold position; lia. }
  rewrite (@step_insert_timestamp s2 dom2 Href2).
  rewrite (@handleInsertTimestamp_outcome s2 dom2 before line2 after
             Href2 eq_refl Hcl2 Hsel2).
  change (videoCurrentTime s2) with (videoCurrentTime s).
  rewrite Htime, Hstamp.
  unfold line2 at 1; unfold ts at 1.
  assert (Hsec' : 0 <= sec < 100) by lia.
  rewrite (@two_digits_stamp_prefix m sec (skipn 5 line) Hm Hsec').
  fold ts; rewrite Hlen.
  replace (skipn 5 line2) with (skipn 5 line)
    by (unfold line2; symmetry; apply (skipn_exact ts)).
  reflexivity.
Qed.

Lemma restamp_changes_nothing_witness :
  let s1 := fst (step two_lines
                      (Click InsertTimestampBtn (mkDom true (Num 0) [] 3 3))) in
  editableText s1 = str "01:05 hi" ++ [newline] ++ str "next"
  /\ step s1 (Click InsertTimestampBtn (mkDom true (Num 0) [] 5 5))
     = (s1, [FocusAt 5]).
Proof.
  assert (Hcl : cursor_line [] (str "00:05 hi") (newline :: str "next") 3).
  { constructor.
    - left; reflexivity.
    - intros Hin; vm_compute in Hin.
      repeat (destruct Hin as [Hin | Hin]; [discriminate|]); exact Hin.
    - right; exists (str "next"); reflexivity.
    - vm_compute; split; discriminate. }
  assert (Hsel : 3 <= 3 <= len ([] ++ str "00:05 hi" ++ newline :: str "next"))
    by (vm_compute; split; discriminate).
  assert (Href : textareaRef two_lines = true) by (vm_compute; reflexivity).
  assert (Htext : editableText two_lines
                  = [] ++ str "00:05 hi" ++ newline :: str "next")
    by (vm_compute; reflexivity).
  assert (Htime : videoCurrentTime two_lines = Num 65)
    by (vm_compute; reflexivity).
  assert (Hq : (0 <= 65)%Q) by discriminate.
  assert (Hlim : (65 < 6000)%Q) by reflexivity.
  destruct (@restamp_changes_nothing two_lines
              (mkDom true (Num 0) [] 3 3) (mkDom true (Num 0) [] 5 5)
              [] (str "00:05 hi") (newline :: str "next") 65
              Href Htext Hcl Hsel eq_refl Htime Hq Hlim) as [_ Hsecond].
  cbv zeta; split; [vm_compute; reflexivity|].
  apply Hsecond; reflexivity.
Defined.

(** From one hundred minutes on the third unit of the formatted time is
    a digit, where the pattern wants the colon. *)
Lemma long_stamp_prefix (q : Q) (rest : jsstring) :
  (6000 <= q)%Q ->
  timestampRegex_test (formatDuration (Some (Num q)) ++ rest) = false.
Proof.
  intros Hlim.
  assert (Hf : 6000 <= Qfloor q).
  { change 6000 with (Qfloor (inject_Z 6000)).
    apply Qfloor_resp_le; exact Hlim. }
  assert (Hm : 100 <= Qfloor q / 60) by (apply Z.div_le_lower_bound; lia).
  destruct (String_three_digits Hm) as (a & b & c & tail & Hs & Hc).
  unfold formatDuration, Math_floor; rewrite floor_div60_any.
  unfold pad2 at 1, padStart; rewrite Hs.
  cbn [List.length Nat.sub repeat_to app timestampRegex_test].
  destruct ((tail ++ _) ++ rest) as [|d3 [|d4 more]];
    [reflexivity | reflexivity |].
  destruct (Ascii.eqb c ":"%char) eqn:Hcolon;
    [|rewrite !andb_false_r; reflexivity].
  apply Ascii.eqb_eq in Hcolon; subst c; discriminate.
Qed.

Lemma formatDuration_truthy (t : option number) :
  truthy (formatDuration t) = true.
Proof.
  destruct t as [[|q]|]; try reflexivity.
  unfold formatDuration; cbv zeta.
  destruct (pad2 _); reflexivity.
Qed.

(** X5.  From one hundred minutes on the timestamp button piles its
    stamps up.  The cursor stands at the start of a line that does not
    begin with a timestamp, nothing is selected, and the player is at
    6000 seconds or later.  The first click puts the formatted time in
    front of the line and asks for the cursor behind it.  The line now
    begins with a stamp of three or more minute digits, which the pattern
    [^\d{2}:\d{2}] does not recognise: a second click with the cursor
    there does not replace the stamp but inserts the time once more. *)
Theorem stamps_pile_up_after_100_minutes (s : AppState) (dom dom2 : Dom)
    (before line after : jsstring) (q : Q) :
  let ts := formatDuration (Some (Num q)) in
  textareaRef s = true ->
  editableText s = before ++ line ++ after ->
  cursor_line before line after (len before) ->
  dom_selectionStart dom = len before ->
  dom_selectionEnd dom = len before ->
  timestampRegex_test line = false ->
  videoCurrentTime s = Num q -> (6000 <= q)%Q ->
  let s1 := fst (step s (Click InsertTimestampBtn dom)) in
  let position := len before + len ts in
  step s (Click InsertTimestampBtn dom)
  = (setEditableText (before ++ (ts ++ line) ++ after) s,
     [FocusAt position])
  /\ (dom_selectionStart dom2 = position ->
      dom_selectionEnd dom2 = position ->
      editableText (fst (step s1 (Click InsertTimestampBtn dom2)))
      = before ++ (ts ++ ts ++ line) ++ after).
Proof.
  intros ts Href Htext Hcl Hstart Hend Hline Htime Hlim s1 position.
  pose proof (len_nonneg before) as Hb0; pose proof (len_nonneg line) as Hl0;
    pose proof (len_nonneg after) as Ha0; pose proof (len_nonneg ts) as Ht0.
  assert (Hcl0 : cursor_line before line after (dom_selectionStart dom))
    by (rewrite Hstart; exact Hcl).
  assert (Hsel : dom_selectionStart dom <= dom_selectionEnd dom
                 <= len (before ++ line ++ after))
    by (rewrite Hstart, Hend, !len_app; lia).
  assert (Hcut : forall (l : jsstring) (x rest : jsstring),
            firstn (Z.to_nat (len l)) (l ++ rest) ++ x
            ++ skipn (Z.to_nat (len l)) (l ++ rest) = l ++ x ++ rest).
  { intros l x rest; unfold len; rewrite Nat2Z.id, firstn_exact, skipn_exact.
    reflexivity. }
  assert (Hfirst : step s (Click InsertTimestampBtn dom)
                   = (setEditableText (before ++ (ts ++ line) ++ after) s,
                      [FocusAt position])).
  { rewrite (@step_insert_timestamp s dom Href).
    rewrite (@handleInsertTimestamp_outcome s dom before line after
               Href Htext Hcl0 Hsel).
    rewrite Hline, Htime, Hstart, Hend, Hcut, <- app_assoc; reflexivity. }
  split; [exact Hfirst|].
  intros Hstart2 Hend2; unfold s1; rewrite Hfirst; cbn [fst].
  set (line1 := ts ++ line).
  set (s2 := setEditableText (before ++ line1 ++ after) s).
  assert (Hline1 : len line1 = len ts + len line)
    by (unfold line1; apply len_app).
  assert (Href2 : textareaRef s2 = true).
  { unfold textareaRef in *; apply andb_true_iff in Href.
    destruct Href as [Hpanel _].
    change (resultPanel s2) with (resultPanel s); rewrite Hpanel.
    cbn [andb]; apply orb_true_iff; right.
    change (editableText s2) with (before ++ line1 ++ after).
    pose proof (formatDuration_truthy (Some (Num q))) as Hts; fold ts in Hts.
    unfold line1; destruct before; [|reflexivity].
    destruct ts; [discriminate | reflexivity]. }
  assert (Hcl2 : cursor_line before line1 after (dom_selectionStart dom2)).
  { destruct Hcl as [Hb Hl Ha Hc]; constructor; try assumption.
    - unfold line1; intros Hin; apply in_app_or in Hin.
      destruct Hin as [Hin | Hin]; [|exact (Hl Hin)].
      apply (proj1 (formatDuration_one_line (Some (Num q)))); exact Hin.
    - rewrite Hstart2; unfold position; lia. }
  assert (Hsel2 : dom_selectionStart dom2 <= dom_selectionEnd dom2
                  <= len (before ++ line1 ++ after)).
  { rewrite Hstart2, Hend2, !len_app; unfold position; lia. }
  rewrite (@step_insert_timestamp s2 dom2 Href2).
  rewrite (@handleInsertTimestamp_outcome s2 dom2 before line1 after
             Href2 eq_refl Hcl2 Hsel2).
  unfold line1 at 1; unfold ts at 1.
  rewrite (long_stamp_prefix line Hlim); cbn [fst].
  change (editableText (setEditableText ?t s2)) with t.
  change (videoCurrentTime s2) with (videoCurrentTime s).
  rewrite Htime; fold ts.
  rewrite Hstart2, Hend2.
  rewrite selection_in_line by (unfold position; lia).
  replace (position - len before) with (len ts) by (unfold position; lia).
  unfold line1, len; rewrite Nat2Z.id, firstn_exact, skipn_exact.
  reflexivity.
Qed.

Lemma stamps_pile_up_after_100_minutes_witness :
  let s1 := fst (step late_in_the_video
                      (Click InsertTimestampBtn (mkDom true (Num 0) [] 0 0)))
  in
  editableText s1 = str "100:05note"
  /\ editableText
       (fst (step s1 (Click InsertTimestampBtn (mkDom true (Num 0) [] 6 6))))
     = str "100:05100:05note".
Proof.
  assert (Hcl : cursor_line [] (str "note") [] (len [])).
  { constructor.
    - left; reflexivity.
    - intros Hin; vm_compute in Hin.
      repeat (destruct Hin as [Hin | Hin]; [discriminate|]); exact Hin.
    - left; reflexivity.
    - vm_compute; split; discriminate. }
  assert (Href : textareaRef late_in_the_video = true)
    by (vm_compute; reflexivity).
  assert (Htext : editableText late_in_the_video = [] ++ str "note" ++ [])
    by (vm_compute; reflexivity).
  assert (Htime : videoCurrentTime late_in_the_video = Num 6005)
    by (vm_compute; reflexivity).
  assert (Hlim : (6000 <= 6005)%Q) by discriminate.
  destruct (@stamps_pile_up_after_100_minutes late_in_the_video
              (mkDom true (Num 0) [] 0 0) (mkDom true (Num 0) [] 6 6)
              [] (str "note") [] 6005
              Href Htext Hcl eq_refl eq_refl eq_refl Htime Hlim)
    as [Hfirst Hsecond].
  cbv zeta; split.
  - rewrite Hfirst; vm_compute; reflexivity.
  - rewrite Hsecond; [vm_compute; reflexivity | reflexivity | reflexivity].
Defined.

(* ================================================================== *)
(** * Further properties: the sampler *)
(* ================================================================== *)

(** Every run of the loop that ends has gone through some number [m] of
    full rounds; it ends past the duration, or on the seek of round
    [m + 1]. *)
Lemma captureFrame_shape (video : VideoElement) (fuel : nat) :
  forall c frames reported seeks run,
    captureFrame fuel video c frames reported seeks = Some run ->
    exists m,
      (forall x, In x (cursors c m) ->
                 exceeds x (ve_duration video) = false)
      /\ sr_progress run
         = reported ++ map (fun x => progress_of x (ve_duration video))
                           (cursors c m)
      /\ ((sr_outcome run
           = Resolved (frames ++ map (frame_at video) (cursors c m))
           /\ sr_seeks run = seeks ++ cursors c m)
          \/ (sr_outcome run = Rejected (str "Error processing video file.")
              /\ sr_seeks run = seeks ++ cursors c (S m)
              /\ ve_seek video (c + 2 * Z.of_nat m) = None)).
Proof.
  induction fuel as [|fuel IH]; intros c frames reported seeks run;
    [discriminate|].
  cbn [captureFrame].
  destruct (exceeds c (ve_duration video)) eqn:Hle.
  2:{ destruct (ve_seek video c) as [position|] eqn:Hseek.
    + intros Hrun; apply IH in Hrun.
      destruct Hrun as (m & Hin & Hprog & Hend).
      exists (S m); cbn [cursors map].
      split; [|split].
      * intros x [<- | Hx]; [exact Hle | auto].
      * rewrite Hprog, <- app_assoc; reflexivity.
      * replace (c + 2 * Z.of_nat (S m))
          with (c + FRAME_EXTRACTION_INTERVAL + 2 * Z.of_nat m)
          by (unfold FRAME_EXTRACTION_INTERVAL; lia).
        destruct Hend as [[Hout Hseeks] | (Hout & Hseeks & Hnone)];
          [left | right]; rewrite Hout, Hseeks.
        -- unfold frame_at at 2; rewrite Hseek, <- !app_assoc; auto.
        -- rewrite <- !app_assoc; auto.
    + intros [= <-]; exists O; cbn [cursors map sr_progress sr_outcome
                                    sr_seeks].
      split; [intros x []|].
      split; [rewrite app_nil_r; reflexivity|].
      right; replace (c + 2 * Z.of_nat 0) with c by lia; auto. }
  intros [= <-]; exists O; cbn [cursors map sr_progress sr_outcome sr_seeks].
  split; [intros x []|].
  rewrite !app_nil_r; auto.
Qed.

Lemma Math_round_mono (a b : Q) :
  (a <= b)%Q -> Math_round a <= Math_round b.
Proof.
  intros Hab; unfold Math_round; apply Qfloor_resp_le.
  apply Qplus_le_l; exact Hab.
Qed.

Lemma quotient_mono (duration : Q) (a b : Z) :
  (0 < duration)%Q -> a <= b ->
  (binary64 (binary64 (inject_Z a / duration) * 100)
   <= binary64 (binary64 (inject_Z b / duration) * 100))%Q.
Proof.
  intros Hd Hab.
  apply binary64_mono, Qmult_le_compat_r; [|discriminate].
  apply binary64_mono, Qmult_le_compat_r; [rewrite <- Zle_Qle; exact Hab|].
  apply Qlt_le_weak, Qinv_lt_0_compat; exact Hd.
Qed.

Lemma progress_of_positive (duration : Q) (c : Z) :
  (0 < duration)%Q ->
  progress_of c (Finite duration)
  = Num (inject_Z
           (Z.min 100
              (Math_round
                 (binary64 (binary64 (inject_Z c / duration) * 100))))).
Proof.
  intros Hd; unfold progress_of.
  destruct (Qeq_bool duration 0) eqn:Hzero; [|reflexivity].
  apply Qeq_bool_eq in Hzero; rewrite Hzero in Hd; discriminate.
Qed.

Lemma progress_of_percent (duration : Duration) (c : Z) :
  positive_duration duration -> 0 <= c ->
  whole_percent (progress_of c duration).
Proof.
  destruct duration as [d| |]; cbn [positive_duration]; intros Hd Hc;
    [|exists 0; split; [reflexivity | lia] | contradiction].
  rewrite (progress_of_positive c Hd).
  eexists; split; [reflexivity|].
  split; [|apply Z.le_min_l].
  apply Z.min_glb; [lia|].
  change 0 with (Math_round 0); apply Math_round_mono.
  apply binary64_nonneg, Qmult_le_0_compat; [|discriminate].
  apply binary64_nonneg, Qmult_le_0_compat.
  - change 0%Q with (inject_Z 0); rewrite <- Zle_Qle; exact Hc.
  - apply Qlt_le_weak, Qinv_lt_0_compat; exact Hd.
Qed.

Lemma progress_of_mono (duration : Duration) (a b : Z) :
  positive_duration duration -> a <= b ->
  number_le (progress_of a duration) (progress_of b duration).
Proof.
  destruct duration as [d| |]; cbn [positive_duration]; intros Hd Hab;
    [|cbn; lra | contradiction].
  rewrite !(progress_of_positive _ Hd); cbn [number_le].
  rewrite <- Zle_Qle; apply Z.min_le_compat_l, Math_round_mono.
  apply quotient_mono; assumption.
Qed.

Lemma sorted_map {A B : Type} (R : A -> A -> Prop) (S : B -> B -> Prop)
    (f : A -> B) (l : list A) :
  (forall x y, In x l -> In y l -> R x y -> S (f x) (f y)) ->
  StronglySorted R l -> StronglySorted S (map f l).
Proof.
  intros Hf Hs; induction Hs as [|x l Hs IH Hall]; cbn [map]; constructor.
  - apply IH; intros a b Ha Hb; apply Hf; right; assumption.
  - rewrite Forall_forall in *; intros y Hy.
    apply in_map_iff in Hy; destruct Hy as (z & <- & Hz).
    apply Hf; [left; reflexivity | right; exact Hz | apply Hall; exact Hz].
Qed.

(** X6.  The progress the sampler reports fits the progress bar.  For a
    video of positive duration, finite or infinite, whatever its seeks do,
    every value handed to [onProgress] in a run is a whole percentage
    between 0 and 100, the values never decrease, and a run that resolves
    has reported once per frame. *)
Theorem sampler_progress_fits_the_bar (video : VideoElement) (fuel : nat)
    (context : bool) (run : SamplerRun) :
  positive_duration (ve_duration video) ->
  extractFramesFromVideo fuel context video = Some run ->
  Forall whole_percent (sr_progress run)
  /\ StronglySorted number_le (sr_progress run)
  /\ (forall frames, sr_outcome run = Resolved frames ->
                     List.length (sr_progress run) = List.length frames).
Proof.
  intros Hd; unfold extractFramesFromVideo.
  destruct context; cbn [negb];
    [|intros [= <-]; cbn [sr_progress sr_outcome];
      split; [constructor | split; [constructor | discriminate]]].
  intros Hrun; apply captureFrame_shape in Hrun.
  destruct Hrun as (m & Hin & Hprog & Hend).
  cbn [app] in *; rewrite Hprog.
  split; [|split].
  - apply Forall_forall; intros p Hp.
    apply in_map_iff in Hp; destruct Hp as (c & <- & Hc).
    pose proof (cursors_lower _ _ _ Hc) as Hc0.
    apply progress_of_percent; assumption.
  - apply (sorted_map (R := Z.lt)); [|apply cursors_increasing].
    intros x y _ _ Hxy.
    apply progress_of_mono; [exact Hd | lia].
  - intros frames Hresolved.
    destruct Hend as [[Hout _] | (Hout & _)]; rewrite Hout in Hresolved;
      [|discriminate].
    injection Hresolved as <-.
    rewrite !length_map; reflexivity.
Qed.

Lemma sampler_progress_fits_the_bar_witness :
  exists run,
    extractFramesFromVideo 10 true five_seconds = Some run
    /\ sr_progress run = [Num 0; Num 40; Num 80]
    /\ Forall whole_percent (sr_progress run).
Proof.
  eexists; split; [vm_compute; reflexivity|].
  split; [reflexivity|].
  assert (Hd : positive_duration (ve_duration five_seconds)) by reflexivity.
  refine (proj1 (@sampler_progress_fits_the_bar five_seconds 10 true
                   _ Hd _)).
  vm_compute; reflexivity.
Defined.

Lemma exceeds_mono (a b : Z) (duration : Duration) :
  a <= b -> exceeds b duration = false -> exceeds a duration = false.
Proof.
  intros Hab; destruct duration as [d| |]; [|reflexivity | reflexivity].
  intros Hb; apply exceeds_finite in Hb; apply exceeds_finite.
  eapply Qle_trans; [|exact Hb].
  rewrite <- Zle_Qle; exact Hab.
Qed.

(** [m] full rounds followed by a seek that fails. *)
Lemma captureFrame_fails (video : VideoElement) (m : nat) :
  forall fuel c frames reported seeks,
    (m < fuel)%nat ->
    (forall x, In x (cursors c m) -> ve_seek video x <> None) ->
    exceeds (c + 2 * Z.of_nat m) (ve_duration video) = false ->
    0 <= c ->
    ve_seek video (c + 2 * Z.of_nat m) = None ->
    captureFrame fuel video c frames reported seeks
    = Some (mkSamplerRun
              (Rejected (str "Error processing video file."))
              (reported
                 ++ map (fun x => progress_of x (ve_duration video))
                        (cursors c m))
              (seeks ++ cursors c (S m))).
Proof.
  induction m as [|m IH];
    intros fuel c frames reported seeks Hfuel Hseek Hin Hc Hnone;
    (destruct fuel as [|fuel]; [lia|]); cbn [captureFrame].
  - replace (c + 2 * Z.of_nat 0) with c in * by lia.
    rewrite Hin, Hnone; cbn [cursors map].
    rewrite app_nil_r; reflexivity.
  - assert (Hle : exceeds c (ve_duration video) = false)
      by (apply (exceeds_mono (b := c + 2 * Z.of_nat (S m)));
          [lia | exact Hin]).
    rewrite Hle.
    destruct (ve_seek video c) as [position|] eqn:Hc_seek;
      [|exfalso; apply (Hseek c); [left; reflexivity | exact Hc_seek]].
    replace (c + 2 * Z.of_nat (S m))
      with (c + FRAME_EXTRACTION_INTERVAL + 2 * Z.of_nat m) in *
      by (unfold FRAME_EXTRACTION_INTERVAL; lia).
    rewrite IH; try assumption.
    + cbn [cursors map]; rewrite <- !app_assoc; reflexivity.
    + lia.
    + intros x Hx; apply Hseek; right; exact Hx.
    + unfold FRAME_EXTRACTION_INTERVAL; lia.
Qed.

(** X7.  A seek that fails ends the analysis without a request.  The
    drawing context is there, the seeks to 0, 2, ..., [2 (m - 1)] settle
    and the seek to [2 m], a cursor not beyond the duration, makes the
    element fire [error]: the sampler rejects with 'Error processing video file.'
    after [m] progress reports; the frames captured so far are dropped, and
    [analyzeVideoForText] rejects with the same message without sending
    anything to the AI service, whatever that would answer.  Without a
    drawing context nothing is sought at all. *)
Theorem failed_seek_fails_the_analysis (video : VideoElement) (m fuel : nat)
    (reply : AiRequest -> BatchAnswer) :
  (forall i, (i < m)%nat -> ve_seek video (2 * Z.of_nat i) <> None) ->
  ve_seek video (2 * Z.of_nat m) = None ->
  exceeds (2 * Z.of_nat m) (ve_duration video) = false ->
  (m < fuel)%nat ->
  let message := str "Error processing video file." in
  let first_report := (str "Extracting frames from video...", Some (Num 0)) in
  (exists reported,
     List.length reported = m
     /\ extractFramesFromVideo fuel true video
        = Some (mkSamplerRun (Rejected message) reported
                  (map (fun i => 2 * Z.of_nat i) (seq 0 (S m))))
     /\ analyzeVideoForText fuel true video reply
        = Some (mkAnalysisRun (Rejected message) []
                  (first_report :: extraction_progress reported)))
  /\ extractFramesFromVideo fuel false video
     = Some (mkSamplerRun (Rejected (str "Canvas context is not available."))
               [] [])
  /\ analyzeVideoForText fuel false video reply
     = Some (mkAnalysisRun
               (Rejected (str "Canvas context is not available.")) []
               [first_report]).
Proof.
  intros Hseek Hnone Hin Hfuel message first_report.
  split; [|split; reflexivity].
  assert (Hrun : captureFrame fuel video 0 [] [] []
                 = Some (mkSamplerRun (Rejected message)
                           (map (fun x => progress_of x (ve_duration video))
                                (cursors 0 m))
                           (cursors 0 (S m)))).
  { apply (@captureFrame_fails video m fuel 0 [] [] []); try assumption;
      [|lia].
    intros x Hx; rewrite cursors_from_zero in Hx.
    apply in_map_iff in Hx; destruct Hx as (i & <- & Hi).
    apply in_seq in Hi; apply Hseek; lia. }
  exists (map (fun x => progress_of x (ve_duration video)) (cursors 0 m)).
  split; [rewrite length_map; apply cursors_length|].
  unfold analyzeVideoForText, extractFramesFromVideo; cbn [negb].
  rewrite Hrun, <- cursors_from_zero; split; reflexivity.
Qed.

Lemma failed_seek_fails_the_analysis_witness :
  analyzeVideoForText 10 true broken_at_4 hello_world
  = Some (mkAnalysisRun (Rejected (str "Error processing video file.")) []
            [(str "Extracting frames from video...", Some (Num 0));
             (str "Extracting frames from video...", Some (Num 0));
             (str "Extracting frames from video...", Some (Num 22))]).
Proof.
  assert (Hseek : forall i, (i < 2)%nat ->
                    ve_seek broken_at_4 (2 * Z.of_nat i) <> None).
  { intros i Hi; destruct i as [|[|i]]; [discriminate | discriminate | lia]. }
  assert (Hnone : ve_seek broken_at_4 (2 * Z.of_nat 2) = None)
    by reflexivity.
  assert (Hin : exceeds (2 * Z.of_nat 2) (ve_duration broken_at_4) = false)
    by reflexivity.
  assert (Hfuel : (2 < 10)%nat) by lia.
  destruct (@failed_seek_fails_the_analysis broken_at_4 2 10 hello_world
              Hseek Hnone Hin Hfuel)
    as [(reported & Hlen & Hsampler & Hanalysis) _].
  rewrite Hanalysis; f_equal; f_equal.
  assert (Hrun : extractFramesFromVideo 10 true broken_at_4
                 = Some (mkSamplerRun
                           (Rejected (str "Error processing video file."))
                           [Num 0; Num 22] [0; 2; 4]))
    by (vm_compute; reflexivity).
  rewrite Hrun in Hsampler; injection Hsampler as <-; reflexivity.
Defined.

(* ================================================================== *)
(** * Further properties: one task at a time *)
(* ================================================================== *)

Lemma one_task_populate (before after : AppState) :
  one_task after -> one_task (populateEditableText before after).
Proof.
  destruct (populate_cases before after) as [-> | ->]; auto.
Qed.

Ltac unfold_handlers :=
  unfold initApiKey, handleSendApiKey, handleCopyApiKey, handleClearApiKey,
    apiKeyClipboardSettled, handleFileChange, onloadedmetadata,
    onMetadataError, handleImageFileChange, handleTextFileChange,
    onTextLoad, onTextError, handleAnalyzeClick, onAnalysisProgress,
    analysisSettled, handleCopy, clipboardSettled, copyTimeout, handleSave,
    handleSeek, handleInsertTimestamp, handleCaptureFrame, frameBlob,
    handleCaptureText, captureTextSettled, handleReWriteFrame, reWriteBlob,
    reWriteEncoded, reWriteSettled, handleEditImage, handleQuickEdit,
    performImageEdit, editLoaded, editSettled, handleReWriteFromPopup,
    popupLoaded, popupSettled, handleSavePreviewImage,
    handleSaveEditedImage, handleEditAgain, editAgainFetched,
    handleManualPrompt, togglePopup, handleClickOutside, editFinished,
    caught, unchanged.

Ltac by_flags s :=
  destruct (isCapturing s), (isCapturingFrame s), (isReWriting s),
    (isEditing s), (isReWritingFromPopup s);
  cbn in *; try lia; try discriminate; auto.

Lemma one_task_handle (s : AppState) (e : Event) :
  one_task s -> one_task (fst (handle e s)).
Proof.
  intros [Hcount Hkey]; unfold one_task, tasks_running in *.
  destruct e as [storedKey envKey|b dom| | | | | | | | | | | | | | | | | |
                 | | | | | origin loaded|origin answer fetched| | |];
    cbn [handle].
  2:{ (* a click *)
    destruct (isAnyTaskRunning s) eqn:Hrun.
    - unfold clickable; destruct b; cbn [rendered disabled onClick];
        rewrite ?Hrun, ?orb_true_r, ?andb_false_r; cbn [negb];
        unfold_handlers; rewrite ?Hrun, ?orb_true_r; cbv zeta;
        split_branches; cbn; auto.
    - destruct (@not_running s Hrun) as (H1 & H2 & H3 & H4 & H5).
      assert (Hnone : isSome (quickEditLoadingKey s) = false).
      { destruct (isSome (quickEditLoadingKey s)); [|reflexivity].
        rewrite <- H2; symmetry; auto. }
      destruct (clickable s b);
        [|cbn; rewrite H1, H2, H3, H4, H5, Hnone; cbn; split;
          [lia | discriminate]].
      destruct b; cbn [onClick]; unfold_handlers; cbv zeta;
        split_branches; cbn; rewrite ?H1, ?H2, ?H3, ?H4, ?H5; cbn;
        split; auto; intros; congruence. }
  all: unfold_handlers; cbv zeta; try destruct origin;
    split_branches; cbn; split; try discriminate; auto; by_flags s.
Qed.

Lemma one_task_run (events : list Event) :
  forall s, one_task s -> one_task (fst (run s events)).
Proof.
  induction events as [|e events IH]; intros s Hs; cbn [run fst];
    [exact Hs|].
  pose proof (one_task_handle e Hs) as Hstep.
  unfold step; destruct (handle e s) as [s1 effects1]; cbn [fst] in Hstep.
  specialize (IH (populateEditableText s s1) (one_task_populate s Hstep)).
  destruct (run (populateEditableText s s1) events) as [s2 effects2].
  exact IH.
Qed.

(** X8.  The image tasks never overlap.  In every state the component can
    reach, by any sequence of clicks, inputs and arriving results, at most
    one of the five busy flags [isCapturing], [isCapturingFrame],
    [isReWriting], [isEditing], [isReWritingFromPopup] is set, and a quick
    edit button shows its spinner ([quickEditLoadingKey]) only while
    [isEditing] is set. *)
Theorem one_task_at_a_time (events : list Event) :
  let s := fst (run initialState events) in
  (tasks_running s <= 1)%nat
  /\ (isSome (quickEditLoadingKey s) = true -> isEditing s = true).
Proof.
  apply one_task_run; split; [cbn; lia | discriminate].
Qed.

(* ================================================================== *)
(** * Further properties: the API key bar *)
(* ================================================================== *)

Lemma snd_step (s : AppState) (e : Event) :
  snd (step s e) = snd (handle e s).
Proof. unfold step; destruct (handle e s); reflexivity. Qed.

Lemma fst_step (s : AppState) (e : Event) :
  fst (step s e) = populateEditableText s (fst (handle e s)).
Proof. unfold step; destruct (handle e s); reflexivity. Qed.

Lemma apiKeyInput_populate (before after : AppState) :
  apiKeyInput (populateEditableText before after) = apiKeyInput after.
Proof. destruct (populate_cases before after) as [-> | ->]; reflexivity. Qed.

Lemma initApiKey_truthy (s : AppState) (storedKey envKey : option jsstring) :
  truthy (apiKeyInput (fst (initApiKey storedKey envKey s))) = true.
Proof.
  unfold initApiKey; cbn [fst].
  change (apiKeyInput (s |> setApiKeyInput ?k)) with k.
  destruct storedKey as [k|], envKey as [e|];
    try destruct (truthy k) eqn:Hk; try exact Hk;
    try destruct (truthy e && negb (jsstring_eqb e (str "undefined")))
      eqn:He;
    try reflexivity;
    apply andb_true_iff in He; tauto.
Qed.

(** X9.  What the key bar writes to [localStorage].  No step of the
    component ever stores an empty key or the placeholder 'no API key':
    a key is stored only by the Send button, and it is the non-empty
    content of the key field.  Clear followed by Send removes the stored
    key and stores nothing.  The mount effect leaves the key field
    non-empty, and from then on only typing can empty it: every event
    other than a change of the field keeps a non-empty field non-empty,
    while typing the empty string into the field empties it. *)
Theorem api_key_storage :
  (forall s e k,
     In (StoreApiKey k) (snd (step s e)) ->
     (exists dom, e = Click SendApiKeyBtn dom)
     /\ k = apiKeyInput s /\ truthy k = true /\ k <> no_api_key)
  /\ (forall s dom dom2,
        snd (run s [Click ClearApiKeyBtn dom; Click SendApiKeyBtn dom2])
        = [RemoveApiKey])
  /\ (forall s storedKey envKey,
        truthy (apiKeyInput (fst (step s (Mount storedKey envKey)))) = true)
  /\ (forall s e,
        (forall value, e <> ChangeApiKeyInput value) ->
        truthy (apiKeyInput s) = true ->
        truthy (apiKeyInput (fst (step s e))) = true)
  /\ (forall s value,
        apiKeyInput (fst (step s (ChangeApiKeyInput value))) = value).
Proof.
  split; [|split; [|split; [|split]]].
  - intros s e k; rewrite snd_step.
    destruct e as [storedKey envKey|b dom| | | | | | | | | | | | | | | | | |
                   | | | | | origin loaded|origin answer fetched| | |];
      cbn [handle].
    2:{ destruct (clickable s b); [|intros []].
        destruct b; cbn [onClick].
        1:{ unfold handleSendApiKey.
            destruct (truthy (apiKeyInput s)) eqn:Htruthy; [|intros []].
            destruct (jsstring_eqb (apiKeyInput s) no_api_key) eqn:Hsame;
              [intros []|].
            cbn [andb negb snd In].
            intros [[= <-] | [Hin | []]]; [|discriminate].
            split; [exists dom; reflexivity|].
            split; [reflexivity|]; split; [exact Htruthy|].
            intros Heq; rewrite Heq, jsstring_eqb_refl in Hsame.
            discriminate. }
        all: unfold_handlers; cbv zeta; split_branches; cbn [snd In];
          intuition discriminate. }
    all: unfold_handlers; cbv zeta; try destruct origin; split_branches;
      cbn [snd In]; intuition discriminate.
  - intros s dom dom2; cbn [run].
    rewrite (surjective_pairing (step s (Click ClearApiKeyBtn dom))).
    rewrite (surjective_pairing
               (step (fst (step s (Click ClearApiKeyBtn dom)))
                     (Click SendApiKeyBtn dom2))).
    cbn [snd]; rewrite !snd_step, fst_step; cbn [handle].
    unfold clickable; cbn [rendered disabled negb andb onClick].
    unfold handleSendApiKey.
    rewrite apiKeyInput_populate; reflexivity.
  - intros s storedKey envKey; rewrite fst_step, apiKeyInput_populate.
    cbn [handle]; apply initApiKey_truthy.
  - intros s e Hother Hkey; rewrite fst_step, apiKeyInput_populate.
    destruct e as [storedKey envKey|b dom| |value| | | | | | | | | | | | | | |
                   | | | | | | origin loaded|origin answer fetched| | |];
      cbn [handle].
    1: apply initApiKey_truthy.
    3: exfalso; exact (Hother value eq_refl).
    1:{ destruct (clickable s b); [|exact Hkey].
        destruct b; cbn [onClick]; unfold_handlers; cbv zeta;
          split_branches; cbn; auto. }
    all: unfold_handlers; cbv zeta; try destruct origin; split_branches;
      cbn; auto.
  - intros s value; rewrite fst_step, apiKeyInput_populate; reflexivity.
Qed.

(* ================================================================== *)
(** * Further properties: the player and the saved files *)
(* ================================================================== *)

Lemma seekTarget_known (t d : Q) (offset : Z) :
  (0 < d)%Q ->
  seekTarget t (Finite d) offset
  = Qmax 0 (Qmin d (binary64 (t + inject_Z offset))).
Proof.
  intros Hd; unfold seekTarget.
  destruct (Qeq_bool d 0) eqn:Hzero; [|reflexivity].
  apply Qeq_bool_eq in Hzero; rewrite Hzero in Hd; discriminate.
Qed.

Ltac plain_bound x :=
  lazymatch x with
  | context [Qmin _ _] => fail
  | context [Qmax _ _] => fail
  | _ => idtac
  end.

(** Replaces an innermost minimum or maximum by a number with its
    specification. *)
Ltac clamp_step :=
  match goal with
  | |- context [Qmin ?a ?b] =>
      plain_bound a; plain_bound b;
      generalize (Q.min_spec a b); generalize (Qmin a b);
      intros ? [[? ?] | [? ?]]
  | |- context [Qmax ?a ?b] =>
      plain_bound a; plain_bound b;
      generalize (Q.max_spec a b); generalize (Qmax a b);
      intros ? [[? ?] | [? ?]]
  end.

(** X10.  The seek buttons keep the player inside the video.  With a known
    positive duration [d], the position assigned by [handleSeek] lies
    between 0 and [d]; it is the sum of the position and the offset, as
    doubles add, when the exact sum lies in the video, 0 when that is
    negative and [d] when that is past the end.  A step forward that
    stays inside the video is undone by the same step backward when the
    sum is exact in doubles (as it is between whole seconds); the
    rounding of other sums can leave the player beside the position it
    started from.  While the duration is unknown (NaN, 0 or infinite)
    only the lower bound is kept. *)
Theorem seek_stays_in_the_video (t d : Q) (offset : Z) :
  (0 < d)%Q -> binary64 d == d ->
  let moved := (t + inject_Z offset)%Q in
  let target := seekTarget t (Finite d) offset in
  (0 <= target)%Q /\ (target <= d)%Q
  /\ ((0 <= moved)%Q -> (moved <= d)%Q -> target == binary64 moved)
  /\ ((moved < 0)%Q -> target == 0)
  /\ ((d < moved)%Q -> target == d)
  /\ (binary64 moved == moved -> binary64 t == t ->
      (0 <= t)%Q -> 0 <= offset -> (moved <= d)%Q ->
      seekTarget target (Finite d) (- offset) == t)
  /\ (0 <= seekTarget t Unknown offset)%Q
  /\ ((0 <= moved)%Q ->
      seekTarget t Unknown offset == binary64 moved
      /\ seekTarget t Infinite offset == binary64 moved
      /\ seekTarget t (Finite 0) offset == binary64 moved).
Proof.
  intros Hd Hexact moved target; unfold target.
  rewrite !(seekTarget_known _ _ Hd); fold moved.
  assert (Hlow : (0 <= moved)%Q -> (0 <= binary64 moved)%Q)
    by apply binary64_nonneg.
  assert (Hneg : (moved <= 0)%Q -> (binary64 moved <= 0)%Q)
    by apply binary64_nonpos.
  assert (Hin : (moved <= d)%Q -> (binary64 moved <= d)%Q)
    by (intros H; rewrite <- Hexact; apply binary64_mono; exact H).
  assert (Hout : (d <= moved)%Q -> (d <= binary64 moved)%Q)
    by (intros H; rewrite <- Hexact; apply binary64_mono; exact H).
  assert (Hback : binary64 moved == moved -> binary64 t == t ->
            (0 <= t)%Q -> 0 <= offset -> (moved <= d)%Q ->
            Qmax 0 (Qmin d (binary64
                              (Qmax 0 (Qmin d (binary64 moved))
                               + inject_Z (- offset)))) == t).
  { intros Hsum Ht Ht0 Hoff Hmd.
    rewrite Zle_Qle in Hoff; change (inject_Z 0) with 0%Q in Hoff.
    assert (Hstep : Qmax 0 (Qmin d (binary64 moved)) == moved).
    { unfold moved in *; revert Hsum Hin Hlow.
      generalize (binary64 (t + inject_Z offset)); intros x Hsum Hin Hlow.
      repeat clamp_step; lra. }
    assert (Hsame : binary64 (Qmax 0 (Qmin d (binary64 moved))
                              + inject_Z (- offset)) == t).
    { transitivity (binary64 t); [apply binary64_comp | exact Ht].
      rewrite Hstep, inject_Z_opp; unfold moved; ring. }
    revert Hsame; generalize (binary64 (Qmax 0 (Qmin d (binary64 moved))
                                        + inject_Z (- offset))).
    intros y Hy; unfold moved in *.
    repeat clamp_step; lra. }
  unfold seekTarget; change (Qeq_bool 0 0) with true; cbv iota zeta;
    fold moved.
  split; [|split; [|split; [|split; [|split; [|split; [|split]]]]]];
    try exact Hback;
    unfold moved in *; clear Hback; revert Hlow Hneg Hin Hout;
    generalize (binary64 (t + inject_Z offset)); intros x Hlow Hneg Hin Hout;
    intros; repeat split; repeat clamp_step; lra.
Qed.

Lemma seek_stays_in_the_video_witness :
  seekTarget 95 (Finite 100) 10 == 100
  /\ seekTarget 3 (Finite 100) (-10) == 0
  /\ seekTarget (seekTarget 40 (Finite 100) 10) (Finite 100) (-10) == 40
  /\ ~ seekTarget (seekTarget tenth (Finite 100) 1) (Finite 100) (-1)
        == tenth.
Proof.
  assert (Hd : (0 < 100)%Q) by reflexivity.
  assert (Hexact : binary64 100 == 100) by (vm_compute; reflexivity).
  split; [|split; [|split]].
  - apply (@seek_stays_in_the_video 95 100 10 Hd Hexact); reflexivity.
  - apply (@seek_stays_in_the_video 3 100 (-10) Hd Hexact); reflexivity.
  - apply (@seek_stays_in_the_video 40 100 10 Hd Hexact);
      try (vm_compute; reflexivity); try discriminate; lia.
  - vm_compute; discriminate.
Defined.

Lemma split_on_absent (c : ascii) (a : jsstring) :
  ~ In c a -> split_on c a = [a].
Proof.
  induction a as [|x a IH]; intros Hno; cbn [split_on]; [reflexivity|].
  destruct (Ascii.eqb x c) eqn:Hx.
  - apply Ascii.eqb_eq in Hx; subst; exfalso; apply Hno; left; reflexivity.
  - rewrite IH by (intros H; apply Hno; right; exact H); reflexivity.
Qed.

Lemma split_on_first (c : ascii) (a b : jsstring) :
  ~ In c a -> split_on c (a ++ c :: b) = a :: split_on c b.
Proof.
  induction a as [|x a IH]; intros Hno; cbn [app split_on].
  - rewrite Ascii.eqb_refl; reflexivity.
  - destruct (Ascii.eqb x c) eqn:Hx.
    + apply Ascii.eqb_eq in Hx; subst; exfalso; apply Hno; left; reflexivity.
    + rewrite IH by (intros H; apply Hno; right; exact H); reflexivity.
Qed.

(** X11.  [blobToBase64] answers the payload of a data URL: for a result
    made of a header without a comma, a comma and a payload without a
    comma (base64 has none) it resolves with the payload, and what follows
    a second comma is dropped.  For a result without any comma it resolves
    with [undefined] instead of rejecting. *)
Theorem blobToBase64_payload (header payload rest : jsstring) :
  ~ In ","%char header -> ~ In ","%char payload ->
  blobToBase64 (header ++ ","%char :: payload) = Some payload
  /\ blobToBase64 (header ++ ","%char :: payload ++ ","%char :: rest)
     = Some payload
  /\ blobToBase64 header = None.
Proof.
  intros Hheader Hpayload; unfold blobToBase64.
  rewrite !split_on_first, split_on_absent by assumption.
  rewrite (@split_on_absent _ _ Hheader); auto.
Qed.

Lemma blobToBase64_payload_witness :
  blobToBase64 (str "data:image/png;base64,iVBORw0KGgo=")
  = Some (str "iVBORw0KGgo=").
Proof.
  apply (@blobToBase64_payload (str "data:image/png;base64")
           (str "iVBORw0KGgo=") []);
    intros Hin; vm_compute in Hin;
    repeat (destruct Hin as [Hin | Hin]; [discriminate|]); exact Hin.
Defined.

Lemma last_index_in_split (c : ascii) (a b : jsstring) :
  ~ In c b -> last_index_in c (a ++ c :: b) = Some (List.length a).
Proof.
  intros Hno.
  change (a ++ c :: b) with (a ++ [c] ++ b); rewrite app_assoc.
  rewrite last_index_in_app_absent by exact Hno.
  apply last_index_in_last.
Qed.

Lemma no_slash (ext : jsstring) :
  ~ In "/"%char ext ->
  forallb (fun c => negb (Ascii.eqb c "/"%char)) ext = true.
Proof.
  intros Hno; apply forallb_forall; intros c Hc.
  destruct (Ascii.eqb c "/"%char) eqn:Hx; [|reflexivity].
  apply Ascii.eqb_eq in Hx; subst; contradiction.
Qed.

(** X12.  The name of the saved transcript.  [handleSave] strips the last
    extension of the video's name, an extension being a dot followed to
    the end of the name by one unit or more that are neither dots nor
    slashes; dots of the stem stay.  The file is then named
    'video script with timestamp - <stem> - <mm_ss>.txt', the time written
    as [formatForFilename] writes it.  A name without a dot, or ending in a
    dot, is kept whole. *)
Theorem transcript_file_name (stem ext : jsstring)
    (videoDuration : option number) :
  ext <> [] -> ~ In "."%char ext -> ~ In "/"%char ext ->
  baseName (stem ++ "."%char :: ext) = stem
  /\ transcriptFileName (stem ++ "."%char :: ext) videoDuration
     = str "video script with timestamp - " ++ stem ++ str " - "
       ++ formatForFilename videoDuration ++ str ".txt"
  /\ baseName ext = ext
  /\ baseName (stem ++ str ".") = stem ++ str "."
  /\ transcriptFileName ext videoDuration
     = str "video script with timestamp - " ++ ext ++ str " - "
       ++ formatForFilename videoDuration ++ str ".txt".
Proof.
  intros Hext Hdot Hslash.
  assert (Hbase : baseName (stem ++ "."%char :: ext) = stem).
  { unfold baseName; rewrite (@last_index_in_split _ stem _ Hdot).
    change (stem ++ "."%char :: ext) with (stem ++ [("."%char)] ++ ext).
    rewrite app_assoc.
    replace (S (List.length stem)) with (List.length (stem ++ ["."%char]))
      by (rewrite length_app; cbn; lia).
    rewrite skipn_exact, (@no_slash _ Hslash).
    destruct ext; [congruence|]; cbn [truthy andb].
    rewrite <- app_assoc; apply firstn_exact. }
  assert (Hnone : baseName ext = ext)
    by (unfold baseName; rewrite (@last_index_in_absent _ _ Hdot); reflexivity).
  assert (Htime : durationStringForFileName videoDuration
                  = formatForFilename videoDuration).
  { unfold durationStringForFileName, formatDuration, formatForFilename.
    destruct videoDuration as [[|q]|]; try reflexivity.
    cbv zeta; apply replace_first_after, pad2_no_colon. }
  unfold transcriptFileName; rewrite Hbase, Hnone, Htime.
  repeat (split; [reflexivity|]); split; [|reflexivity].
  unfold baseName; cbn [str list_ascii_of_string].
  rewrite last_index_in_last.
  replace (skipn (S (List.length stem)) (stem ++ ["."%char]))
    with (@nil ascii); [reflexivity|].
  replace (S (List.length stem)) with (List.length (stem ++ ["."%char]))
    by (rewrite length_app; cbn; lia).
  rewrite <- (app_nil_r (stem ++ ["."%char])) at 2.
  symmetry; apply skipn_exact.
Qed.

Lemma transcript_file_name_witness :
  transcriptFileName (str "talk.v2.mp4") (Some (Num 130))
  = str "video script with timestamp - talk.v2 - 02_10.txt".
Proof.
  assert (Hext : str "mp4" <> []) by discriminate.
  assert (Hdot : ~ In "."%char (str "mp4")).
  { intros Hin; vm_compute in Hin;
      repeat (destruct Hin as [Hin | Hin]; [discriminate|]); exact Hin. }
  assert (Hslash : ~ In "/"%char (str "mp4")).
  { intros Hin; vm_compute in Hin;
      repeat (destruct Hin as [Hin | Hin]; [discriminate|]); exact Hin. }
  destruct (@transcript_file_name (str "talk.v2") (str "mp4")
              (Some (Num 130)) Hext Hdot Hslash) as (_ & Hname & _).
  change (str "talk.v2.mp4") with (str "talk.v2" ++ "."%char :: str "mp4").
  rewrite Hname; vm_compute; reflexivity.
Defined.

(* ================================================================== *)
(** * Further properties: a round of analysis *)
(* ================================================================== *)

Lemma fst_run_cons (s : AppState) (e : Event) (rest : list Event) :
  fst (run s (e :: rest)) = fst (run (fst (step s e)) rest).
Proof.
  cbn [run]; destruct (step s e) as [s1 effects1]; cbn [fst].
  destruct (run s1 rest); reflexivity.
Qed.

Lemma populate_not_success (before after : AppState) :
  status after <> Success -> populateEditableText before after = after.
Proof.
  intros Hs; unfold populateEditableText.
  destruct (status after); try congruence; cbn [AppStatus_eqb];
    rewrite andb_false_r; reflexivity.
Qed.

Lemma populate_new_success (before after : AppState) :
  status before <> Success -> status after = Success ->
  populateEditableText before after
  = setEditableText (formattedText_of after) after.
Proof.
  intros Hb Ha; unfold populateEditableText; rewrite Ha.
  destruct (status before); try congruence; cbn [AppStatus_eqb negb];
    rewrite orb_true_r; reflexivity.
Qed.

Lemma formattedText_success (items : list Transcription)
    (videoDuration : option number) :
  formattedText items Success videoDuration
  = join [newline] (map entry_line items ++ [clip_length_line videoDuration]).
Proof.
  unfold formattedText; cbn [AppStatus_eqb negb].
  fold entry_line; fold (clip_length_line videoDuration).
  rewrite joined_lines_truthy.
  destruct items as [|item items]; [reflexivity|].
  cbn [List.length Nat.eqb negb].
  rewrite join_snoc by discriminate; reflexivity.
Qed.

Lemma step_analyze (s : AppState) (dom : Dom) :
  isSome (videoFile s) = true -> status s <> Processing ->
  step s (Click AnalyzeBtn dom)
  = (s |> setStatus Processing
       |> setError None
       |> setTranscriptions []
       |> setEditableText []
       |> setProgress (mkProgress (str "Starting analysis...") None)
       |> setProgress (mkProgress (str "Extracting frames from video...")
                                  (Some (Num 0))),
     [StartAnalysis; Await AwAnalysis]).
Proof.
  intros Hfile Hstatus; unfold step, handle, clickable.
  cbn [rendered disabled onClick]; rewrite Hfile.
  assert (Hp : AppStatus_eqb (status s) Processing = false)
    by (destruct (status s); try reflexivity; congruence).
  rewrite Hp; cbn [andb negb]; unfold handleAnalyzeClick.
  destruct (videoFile s); [|discriminate].
  rewrite populate_not_success by discriminate; reflexivity.
Qed.

(** While the analysis reports its progress nothing else changes, and a
    rejection then ends in the 'error' status. *)
Lemma progress_then_rejection (reports : list (jsstring * option number))
    (msg : jsstring) :
  forall s,
    status s = Processing ->
    let final :=
      fst (run s (map (fun r => AnalysisProgress (fst r) (snd r)) reports
                  ++ [AnalysisSettled (Rejected msg)])) in
    status final = Error
    /\ error final
       = Some (or_else msg
                 (str "An unknown error occurred during analysis."))
    /\ transcriptions final = transcriptions s
    /\ editableText final = editableText s
    /\ videoFile final = videoFile s.
Proof.
  induction reports as [|r reports IH]; intros s Hs; cbv zeta;
    cbn [map app]; rewrite fst_run_cons.
  - cbn [run fst]; rewrite fst_step; cbn [handle analysisSettled fst].
    rewrite populate_not_success by discriminate.
    repeat split; reflexivity.
  - rewrite fst_step; cbn [handle onAnalysisProgress fst].
    rewrite populate_not_success by (cbn; rewrite Hs; discriminate).
    apply (IH (s |> setProgress (mkProgress (fst r) (snd r)))); exact Hs.
Qed.

Lemma step_file_change (s : AppState) (file : File) (newUrl : Url) :
  let s1 := fst (step s (VideoFileChange (Some file) newUrl)) in
  videoFile s1 = Some file /\ videoUrl s1 = Some newUrl
  /\ status s1 = Idle /\ videoDuration s1 = None.
Proof.
  cbv zeta; rewrite fst_step; cbn [handle handleFileChange fst].
  rewrite populate_not_success; [repeat split; reflexivity|].
  cbn; discriminate.
Qed.

Lemma step_analysis_resolved (s : AppState) (results : list Transcription) :
  status s <> Success ->
  let s1 := fst (step s (AnalysisSettled (Resolved results))) in
  videoFile s1 = videoFile s /\ videoUrl s1 = videoUrl s
  /\ status s1 = Success /\ transcriptions s1 = results
  /\ editableText s1 = formattedText results Success (videoDuration s).
Proof.
  intros Hs; cbv zeta; rewrite fst_step; cbn [handle analysisSettled fst].
  rewrite populate_new_success; [repeat split; reflexivity | exact Hs|].
  reflexivity.
Qed.

(** X13.  A failed analysis takes the transcript with it.  A video is
    loaded and no analysis is running, whatever else the state holds
    (a transcript edited by the user, an image task in progress): after
    the click on Analyze, any progress reports and the rejection of the
    analysis, the status is 'error', the panel 'Analysis Failed' is on the
    page and the message it shows is the message of the rejection, or the
    sentence 'An unknown error occurred during analysis.' when that
    message is empty; the transcript box and its tools are off the page,
    and the transcript and the entries held before the click are gone. *)
Theorem failed_analysis_round (s : AppState) (dom : Dom)
    (reports : list (jsstring * option number)) (msg : jsstring) :
  isSome (videoFile s) = true -> status s <> Processing ->
  let final :=
    fst (run s (Click AnalyzeBtn dom
                :: map (fun r => AnalysisProgress (fst r) (snd r)) reports
                ++ [AnalysisSettled (Rejected msg)])) in
  status final = Error
  /\ errorPanel final = true
  /\ resultPanel final = false
  /\ (truthy msg = true -> error final = Some msg)
  /\ (msg = [] ->
      error final
      = Some (str "An unknown error occurred during analysis."))
  /\ transcriptions final = []
  /\ editableText final = []
  /\ videoFile final = videoFile s.
Proof.
  intros Hfile Hstatus final; unfold final.
  rewrite fst_run_cons, (@step_analyze s dom Hfile Hstatus); cbn [fst].
  match goal with
  | |- context [run ?s1 _] =>
      destruct (@progress_then_rejection reports msg s1 eq_refl)
        as (Hst & Herr & Htr & Htext & Hvideo)
  end.
  cbv zeta in *.
  unfold errorPanel, resultPanel; rewrite Hst.
  split; [reflexivity|]; split; [reflexivity|]; split; [reflexivity|].
  split; [intros Hmsg; rewrite Herr; unfold or_else; rewrite Hmsg;
          reflexivity|].
  split; [intros ->; exact Herr | auto].
Qed.

Lemma failed_analysis_round_witness :
  let reports := [(str "Extracting frames from video...", Some (Num 22))] in
  let final :=
    fst (run two_lines
             (Click AnalyzeBtn plain_page
              :: map (fun r => AnalysisProgress (fst r) (snd r)) reports
              ++ [AnalysisSettled
                    (Rejected (str "Error processing video file."))])) in
  editableText two_lines = str "00:05 hi" ++ [newline] ++ str "next"
  /\ editableText final = []
  /\ errorPanel final = true
  /\ error final = Some (str "Error processing video file.")
  /\ error (fst (run two_lines
                     [Click AnalyzeBtn plain_page;
                      AnalysisSettled (Rejected [])]))
     = Some (str "An unknown error occurred during analysis.").
Proof.
  assert (Hfile : isSome (videoFile two_lines) = true)
    by (vm_compute; reflexivity).
  assert (Hstatus : status two_lines <> Processing)
    by (vm_compute; discriminate).
  destruct (@failed_analysis_round two_lines plain_page
              [(str "Extracting frames from video...", Some (Num 22))]
              (str "Error processing video file.") Hfile Hstatus)
    as (_ & Hpanel & _ & Hshown & _ & _ & Htext & _).
  destruct (@failed_analysis_round two_lines plain_page [] [] Hfile Hstatus)
    as (_ & _ & _ & _ & Hfallback & _).
  split; [vm_compute; reflexivity|].
  split; [exact Htext|]; split; [exact Hpanel|].
  split; [exact (Hshown eq_refl) | exact (Hfallback eq_refl)].
Defined.

Lemma step_metadata_after_success (s : AppState) (duration : number) :
  status s = Success -> editableText s = formattedText_of s ->
  editableText (fst (step s (MetadataLoaded duration)))
  = formattedText (transcriptions s) Success (Some duration).
Proof.
  intros Hs Htext; rewrite fst_step; cbn [handle onloadedmetadata fst].
  unfold populateEditableText.
  change (status (s |> setVideoDuration (Some duration))) with (status s).
  change (formattedText_of (s |> setVideoDuration (Some duration)))
    with (formattedText (transcriptions s) (status s) (Some duration)).
  rewrite Hs; cbn [AppStatus_eqb negb orb andb].
  rewrite orb_false_r, andb_true_r.
  destruct (jsstring_eqb (formattedText_of s)
              (formattedText (transcriptions s) Success (Some duration)))
    eqn:Hsame; cbn [negb]; [|reflexivity].
  apply jsstring_eqb_eq in Hsame; rewrite <- Hsame; exact Htext.
Qed.

(** X14.  An analysis is not cancelled by the choice of another video.
    A video is loaded and no analysis is running; the click on Analyze
    starts one, then another video file is chosen, then the analysis of
    the first video resolves with [results].  The component ends in the 'success'
    status with the second file loaded, and the transcript box shows the
    entries found in the first video, one per line, followed by the
    clip-length line of a duration that is not known yet,
    'clip length 00:00'.  When the metadata of the second video arrive,
    the box is filled again: the same entries, now with the length of the
    second video. *)
Theorem analysis_outlives_its_video (s : AppState) (dom : Dom)
    (file2 : File) (url2 : Url) (results : list Transcription) :
  isSome (videoFile s) = true -> status s <> Processing ->
  let final :=
    fst (run s [Click AnalyzeBtn dom;
                VideoFileChange (Some file2) url2;
                AnalysisSettled (Resolved results)]) in
  snd (step s (Click AnalyzeBtn dom)) = [StartAnalysis; Await AwAnalysis]
  /\ videoFile final = Some file2
  /\ videoUrl final = Some url2
  /\ status final = Success
  /\ transcriptions final = results
  /\ editableText final
     = join [newline]
            (map entry_line results ++ [str "clip length 00:00"])
  /\ (forall duration,
        editableText (fst (step final (MetadataLoaded duration)))
        = join [newline]
               (map entry_line results
                ++ [clip_length_line (Some duration)])).
Proof.
  intros Hfile Hstatus final; unfold final.
  split; [rewrite (@step_analyze s dom Hfile Hstatus); reflexivity|].
  rewrite !fst_run_cons; cbn [run fst].
  remember (fst (step s (Click AnalyzeBtn dom))) as s1 eqn:H1.
  destruct (step_file_change s1 file2 url2) as (Hv & Hu & Hst & Hd).
  cbv zeta in *.
  remember (fst (step s1 (VideoFileChange (Some file2) url2))) as s2 eqn:H2.
  assert (Hs2 : status s2 <> Success) by (rewrite Hst; discriminate).
  destruct (@step_analysis_resolved s2 results Hs2)
    as (Hv3 & Hu3 & Hst3 & Htr3 & Htext3).
  cbv zeta in *.
  remember (fst (step s2 (AnalysisSettled (Resolved results)))) as s3
    eqn:H3.
  split; [rewrite Hv3; exact Hv|].
  split; [rewrite Hu3; exact Hu|].
  split; [exact Hst3|]; split; [exact Htr3|].
  split; [rewrite Htext3, Hd; apply formattedText_success|].
  intros duration.
  rewrite step_metadata_after_success, Htr3;
    [apply formattedText_success | exact Hst3|].
  unfold formattedText_of; rewrite Htext3, Htr3, Hst3.
  assert (Hd3 : videoDuration s3 = videoDuration s2).
  { rewrite H3, fst_step; cbn [handle analysisSettled fst].
    rewrite populate_new_success by (try exact Hs2; reflexivity).
    reflexivity. }
  rewrite Hd3; reflexivity.
Qed.

Lemma analysis_outlives_its_video_witness :
  let final :=
    fst (run video_loaded
             [Click AnalyzeBtn plain_page;
              VideoFileChange (Some (mkFile (str "other.mp4"))) 2%nat;
              AnalysisSettled
                (Resolved [mkTranscription (str "00:04") (str "WORLD")])]) in
  videoFile final = Some (mkFile (str "other.mp4"))
  /\ editableText final
     = str "00:04 WORLD" ++ [newline] ++ str "clip length 00:00".
Proof.
  assert (Hfile : isSome (videoFile video_loaded) = true)
    by (vm_compute; reflexivity).
  assert (Hstatus : status video_loaded <> Processing)
    by (vm_compute; discriminate).
  destruct (@analysis_outlives_its_video video_loaded plain_page
              (mkFile (str "other.mp4")) 2%nat
              [mkTranscription (str "00:04") (str "WORLD")] Hfile Hstatus)
    as (_ & Hvideo & _ & _ & _ & Htext & _).
  cbv zeta; split; [exact Hvideo | exact Htext].
Defined.

(* ================================================================== *)
(** * Further properties: the batch request *)
(* ================================================================== *)

(** X15.  The analysis sends every sampled frame once, in one request.
    For a video whose duration is a finite number [D] of seconds with
    [0 <= D < 2^53] and whose seeks within the duration all settle, with a
    drawing context and enough fuel, [analyzeVideoForText]
    sends exactly one request, to the model 'gemini-2.5-pro', carrying one
    JPEG part per cursor value 0, 2, 4, ... up to [D], in that order.  It
    rejects with the message of a failed call or of a text that does not
    parse; otherwise it resolves with one entry per raw result, in the
    order of the answer, each with the text of the result and its
    timestamp formatted by [formatTimestamp]: the entries are neither
    sorted nor matched against the frames sent.  The progress reported is
    'Extracting frames from video...' once with 0 and once per frame (with
    the percentage of [progress_of], rounded as the doubles of the program
    round), then 'Analyzing frames with Gemini...', and
    'Processing results...' only when the call has answered. *)
Theorem analysis_sends_all_frames_once (video : VideoElement) (D : Q)
    (fuel : nat) (reply : AiRequest -> BatchAnswer) :
  let n := sample_count D in
  let positions := map (fun i => 2 * Z.of_nat i) (seq 0 n) in
  ve_duration video = Finite D ->
  (0 <= D)%Q -> (D < inject_Z (2 ^ 53))%Q ->
  (forall c, 0 <= c -> (inject_Z c <= D)%Q -> ve_seek video c <> None) ->
  (n < fuel)%nat ->
  exists analysis request,
    analyzeVideoForText fuel true video reply = Some analysis
    /\ ar_requests analysis = [request]
    /\ rq_model request = str "gemini-2.5-pro"
    /\ rq_prompt request = TranscriptionPrompt
    /\ rq_images request
       = map (fun c => mkInlineData (str "image/jpeg")
                         (vf_imageData (frame_at video c)))
             positions
    /\ List.length (rq_images request) = n
    /\ ar_outcome analysis
       = match reply request with
         | CallFailed message | Malformed message => Rejected message
         | Parsed rawResults =>
             Resolved
               (map (fun result =>
                       mkTranscription
                         (formatTimestamp (raw_timestamp result))
                         (raw_text result))
                    rawResults)
         end
    /\ ar_progress analysis
       = (str "Extracting frames from video...", Some (Num 0))
         :: extraction_progress
              (map (fun c => progress_of c (Finite D)) positions)
         ++ (str "Analyzing frames with Gemini...", None)
         :: match reply request with
            | CallFailed _ => []
            | _ => [(str "Processing results...", None)]
            end.
Proof.
  intros n positions Hfinite HD _ Hseek Hfuel.
  assert (Hpos : positions = cursors 0 n)
    by (symmetry; apply cursors_from_zero).
  assert (Hin : forall x, In x (cursors 0 n) ->
                          exceeds x (ve_duration video) = false
                          /\ ve_seek video x <> None).
  { intros x Hx; rewrite cursors_from_zero in Hx.
    apply in_map_iff in Hx; destruct Hx as (i & <- & Hi).
    apply in_seq in Hi.
    assert (Hle : (inject_Z (2 * Z.of_nat i) <= D)%Q)
      by (apply sample_count_inside; [exact HD | fold n; lia]).
    split; [rewrite Hfinite; apply exceeds_finite; exact Hle
           | apply Hseek; [lia | exact Hle]]. }
  assert (Hrun : captureFrame fuel video 0 [] [] []
                 = Some (mkSamplerRun
                           (Resolved (map (frame_at video) (cursors 0 n)))
                           (map (fun x => progress_of x (Finite D))
                                (cursors 0 n))
                           (cursors 0 n))).
  { rewrite <- Hfinite.
    apply (@captureFrame_rounds video n fuel 0 [] [] [] Hfuel Hin).
    rewrite Hfinite; apply exceeds_finite.
    apply sample_count_beyond; exact HD. }
  assert (Hn : (0 < n)%nat).
  { unfold n, sample_count.
    assert (0 <= Qfloor D)
      by (change 0 with (Qfloor (inject_Z 0)); apply Qfloor_resp_le;
          exact HD).
    assert (0 <= Qfloor D / 2) by (apply Z.div_pos; lia).
    lia. }
  unfold analyzeVideoForText, extractFramesFromVideo; cbn [negb].
  rewrite Hrun; cbn [sr_outcome sr_progress].
  rewrite length_map, cursors_length.
  destruct n as [|k] eqn:Hk; [lia|]; cbn [Nat.eqb].
  rewrite map_map, Hpos.
  set (request := mkAiRequest _ _ _).
  destruct (reply request) eqn:Hreply;
    eexists; exists request; rewrite ?Hreply;
    (split; [reflexivity|]);
    cbn [ar_requests ar_outcome ar_progress rq_model rq_prompt rq_images
         request];
    rewrite ?Hreply, length_map, cursors_length;
    (repeat (split; [reflexivity|]));
    cbn [app]; rewrite <- ?app_assoc; reflexivity.
Qed.

Lemma analysis_sends_all_frames_once_witness :
  exists analysis request,
    analyzeVideoForText 10 true five_seconds hello_world = Some analysis
    /\ ar_requests analysis = [request]
    /\ List.length (rq_images request) = 3%nat
    /\ ar_progress analysis
       = [(str "Extracting frames from video...", Some (Num 0));
          (str "Extracting frames from video...", Some (Num 0));
          (str "Extracting frames from video...", Some (Num 40));
          (str "Extracting frames from video...", Some (Num 80));
          (str "Analyzing frames with Gemini...", None);
          (str "Processing results...", None)].
Proof.
  assert (HD : (0 <= 5)%Q) by discriminate.
  assert (Hbound : (5 < inject_Z (2 ^ 53))%Q) by reflexivity.
  assert (Hseek : forall c, 0 <= c -> (inject_Z c <= 5)%Q ->
                    ve_seek five_seconds c <> None)
    by (intros c _ _; discriminate).
  assert (Hfuel : (sample_count 5 < 10)%nat) by (vm_compute; lia).
  destruct (@analysis_sends_all_frames_once five_seconds 5 10 hello_world
              eq_refl HD Hbound Hseek Hfuel)
    as (analysis & request & Hrun & Hreq & _ & _ & _ & Hlen & _ & Hprog).
  exists analysis, request.
  split; [exact Hrun|]; split; [exact Hreq|]; split; [exact Hlen|].
  rewrite Hprog; vm_compute; reflexivity.
Defined.

(* ================================================================== *)
(** * Further properties: what writes the transcript *)
(* ================================================================== *)

Lemma transcript_populate (before after : AppState) :
  transcriptions (populateEditableText before after) = transcriptions after.
Proof. destruct (populate_cases before after) as [-> | ->]; reflexivity. Qed.

Lemma quiet_handle (s : AppState) (e : Event) :
  writes_transcript e = false ->
  let s1 := fst (handle e s) in
  editableText s1 = editableText s
  /\ transcriptions s1 = transcriptions s
  /\ videoDuration s1 = videoDuration s
  /\ (status s1 = status s \/ status s1 = Error).
Proof.
  intros Hquiet; cbv zeta.
  destruct e as [storedKey envKey|b dom| | | | | | | | | | | | | | | | | |
                 | | | | | origin loaded|origin answer fetched| | |];
    try discriminate Hquiet; cbn [handle].
  2:{ destruct (clickable s b); [|cbn; auto].
      destruct b; try discriminate Hquiet; cbn [onClick];
        unfold_handlers; cbv zeta; split_branches; cbn; auto. }
  all: unfold_handlers; cbv zeta; try destruct origin; split_branches;
    cbn; auto.
Qed.

(** X16.  Nothing but the transcript's own events touches the transcript.
    Every event other than typing into the box, opening a text file, the
    timestamp button, the Analyze button, the end of an analysis, the
    choice of a video and the arrival or failure of its metadata leaves
    the content of the transcript box and the entries of the analysis as
    they are: the image tools, the key bar, the player and all results of
    image operations, failed or not, never change them. *)
Theorem transcript_changes_only_by (s : AppState) (e : Event) :
  writes_transcript e = false ->
  editableText (fst (step s e)) = editableText s
  /\ transcriptions (fst (step s e)) = transcriptions s.
Proof.
  intros Hquiet.
  destruct (quiet_handle s e Hquiet) as (Htext & Htr & Hd & Hst).
  cbv zeta in *; rewrite fst_step, transcript_populate.
  split; [|exact Htr].
  destruct Hst as [Hst | Hst].
  - rewrite populate_same_inputs; assumption.
  - rewrite populate_not_success; [exact Htext|].
    rewrite Hst; discriminate.
Qed.

Lemma transcript_changes_only_by_witness :
  let s' :=
    fst (step two_lines
              (CaptureTextSettled (Rejected (str "quota")) (Resolved 3%nat)))
  in
  error s' = Some (str "quota")
  /\ editableText s' = editableText two_lines.
Proof.
  cbv zeta; split; [vm_compute; reflexivity|].
  apply (@transcript_changes_only_by two_lines
           (CaptureTextSettled (Rejected (str "quota")) (Resolved 3%nat))).
  reflexivity.
Defined.
